(** * Outbox notification pipeline: embedding and verified properties

    A shallow embedding of the delivery core of the notification service:
    the retry helper ([RetryHelper]), the DynamoDB image conversion, the
    outbox status updates, the stream dispatcher ([StreamProcessor]), the
    dead-letter processor ([DLQProcessor]) and the log masking helper.

    JavaScript values are an inductive type, objects are association lists
    in insertion order, the outbox table is a finite map from the [id] key
    to the stored item, and asynchronous functions are state transformers
    over a [World] returning either a value or a thrown error. *)

From Stdlib Require Import ZArith QArith Qminmax Qround Qpower String Ascii List Lia Lqa.
From stdpp Require Import gmap strings list pretty.

Open Scope string_scope.
Open Scope list_scope.
Open Scope Z_scope.

(** ** JavaScript strings *)

Module JsString.

(** [s.includes(sub)] *)
Fixpoint includes (sub s : string) : bool :=
  String.prefix sub s
  || match s with
     | EmptyString => false
     | String _ rest => includes sub rest
     end.

(** [s.startsWith(p)] *)
Definition startsWith (p s : string) : bool := String.prefix p s.

(** [s.split(c)] for a one-character separator. *)
Fixpoint split (c : ascii) (s : string) : list string :=
  match s with
  | EmptyString => [EmptyString]
  | String x rest =>
      if Ascii.eqb x c then EmptyString :: split c rest
      else match split c rest with
           | piece :: pieces => String x piece :: pieces
           | [] => [String x EmptyString]
           end
  end.

(** [s.substring(from, to)]: both indices are clamped to [0, length] and
    swapped when out of order. *)
Definition substring (from to : Z) (s : string) : string :=
  let len := Z.of_nat (String.length s) in
  let a := Z.min (Z.max from 0) len in
  let b := Z.min (Z.max to 0) len in
  String.substring (Z.to_nat (Z.min a b))
                   (Z.to_nat (Z.max a b - Z.min a b)) s.

(** [s.substring(from)] *)
Definition substring_from (from : Z) (s : string) : string :=
  substring from (Z.of_nat (String.length s)) s.

(** A string is falsy exactly when it is empty. *)
Definition truthy (s : string) : bool :=
  match s with EmptyString => false | _ => true end.

End JsString.

(** ** Log masking (notification-service.js, [maskSensitiveData]) *)

(** The two pieces bound by [const [localPart, domain] = data.split('@')];
    a missing piece is [undefined], printed as such by the template
    literal. *)
Definition piece (i : nat) (pieces : list string) : string :=
  nth i pieces "undefined".

Definition maskSensitiveData (data : string) : string :=
  if negb (JsString.truthy data) then data
  else if JsString.includes "@" data then
    let pieces := JsString.split "@"%char data in
    let localPart := piece 0 pieces in
    let domain := piece 1 pieces in
    JsString.substring 0 2 localPart +:+ "***@" +:+ domain
  else if JsString.startsWith "+" data then
    JsString.substring 0 3 data +:+ "***"
      +:+ JsString.substring_from (Z.of_nat (String.length data) - 2) data
  else data.

(** E.164 numbers, as accepted at creation: [/^\+[1-9]\d{1,14}$/]. *)
Definition is_digit (c : ascii) : bool :=
  (48 <=? nat_of_ascii c)%nat && (nat_of_ascii c <=? 57)%nat.

Fixpoint all_digits (s : string) : bool :=
  match s with
  | EmptyString => true
  | String c rest => is_digit c && all_digits rest
  end.

Definition is_e164 (s : string) : bool :=
  match s with
  | String p (String d rest) =>
      Ascii.eqb p "+"%char
      && is_digit d && negb (Ascii.eqb d "0"%char)
      && all_digits rest
      && (1 <=? String.length rest)%nat && (String.length rest <=? 14)%nat
  | _ => false
  end.

(** ** Asynchronous functions

    An [async] function is a transformer of the state it runs in; it
    either resolves with a value or rejects with the error it threw. *)

Record JsError := mkError {
  name : string;          (* error.name *)
  ctor : string;          (* error.constructor.name *)
  message : string        (* error.message *)
}.

Definition newError (msg : string) : JsError :=
  {| name := "Error"; ctor := "Error"; message := msg |}.

Inductive Result (A : Type) : Type :=
| Ok (value : A)
| Throw (error : JsError).
Arguments Ok {A} value.
Arguments Throw {A} error.

Definition Async (S A : Type) : Type := S -> Result A * S.

Definition is_throw {A : Type} (r : Result A) : bool :=
  match r with Ok _ => false | Throw _ => true end.

(** ** Retry helper (utils/retry-helper.js) *)

Module RetryHelper.

(** [Math.pow(factor, attempt)] for an attempt counter. *)
Fixpoint pow (factor : Q) (attempt : nat) : Q :=
  match attempt with
  | O => 1%Q
  | S n => (factor * pow factor n)%Q
  end.

(** [Math.min(baseDelay * Math.pow(factor, attempt), maxDelay)] *)
Definition backoffDelay (baseDelay maxDelay factor : Q) (attempt : nat) : Q :=
  Qmin (baseDelay * pow factor attempt)%Q maxDelay.

(** [delay * (0.5 + Math.random() * 0.5)], [r] being the random draw. *)
Definition withJitter (delay r : Q) : Q :=
  (delay * ((1 # 2) + r * (1 # 2)))%Q.

(** What the engine needs from the state it runs in: [Math.random()]
    and [RetryHelper.sleep(ms)]. *)
Class Timers (S : Type) : Type := {
  random : S -> Q * S;
  sleep : Q -> S -> S
}.

Section Engine.
Context {S A : Type} `{Timers S}.

(** The [for] loop of [exponentialBackoff], entered at [attempt] with
    [remaining] further iterations before [attempt <= maxRetries]
    fails.  Leaving the loop reaches [throw lastError], and
    [lastError] is then the error just caught. *)
Fixpoint attempts (fn : Async S A) (maxRetries : nat)
    (baseDelay maxDelay factor : Q) (jitter : bool)
    (remaining attempt : nat) (s : S) : Result A * S :=
  match fn s with
  | (Ok value, s1) => (Ok value, s1)
  | (Throw error, s1) =>
      if (attempt =? maxRetries)%nat then (Throw error, s1)
      else
        let delay := backoffDelay baseDelay maxDelay factor attempt in
        let '(delay, s2) :=
          if jitter
          then let '(r, s2) := random s1 in (withJitter delay r, s2)
          else (delay, s1) in
        let s3 := sleep delay s2 in
        match remaining with
        | O => (Throw error, s3)
        | Datatypes.S k =>
            attempts fn maxRetries baseDelay maxDelay factor jitter
                     k (Datatypes.S attempt) s3
        end
  end.

Definition exponentialBackoff (fn : Async S A) (maxRetries : nat)
    (baseDelay maxDelay factor : Q) (jitter : bool) : Async S A :=
  attempts fn maxRetries baseDelay maxDelay factor jitter maxRetries 0.

End Engine.

Definition retryableErrors : list string :=
  [ "ThrottlingException";
    "ProvisionedThroughputExceededException";
    "ServiceUnavailableException";
    "InternalServerErrorException";
    "RequestTimeout";
    "NetworkingError";
    "ECONNRESET";
    "ENOTFOUND";
    "ECONNREFUSED";
    "ETIMEDOUT" ].

Definition isRetryableError (error : JsError) : bool :=
  let errorName :=
    if JsString.truthy (name error) then name error else ctor error in
  let errorMessage :=
    if JsString.truthy (message error) then message error else EmptyString in
  existsb (fun retryableError =>
             JsString.includes retryableError errorName
             || JsString.includes retryableError errorMessage)
          retryableErrors.

Record Options : Type := {
  maxRetries : nat;
  baseDelay : Q;
  maxDelay : Q;
  factor : Q;
  jitter : bool;
  retryCondition : JsError -> bool
}.

(** The defaults of the destructured [options] argument. *)
Definition defaults : Options :=
  {| maxRetries := 3; baseDelay := 1000; maxDelay := 30000; factor := 2;
     jitter := true; retryCondition := isRetryableError |}.

Section Wrappers.
Context {S A : Type} `{Timers S}.

Definition withRetry (operation : Async S A) (options : Options) : Async S A :=
  let wrappedOperation : Async S A := fun s =>
    match operation s with
    | (Ok value, s1) => (Ok value, s1)
    | (Throw error, s1) =>
        if negb (retryCondition options error)
        then (Throw error, s1)
        else (Throw error, s1)
    end in
  exponentialBackoff wrappedOperation (maxRetries options)
    (baseDelay options) (maxDelay options) (factor options) (jitter options).

Definition retryWithBackoff (operation : Async S A) : Async S A :=
  withRetry operation
    {| maxRetries := 3; baseDelay := 1000;
       maxDelay := maxDelay defaults; factor := factor defaults;
       jitter := jitter defaults;
       retryCondition := fun error => isRetryableError error |}.

End Wrappers.

(** *** Observing a run

    To count invocations and delays, the wrapped operation is run on a
    state extended with a trace the operation itself cannot touch. *)

Record Trace (A : Type) : Type := mkTrace {
  outcomes : list (Result A);   (* one entry per invocation, oldest first *)
  sleeps : list Q;              (* one entry per [sleep], oldest first *)
  drawn : list Q                (* one entry per [Math.random()], oldest first *)
}.
Arguments mkTrace {A} outcomes sleeps drawn.
Arguments outcomes {A} t.
Arguments sleeps {A} t.
Arguments drawn {A} t.

Definition traced {S A : Type} (op : Async S A) : Async (S * Trace A) A :=
  fun '(s, t) =>
    let '(r, s1) := op s in
    (r, (s1, mkTrace (outcomes t ++ [r]) (sleeps t) (drawn t))).

#[global] Instance Timers_traced {S A : Type} `{Timers S} : Timers (S * Trace A) := {
  random := fun '(s, t) =>
    let '(r, s1) := random s in
    (r, (s1, mkTrace (outcomes t) (sleeps t) (drawn t ++ [r])));
  sleep := fun delay '(s, t) =>
    (sleep delay s, mkTrace (outcomes t) (sleeps t ++ [delay]) (drawn t))
}.

Definition noTrace {A : Type} : Trace A := mkTrace [] [] [].

End RetryHelper.

(** A logical clock in milliseconds: the smallest state with timers.
    [Math.random()] answers 0 and [sleep] advances the clock. *)
#[global] Instance Timers_clock : RetryHelper.Timers Z := {
  RetryHelper.random := fun now => (0%Q, now);
  RetryHelper.sleep := fun delay now => now + Z.max 0 (Qceiling delay)
}.

(** ** JavaScript values *)

#[warning="-register-all"]
Inductive JsVal : Type :=
| JUndefined
| JNull
| JBool (b : bool)
| JNum (n : Z)
| JNaN
| JStr (s : string)
| JArr (items : list JsVal)
| JObj (fields : list (string * JsVal)).

(** An object: its properties in insertion order. *)
Abbreviation Obj := (list (string * JsVal)).

(** The builtins whose results the pipeline only passes along. *)
Class JsBuiltins : Type := {
  Number : string -> JsVal;        (* Number(s) *)
  DateTime : JsVal -> option Z;    (* new Date(v).getTime(), None for an invalid date *)
  toISOString : Z -> string;       (* new Date(ms).toISOString() *)
  ToString : JsVal -> string       (* String(v), as in a template literal *)
}.

Definition TypeError (msg : string) : JsError :=
  {| name := "TypeError"; ctor := "TypeError"; message := msg |}.

Module Js.

Definition truthy (v : JsVal) : bool :=
  match v with
  | JUndefined | JNull | JNaN => false
  | JBool b => b
  | JNum n => negb (n =? 0)
  | JStr s => JsString.truthy s
  | JArr _ | JObj _ => true
  end.

(** Objects are given by their own properties.  The names below are
    read and assigned as own properties; what an object literal
    inherits from [Object.prototype] ([constructor], [toString], the
    accessor [__proto__], ...) is not part of the model, and no
    embedded function reads or assigns such a name except through the
    attribute names of a stream image. *)

(** [o[k]], [undefined] when absent. *)
Fixpoint get (k : string) (o : Obj) : JsVal :=
  match o with
  | [] => JUndefined
  | (k', v) :: rest => if String.eqb k k' then v else get k rest
  end.

(** [o[k] = v] *)
Fixpoint set (k : string) (v : JsVal) (o : Obj) : Obj :=
  match o with
  | [] => [(k, v)]
  | (k', v') :: rest =>
      if String.eqb k k' then (k, v) :: rest else (k', v') :: set k v rest
  end.

(** [v.k]: reading a property of [undefined] or [null] throws. *)
Definition prop (k : string) (v : JsVal) : Result JsVal :=
  match v with
  | JUndefined | JNull =>
      Throw (TypeError ("Cannot read properties of undefined (reading '" +:+ k +:+ "')"))
  | JObj fields => Ok (get k fields)
  | _ => Ok JUndefined
  end.

(** [v === 'literal'] *)
Definition is_string (literal : string) (v : JsVal) : bool :=
  match v with JStr s => String.eqb s literal | _ => false end.

(** [a || b] *)
Definition or (a b : JsVal) : JsVal := if truthy a then a else b.

Section Compare.
Context `{JsBuiltins}.

(** ToNumber on primitives, [None] for NaN.  Arrays and objects are
    given no numeric value; no property compared below holds one. *)
Definition toNumber (v : JsVal) : option Z :=
  match v with
  | JNum n => Some n
  | JNull => Some 0
  | JBool b => Some (if b then 1 else 0)
  | JStr s => match Number s with JNum n => Some n | _ => None end
  | _ => None
  end.

(** [a >= b] *)
Definition ge (a b : JsVal) : bool :=
  match a, b with
  | JStr x, JStr y => negb (String.ltb x y)
  | _, _ =>
      match toNumber a, toNumber b with
      | Some x, Some y => y <=? x
      | _, _ => false
      end
  end.

(** [new Date(v) > new Date(now)] *)
Definition date_after (v : JsVal) (now : Z) : bool :=
  match DateTime v with
  | Some t => now <? t
  | None => false
  end.
End Compare.

End Js.

(** ** DynamoDB attribute values (stream images)

    An attribute of a stream image is a wrapper object with exactly one
    type tag. *)

#[warning="-register-all"]
Inductive AttributeValue : Type :=
| AV_S (payload : string)
| AV_N (payload : string)
| AV_B (payload : string)
| AV_BOOL (payload : bool)
| AV_NULL (payload : bool)
| AV_L (payload : list AttributeValue)
| AV_M (payload : list (string * AttributeValue))
| AV_SS (payload : list string)
| AV_NS (payload : list string)
| AV_BS (payload : list string).

Abbreviation Image := (list (string * AttributeValue)).

(** The wrapper as the JavaScript object it is: [{ tag: payload }]. *)
Fixpoint wrapper (value : AttributeValue) : JsVal :=
  match value with
  | AV_S s => JObj [("S", JStr s)]
  | AV_N n => JObj [("N", JStr n)]
  | AV_B b => JObj [("B", JStr b)]
  | AV_BOOL b => JObj [("BOOL", JBool b)]
  | AV_NULL b => JObj [("NULL", JBool b)]
  | AV_L l => JObj [("L", JArr (map wrapper l))]
  | AV_M m => JObj [("M", JObj (map (fun '(k, v) => (k, wrapper v)) m))]
  | AV_SS l => JObj [("SS", JArr (map JStr l))]
  | AV_NS l => JObj [("NS", JArr (map JStr l))]
  | AV_BS l => JObj [("BS", JArr (map JStr l))]
  end.

(** The payload under the wrapper's tag, as a JavaScript value. *)
Definition payload_of (value : AttributeValue) : JsVal :=
  match wrapper value with
  | JObj [(_, payload)] => payload
  | _ => JUndefined
  end.

Section Conversion.
Context `{JsBuiltins}.

(** [convertDynamoDBValue] (stream-processor.js and, identically, the
    DLQ processor).  The function tests [value.S], [value.N], ... in
    turn; on a wrapper with one tag only the test of that tag can
    succeed, and when its payload is falsy every test fails and the
    fallback [return value] is reached. *)
Fixpoint convertDynamoDBValue (value : AttributeValue) : JsVal :=
  match value with
  | AV_S s => if Js.truthy (JStr s) then JStr s else wrapper value
  | AV_N n => if Js.truthy (JStr n) then Number n else wrapper value
  | AV_B b => if Js.truthy (JStr b) then JStr b else wrapper value
  | AV_BOOL b => if Js.truthy (JBool b) then JBool b else wrapper value
  | AV_NULL b => if Js.truthy (JBool b) then JNull else wrapper value
  | AV_L l => JArr (map convertDynamoDBValue l)
  | AV_M m =>
      JObj (fold_left (fun obj '(k, v) => Js.set k (convertDynamoDBValue v) obj) m [])
  | AV_SS l => JArr (map JStr l)
  | AV_NS l => JArr (map Number l)
  | AV_BS l => JArr (map JStr l)
  end.

Definition convertDynamoDBRecord (dynamoDBImage : Image) : Obj :=
  fold_left (fun converted '(key, value) =>
               Js.set key (convertDynamoDBValue value) converted)
            dynamoDBImage [].

End Conversion.

(** ** The world the services run in *)

(** A call to a provider client. *)
Inductive ProviderCall : Type :=
| SendEmailCommand (ToAddress Subject : JsVal) (Html : option JsVal) (Text : JsVal)
| PublishCommand (PhoneNumber Message : JsVal).

(** A counter published by the metrics service. *)
Record Metric : Type := mkMetric {
  MetricName : string;
  Dimensions : list (string * string)
}.

Record World : Type := mkWorld {
  table : gmap string Obj;     (* the outbox table, keyed by id *)
  now : Z;                     (* clock, milliseconds *)
  provider : nat -> ProviderCall -> Result JsVal;
                               (* reply of SES/SNS to the k-th call:
                                  its MessageId, or the error it throws *)
  sent : list ProviderCall;    (* provider calls made, oldest first *)
  randoms : nat -> Q;          (* the k-th draw of Math.random() *)
  draws : nat;                 (* draws made *)
  uuids : nat -> string;       (* the k-th identifier from uuidv4() *)
  issued : nat;                (* identifiers issued *)
  metrics : list Metric        (* counters published, oldest first *)
}.

Definition with_table (t : gmap string Obj) (w : World) : World :=
  mkWorld t (now w) (provider w) (sent w) (randoms w) (draws w)
          (uuids w) (issued w) (metrics w).

Definition with_now (n : Z) (w : World) : World :=
  mkWorld (table w) n (provider w) (sent w) (randoms w) (draws w)
          (uuids w) (issued w) (metrics w).

Definition with_sent (calls : list ProviderCall) (w : World) : World :=
  mkWorld (table w) (now w) (provider w) calls (randoms w) (draws w)
          (uuids w) (issued w) (metrics w).

Definition with_draws (n : nat) (w : World) : World :=
  mkWorld (table w) (now w) (provider w) (sent w) (randoms w) n
          (uuids w) (issued w) (metrics w).

Definition with_issued (n : nat) (w : World) : World :=
  mkWorld (table w) (now w) (provider w) (sent w) (randoms w) (draws w)
          (uuids w) n (metrics w).

Definition with_metrics (ms : list Metric) (w : World) : World :=
  mkWorld (table w) (now w) (provider w) (sent w) (randoms w) (draws w)
          (uuids w) (issued w) ms.

#[global] Instance Timers_World : RetryHelper.Timers World := {
  RetryHelper.random := fun w => (randoms w (draws w), with_draws (S (draws w)) w);
  RetryHelper.sleep := fun delay w => with_now (now w + Z.max 0 (Qceiling delay)) w
}.

(** Sequencing of asynchronous code ([await]) and [try]/[catch]. *)
Definition ret {S A : Type} (a : A) : Async S A := fun s => (Ok a, s).

Definition throw {S A : Type} (e : JsError) : Async S A := fun s => (Throw e, s).

Definition bind {S A B : Type} (c : Async S A) (k : A -> Async S B) : Async S B :=
  fun s => match c s with
           | (Ok a, s1) => k a s1
           | (Throw e, s1) => (Throw e, s1)
           end.

Definition try_catch {S A : Type} (body : Async S A) (handler : JsError -> Async S A)
  : Async S A :=
  fun s => match body s with
           | (Ok a, s1) => (Ok a, s1)
           | (Throw e, s1) => handler e s1
           end.

(** A synchronous step that may throw. *)
Definition lift {S A : Type} (r : Result A) : Async S A := fun s => (r, s).

Declare Scope async_scope.
Delimit Scope async_scope with async.
Notation "x <- c ;; k" := (bind c (fun x => k))
  (at level 100, c at next level, right associativity) : async_scope.
Notation "c ;;; k" := (bind c (fun _ => k))
  (at level 100, right associativity) : async_scope.
Open Scope async_scope.

(** ** The document client (DynamoDB) *)

Module DynamoDB.

(** The error of a request the service rejects: an instance of the
    client's [DynamoDBServiceException], named [ValidationException]. *)
Definition ValidationException (msg : string) : JsError :=
  {| name := "ValidationException"; ctor := "DynamoDBServiceException"; message := msg |}.

(** Right-hand side of a [SET] action: a value, or [attribute + value],
    the attribute being written in the expression as it is. *)
Inductive Operand : Type :=
| Value (v : JsVal)
| Plus (attribute : string) (v : JsVal).

(** Left-hand side of a [SET] action: the attribute written in the
    expression as it is, or through a [#name] placeholder of
    [ExpressionAttributeNames]. *)
Inductive Path : Type :=
| Direct (attribute : string)
| Placeholder (attribute : string).

Definition attribute_of (path : Path) : string :=
  match path with
  | Direct attribute => attribute
  | Placeholder attribute => attribute
  end.

(** An [UpdateCommand]: the key and the [SET] actions of its update
    expression, values resolved.  The commands built by the services
    carry no condition expression. *)
Record UpdateCommand : Type := {
  Key : JsVal;
  SET : list (Path * Operand)
}.

(** Reserved words, compared without regard to case: an excerpt of
    the 573 words of the service, enough for the names the services
    write in an expression as they are, of which [result] is reserved
    and [updatedAt], [retryCount], [createdAt], [scheduledAt] and
    [notificationId] are not. *)
Definition reservedWords : list string :=
  [ "error"; "result"; "status"; "ttl"; "type" ].

Definition lower (c : ascii) : ascii :=
  let n := nat_of_ascii c in
  if (65 <=? n)%nat && (n <=? 90)%nat then ascii_of_nat (n + 32) else c.

Fixpoint lowercase (s : string) : string :=
  match s with
  | EmptyString => EmptyString
  | String c rest => String (lower c) (lowercase rest)
  end.

Definition reserved (attribute : string) : bool :=
  existsb (String.eqb (lowercase attribute)) reservedWords.

(** The attribute names an expression contains as they are. *)
Definition names (actions : list (Path * Operand)) : list string :=
  flat_map (fun '(path, operand) =>
              match path with Direct attribute => [attribute] | Placeholder _ => [] end
              ++ match operand with Plus attribute _ => [attribute] | Value _ => [] end)
           actions.

(** Operands are evaluated against the item as it was before the
    update; adding to a missing or non-numeric attribute is rejected. *)
Definition eval (item : Obj) (operand : Operand) : option JsVal :=
  match operand with
  | Value v => Some v
  | Plus attribute v =>
      match Js.get attribute item, v with
      | JNum n, JNum i => Some (JNum (n + i))
      | _, _ => None
      end
  end.

Fixpoint assignments (item : Obj) (actions : list (Path * Operand))
  : option (list (string * JsVal)) :=
  match actions with
  | [] => Some []
  | (path, operand) :: rest =>
      match eval item operand, assignments item rest with
      | Some v, Some vs => Some ((attribute_of path, v) :: vs)
      | _, _ => None
      end
  end.

Definition assign (item : Obj) (values : list (string * JsVal)) : Obj :=
  fold_left (fun o '(attribute, v) => Js.set attribute v o) values item.

(** [UpdateItem]: an expression that contains a reserved word as it
    is, is rejected before anything is read; otherwise the item under
    the key is edited, or created from the key alone when the table
    has none.  Keys are non-empty strings. *)
Definition update (cmd : UpdateCommand) : Async World unit := fun w =>
  match find reserved (names (SET cmd)) with
  | Some word =>
      (Throw (ValidationException
                ("Invalid UpdateExpression: Attribute name is a reserved keyword; reserved keyword: "
                 +:+ word)), w)
  | None =>
      match Key cmd with
      | JStr id =>
          let item := default [("id", JStr id)] (table w !! id) in
          match assignments item (SET cmd) with
          | Some values =>
              (Ok tt, with_table (<[id := assign item values]> (table w)) w)
          | None =>
              (Throw (ValidationException
                        "The provided expression refers to an attribute that does not exist in the item"), w)
          end
      | _ => (Throw (ValidationException "The provided key element does not match the schema"), w)
      end
  end.

(** [GetItem]: [result.Item]. *)
Definition get (key : JsVal) : Async World (option Obj) := fun w =>
  match key with
  | JStr id => (Ok (table w !! id), w)
  | _ => (Throw (ValidationException "The provided key element does not match the schema"), w)
  end.

(** [PutItem]: the item replaces whatever the key held. *)
Definition put (item : Obj) : Async World unit := fun w =>
  match Js.get "id" item with
  | JStr id => (Ok tt, with_table (<[id := item]> (table w)) w)
  | _ => (Throw (ValidationException "One of the required keys was not given a value"), w)
  end.

End DynamoDB.

(** ** Shared effects *)

(** [new Date()] *)
Definition clock : Async World Z := fun w => (Ok (now w), w).

(** [uuidv4()] *)
Definition uuidv4 : Async World string := fun w =>
  (Ok (uuids w (issued w)), with_issued (S (issued w)) w).

(** [client.send(command)] on the mail or text-message client; the value
    resolved is the reply's [MessageId]. *)
Definition provider_send (command : ProviderCall) : Async World JsVal := fun w =>
  (provider w (length (sent w)) command, with_sent (sent w ++ [command]) w).

(** [v.k] of a value known to be an object. *)
Definition member (k : string) (v : JsVal) : JsVal :=
  match v with JObj fields => Js.get k fields | _ => JUndefined end.

(** ** Metrics service (metrics-service.js) *)

Module MetricsService.
Section Service.
Context `{JsBuiltins}.

(** [incrementCounter]: the counter is handed to CloudWatch; a failure
    to publish is logged and swallowed, so the call never throws. *)
Definition incrementCounter (metricName : string) (dimensions : Obj)
  : Async World unit := fun w =>
  (Ok tt,
   with_metrics
     (metrics w ++ [mkMetric metricName
                      (map (fun '(k, v) => (k, ToString v)) dimensions)]) w).
End Service.
End MetricsService.

(** ** Notification service (notification-service.js) *)

Module NotificationService.
Section Service.
Context `{JsBuiltins}.

(** [maskSensitiveData] on an arbitrary value: falsy values are
    returned as they are, strings are masked, and any other value
    lacks the string methods the function calls. *)
Definition maskSensitiveData (data : JsVal) : Result JsVal :=
  if negb (Js.truthy data) then Ok data
  else match data with
       | JStr s => Ok (JStr (maskSensitiveData s))
       | JArr items =>
           if existsb (Js.is_string "@") items
           then Throw (TypeError "data.split is not a function")
           else Throw (TypeError "data.startsWith is not a function")
       | _ => Throw (TypeError "data.includes is not a function")
       end.

Definition updateOutboxEntryStatus (outboxId status error result : JsVal)
  : Async World unit :=
  updatedAt <- clock;;
  let updateParams :=
    [ (DynamoDB.Placeholder "status", DynamoDB.Value status);
      (DynamoDB.Direct "updatedAt", DynamoDB.Value (JStr (toISOString updatedAt))) ] in
  let updateParams :=
    if Js.truthy error
    then updateParams
         ++ [ (DynamoDB.Placeholder "error", DynamoDB.Value error);
              (DynamoDB.Direct "retryCount", DynamoDB.Plus "retryCount" (JNum 1)) ]
    else updateParams in
  let updateParams :=
    if Js.truthy result
    then updateParams ++ [ (DynamoDB.Direct "result", DynamoDB.Value result) ]
    else updateParams in
  try_catch
    (DynamoDB.update {| DynamoDB.Key := outboxId; DynamoDB.SET := updateParams |})
    (fun updateError => throw updateError).

Definition sendEmail (recipient content : JsVal) : Async World JsVal :=
  try_catch
    (subject <- lift (Js.prop "subject" content);;
     html <- lift (Js.prop "html" content);;
     text <- lift (Js.prop "text" content);;
     MessageId <- provider_send
       (SendEmailCommand recipient subject
          (if Js.truthy html then Some html else None) text);;
     lift (maskSensitiveData recipient);;;
     ret (JObj [ ("messageId", MessageId);
                 ("status", JStr "sent");
                 ("provider", JStr "SES") ]))
    (fun error =>
       lift (maskSensitiveData recipient);;;
       throw error).

Definition sendSMS (recipient content : JsVal) : Async World JsVal :=
  try_catch
    (text <- lift (Js.prop "text" content);;
     MessageId <- provider_send (PublishCommand recipient text);;
     lift (maskSensitiveData recipient);;;
     ret (JObj [ ("messageId", MessageId);
                 ("status", JStr "sent");
                 ("provider", JStr "SNS") ]))
    (fun error =>
       lift (maskSensitiveData recipient);;;
       throw error).

Definition processOutboxEntry (outboxEntry : Obj) : Async World JsVal :=
  let type := Js.get "type" outboxEntry in
  let priority := Js.get "priority" outboxEntry in
  let scheduledAt := Js.get "scheduledAt" outboxEntry in
  try_catch
    (lift (maskSensitiveData (Js.get "recipient" outboxEntry));;;
     today <- clock;;
     if Js.truthy scheduledAt && Js.date_after scheduledAt today
     then ret (JObj [ ("status", JStr "scheduled") ])
     else
       result <-
         (if Js.is_string "email" type
          then sendEmail (Js.get "recipient" outboxEntry) (Js.get "content" outboxEntry)
          else if Js.is_string "sms" type
          then sendSMS (Js.get "recipient" outboxEntry) (Js.get "content" outboxEntry)
          else throw (newError ("Unsupported notification type: " +:+ ToString type)));;
       updateOutboxEntryStatus (Js.get "id" outboxEntry) (JStr "sent") JNull result;;;
       MetricsService.incrementCounter "notifications.sent"
         [ ("type", type); ("priority", priority) ];;;
       ret (JObj [ ("status", JStr "sent");
                   ("messageId", member "messageId" result) ]))
    (fun error =>
       updateOutboxEntryStatus (Js.get "id" outboxEntry) (JStr "failed")
         (JStr (message error)) JNull;;;
       MetricsService.incrementCounter "notifications.failed"
         [ ("type", type); ("priority", priority);
           ("errorType", JStr (ctor error)) ];;;
       throw error).

Definition storeInOutbox (notification : Obj) (renderedContent : JsVal)
  : Async World Obj :=
  created <- clock;;
  let ttl := created / 1000 + 7 * 24 * 60 * 60 in
  id <- uuidv4;;
  let outboxEntry : Obj :=
    [ ("id", JStr id);
      ("notificationId", Js.get "id" notification);
      ("type", Js.get "type" notification);
      ("recipient", Js.get "recipient" notification);
      ("content", renderedContent);
      ("priority", Js.get "priority" notification);
      ("scheduledAt", Js.get "scheduledAt" notification);
      ("status", JStr "pending");
      ("retryCount", JNum 0);
      ("maxRetries", JNum 3);
      ("ttl", JNum ttl);
      ("createdAt", JStr (toISOString created));
      ("updatedAt", JStr (toISOString created)) ] in
  DynamoDB.put outboxEntry;;;
  ret outboxEntry.

(** [retryFailedNotifications]: the module does not import
    [ScanCommand], so constructing the scan command throws a
    ReferenceError before any entry is read; the function logs it
    and rethrows. *)
Definition retryFailedNotifications (maxRetries : JsVal) : Async World JsVal :=
  try_catch
    (throw {| name := "ReferenceError"; ctor := "ReferenceError";
              message := "ScanCommand is not defined" |})
    (fun error => throw error).

End Service.
End NotificationService.

(** ** Outbox service (outbox-service.js) *)

Module OutboxService.
Section Service.
Context `{JsBuiltins}.

Definition getOutboxEntry (outboxId : JsVal) : Async World Obj :=
  try_catch
    (Item <- DynamoDB.get outboxId;;
     match Item with
     | Some item => ret item
     | None => throw (newError "Outbox entry not found")
     end)
    (fun error => throw error).

Definition updateOutboxEntryStatus (outboxId status error : JsVal)
  : Async World unit :=
  updatedAt <- clock;;
  let updateParams :=
    [ (DynamoDB.Placeholder "status", DynamoDB.Value status);
      (DynamoDB.Direct "updatedAt", DynamoDB.Value (JStr (toISOString updatedAt))) ] in
  let updateParams :=
    if Js.truthy error
    then updateParams
         ++ [ (DynamoDB.Placeholder "error", DynamoDB.Value error);
              (DynamoDB.Direct "retryCount", DynamoDB.Plus "retryCount" (JNum 1)) ]
    else updateParams in
  try_catch
    (DynamoDB.update {| DynamoDB.Key := outboxId; DynamoDB.SET := updateParams |})
    (fun updateError => throw updateError).

Definition requeueFailedNotification (outboxId : JsVal) : Async World JsVal :=
  try_catch
    (entry <- getOutboxEntry outboxId;;
     if negb (Js.is_string "failed" (Js.get "status" entry))
     then throw (newError "Only failed notifications can be requeued")
     else if Js.ge (Js.get "retryCount" entry) (Js.get "maxRetries" entry)
     then throw (newError "Maximum retry attempts exceeded")
     else
       updateOutboxEntryStatus outboxId (JStr "pending") JNull;;;
       ret (JObj [ ("success", JBool true);
                   ("retryCount", Js.get "retryCount" entry) ]))
    (fun error => throw error).

End Service.
End OutboxService.

(** ** Stream processor (stream-processor.js) *)

Record StreamData : Type := { NewImage : option Image }.

Record StreamRecord : Type := {
  eventName : string;
  dynamodb : option StreamData
}.

Module StreamProcessor.
Section Handler.
Context `{JsBuiltins}.

Definition processRecord (record : StreamRecord) : Async World unit :=
  let NewImage :=
    match dynamodb record with
    | Some data => NewImage data
    | None => None
    end in
  match String.eqb (eventName record) "INSERT", NewImage with
  | true, Some image =>
      let outboxEntry := convertDynamoDBRecord image in
      if negb (Js.is_string "pending" (Js.get "status" outboxEntry))
      then ret tt
      else
        today <- clock;;
        if Js.truthy (Js.get "scheduledAt" outboxEntry)
           && Js.date_after (Js.get "scheduledAt" outboxEntry) today
        then ret tt
        else
          RetryHelper.retryWithBackoff
            (NotificationService.processOutboxEntry outboxEntry;;; ret tt)
  | _, _ => ret tt
  end.

End Handler.
End StreamProcessor.

(** ** Dead-letter processor ([DLQProcessor]) *)

(** The parsed body of a queue message: the image under
    [message.record.dynamodb.NewImage] when that path exists, and the
    message's own properties. *)
Record DlqMessage : Type := {
  recordImage : option Image;
  properties : Obj
}.

(** A queue record; [body] is [JSON.parse(record.body)], or the error
    thrown by parsing or by reading the message. *)
Record SqsRecord : Type := {
  messageId : string;
  body : Result DlqMessage
}.

Record DlqOutcome : Type := {
  status : string;
  retryable : option bool
}.

Module DLQProcessor.
Section Handler.
Context `{JsBuiltins}.

Definition markAsPermanentlyFailed (outboxEntry : Obj) : Async World unit :=
  try_catch
    (OutboxService.updateOutboxEntryStatus (Js.get "id" outboxEntry)
       (JStr "permanently_failed") (JStr "Exceeded maximum retry attempts");;;
     MetricsService.incrementCounter "notifications.permanently_failed"
       [ ("type", Js.get "type" outboxEntry);
         ("priority", Js.or (Js.get "priority" outboxEntry) (JStr "normal")) ])
    (fun error => throw error).

Definition retryNotification (outboxEntry : Obj) : Async World unit :=
  try_catch
    (RetryHelper.exponentialBackoff
       (NotificationService.processOutboxEntry outboxEntry;;; ret tt)
       2 2000 10000 2 true)
    (fun error =>
       OutboxService.updateOutboxEntryStatus (Js.get "id" outboxEntry)
         (JStr "failed") (JStr ("DLQ retry failed: " +:+ message error));;;
       throw error).

(** The [if]/[else] chain of [processMessage] that binds
    [outboxEntry] from one of the three message formats. *)
Definition extractOutboxEntry (message : DlqMessage) : Async World Obj :=
  match recordImage message with
  | Some image => ret (convertDynamoDBRecord image)
  | None =>
      if Js.truthy (Js.get "outboxId" (properties message))
      then OutboxService.getOutboxEntry (Js.get "outboxId" (properties message))
      else if Js.truthy (Js.get "id" (properties message))
      then ret (properties message)
      else throw (newError "Unable to extract outbox entry from DLQ message")
  end.

Definition processMessage (record : SqsRecord) : Async World DlqOutcome :=
  try_catch
    (message <- lift (body record);;
     outboxEntry <- extractOutboxEntry message;;
     if Js.ge (Js.get "retryCount" outboxEntry)
              (Js.or (Js.get "maxRetries" outboxEntry) (JNum 3))
     then
       markAsPermanentlyFailed outboxEntry;;;
       ret {| status := "permanently_failed"; retryable := None |}
     else
       retryNotification outboxEntry;;;
       ret {| status := "success"; retryable := None |})
    (fun error =>
       if RetryHelper.isRetryableError error
       then ret {| status := "failed"; retryable := Some true |}
       else ret {| status := "failed"; retryable := Some false |}).

End Handler.
End DLQProcessor.

(** ** Operations on the outbox

    The operations through which the services change the outbox table. *)

Inductive Operation : Type :=
| Enqueue (notification : Obj) (renderedContent : JsVal)
| Dispatch (record : StreamRecord)
| Escalate (record : SqsRecord)
| Requeue (outboxId : JsVal)
| RetryFailed (maxRetries : JsVal)
| UpdateStatus (outboxId status error result : JsVal).

Section Operations.
Context `{JsBuiltins}.

Definition perform (op : Operation) (w : World) : World :=
  match op with
  | Enqueue notification renderedContent =>
      snd (NotificationService.storeInOutbox notification renderedContent w)
  | Dispatch record => snd (StreamProcessor.processRecord record w)
  | Escalate record => snd (DLQProcessor.processMessage record w)
  | Requeue outboxId => snd (OutboxService.requeueFailedNotification outboxId w)
  | RetryFailed maxRetries =>
      snd (NotificationService.retryFailedNotifications maxRetries w)
  | UpdateStatus outboxId status error result =>
      snd (NotificationService.updateOutboxEntryStatus outboxId status error result w)
  end.

Definition performAll (ops : list Operation) (w : World) : World :=
  fold_left (fun w op => perform op w) ops w.

End Operations.

(** * Specification vocabulary

    The predicates in which the properties below are stated. *)

(** ** Runs of the retry engine *)

Module RetrySpec.
Section Traced.
Context {S A : Type} `{RetryHelper.Timers S}.
Variables (baseDelay maxDelay factor : Q) (jitter : bool).

(** Every draw of [Math.random()] lies in [0, 1). *)
Definition random_in_range : Prop :=
  forall s : S,
    (0 <= fst (RetryHelper.random s))%Q /\ (fst (RetryHelper.random s) < 1)%Q.

(** The delay slept after the failure of attempt [n]: the capped
    exponential delay, scaled by a random draw when jitter is on. *)
Definition delay_after (n : nat) (q : Q) : Prop :=
  if jitter
  then exists s0 : S,
         q = RetryHelper.withJitter
               (RetryHelper.backoffDelay baseDelay maxDelay factor n)
               (fst (RetryHelper.random s0))
  else q = RetryHelper.backoffDelay baseDelay maxDelay factor n.

(** What one run of the loop adds to the trace: the outcomes of the
    invocations ([earlier] failures, then the returned result) and one
    delay per failure that was followed by another attempt. *)
Definition run_shape (remaining attempt : nat) (t t' : RetryHelper.Trace A)
    (r : Result A) : Prop :=
  exists (earlier : list (Result A)) (delays : list Q),
    RetryHelper.outcomes t' = RetryHelper.outcomes t ++ earlier ++ [r]
    /\ RetryHelper.sleeps t' = RetryHelper.sleeps t ++ delays
    /\ Forall (fun o => is_throw o = true) earlier
    /\ (length earlier <= remaining)%nat
    /\ (is_throw r = true -> length earlier = remaining)
    /\ length delays = length earlier
    /\ (forall (i : nat) (q : Q),
          delays !! i = Some q -> delay_after (attempt + i) q).

(** How the delays of a run come from its random draws: with jitter
    one draw is made per sleep and the delay slept is computed from
    that draw; without jitter no draw is made. *)
Definition draw_shape (attempt : nat) (t t' : RetryHelper.Trace A) : Prop :=
  exists (delays rs : list Q),
    RetryHelper.sleeps t' = RetryHelper.sleeps t ++ delays
    /\ RetryHelper.drawn t' = RetryHelper.drawn t ++ rs
    /\ if jitter
       then length rs = length delays
            /\ forall (i : nat) (q r : Q),
                 delays !! i = Some q -> rs !! i = Some r ->
                 q = RetryHelper.withJitter
                       (RetryHelper.backoffDelay baseDelay maxDelay factor (attempt + i)) r
       else rs = []
            /\ forall (i : nat) (q : Q),
                 delays !! i = Some q ->
                 q = RetryHelper.backoffDelay baseDelay maxDelay factor (attempt + i).

End Traced.
End RetrySpec.

(** ** Status updates *)

(** The attributes a status update may write. *)
Definition written : list string :=
  ["status"; "updatedAt"; "error"; "retryCount"; "result"].

(** The rejection of an update expression that names [result]. *)
Definition reservedResult : JsError :=
  DynamoDB.ValidationException
    "Invalid UpdateExpression: Attribute name is a reserved keyword; reserved keyword: result".

(** ** Dispatch *)

Section DispatchSpec.
Context `{JsBuiltins}.

(** [record.dynamodb.NewImage], when both are present. *)
Definition imageOf (record : StreamRecord) : option Image :=
  match dynamodb record with
  | Some data => NewImage data
  | None => None
  end.

(** [scheduledAt] is absent (or otherwise falsy). *)
Definition unscheduled (entry : Obj) : Prop :=
  Js.truthy (Js.get "scheduledAt" entry) = false.

(** [scheduledAt] is not after the clock: a date it denotes is in the
    past or is the present instant. *)
Definition due (entry : Obj) (today : Z) : Prop :=
  Js.date_after (Js.get "scheduledAt" entry) today = false
  /\ forall t : Z, DateTime (Js.get "scheduledAt" entry) = Some t -> t <= today.

(** [scheduledAt] denotes a date after the clock. *)
Definition scheduled_later (entry : Obj) (today : Z) : Prop :=
  Js.truthy (Js.get "scheduledAt" entry) = true
  /\ exists t : Z, DateTime (Js.get "scheduledAt" entry) = Some t /\ today < t.

(** The record is an insert whose entry is pending and not held back
    by its schedule. *)
Definition eligible (record : StreamRecord) (w : World) (image : Image) : Prop :=
  eventName record = "INSERT"
  /\ imageOf record = Some image
  /\ Js.get "status" (convertDynamoDBRecord image) = JStr "pending"
  /\ (unscheduled (convertDynamoDBRecord image)
      \/ due (convertDynamoDBRecord image) (now w)).

End DispatchSpec.

(** ** The retry counter *)

Section CounterSpec.
Context `{JsBuiltins}.

(** A stored [retryCount] is missing or a non-negative integer. *)
Definition counts_ok (t : gmap string Obj) : Prop :=
  forall (id : string) (item : Obj),
    t !! id = Some item ->
    Js.get "retryCount" item = JUndefined
    \/ exists n : Z, 0 <= n /\ Js.get "retryCount" item = JNum n.

(** Every entry of [t] is still in [t'], with the same [maxRetries]
    and rendered content and a [retryCount] that has not gone down. *)
Definition grows (t t' : gmap string Obj) : Prop :=
  forall (id : string) (item : Obj),
    t !! id = Some item ->
    exists item' : Obj,
      t' !! id = Some item'
      /\ Js.get "maxRetries" item' = Js.get "maxRetries" item
      /\ Js.get "content" item' = Js.get "content" item
      /\ (forall n : Z, Js.get "retryCount" item = JNum n ->
            exists n' : Z, n <= n' /\ Js.get "retryCount" item' = JNum n').

Definition advances (w w' : World) : Prop :=
  grows (table w) (table w')
  /\ (counts_ok (table w) -> counts_ok (table w')).

Definition count_ok (item : Obj) : Prop :=
  Js.get "retryCount" item = JUndefined
  \/ exists n : Z, 0 <= n /\ Js.get "retryCount" item = JNum n.

(** An asynchronous function is safe when every run advances the world. *)
Definition safe {A : Type} (c : Async World A) : Prop :=
  forall w : World, advances w (snd (c w)).

(** [uuidv4()] issues an identifier no entry uses yet. *)
Definition fresh_id (op : Operation) (w : World) : Prop :=
  match op with
  | Enqueue _ _ => table w !! uuids w (issued w) = None
  | _ => True
  end.

End CounterSpec.

(** ** A concrete runtime

    Closed examples need builtins that compute.  In this runtime a date
    is written as its count of milliseconds, in decimal, and [Number]
    reads decimal integers. *)

Module Decimal.

Definition digit (c : ascii) : option Z :=
  if is_digit c then Some (Z.of_nat (nat_of_ascii c) - 48) else None.

Fixpoint digits (acc : Z) (s : string) : option Z :=
  match s with
  | EmptyString => Some acc
  | String c rest =>
      match digit c with
      | Some d => digits (10 * acc + d) rest
      | None => None
      end
  end.

Definition parse (s : string) : option Z :=
  match s with
  | EmptyString => None
  | String "-" (String c rest) => Z.opp <$> digits 0 (String c rest)
  | _ => digits 0 s
  end.

End Decimal.

Definition decimalBuiltins : JsBuiltins := {|
  Number := fun s => match Decimal.parse s with Some n => JNum n | None => JNaN end;
  DateTime := fun v =>
    match v with
    | JNum n => Some n
    | JStr s => Decimal.parse s
    | _ => None
    end;
  toISOString := fun ms => pretty ms;
  ToString := fun v =>
    match v with
    | JStr s => s
    | JNum n => pretty n
    | JBool true => "true"
    | JBool false => "false"
    | JNull => "null"
    | JUndefined => "undefined"
    | JNaN => "NaN"
    | JArr _ => EmptyString
    | JObj _ => "[object Object]"
    end
|}.

(** An empty table at time [clock0]; the provider answers from [replies]
    and every random draw is one half. *)
Definition freshWorld (clock0 : Z) (replies : nat -> ProviderCall -> Result JsVal) : World :=
  {| table := ∅; now := clock0; provider := replies; sent := [];
     randoms := fun _ => (1 # 2)%Q; draws := 0;
     uuids := fun k => "entry-" +:+ pretty k; issued := 0; metrics := [] |}.

(** *** A worked example: one notification, a provider that throttles *)

Definition accepts : nat -> ProviderCall -> Result JsVal :=
  fun k _ => Ok (JStr ("msg-" +:+ pretty k)).

Definition throttled : nat -> ProviderCall -> Result JsVal :=
  fun _ _ => Throw {| name := "ThrottlingException"; ctor := "ThrottlingException";
                      message := "Rate exceeded" |}.

Definition welcome : Obj :=
  [ ("id", JStr "n-1"); ("type", JStr "email"); ("recipient", JStr "a@b.com");
    ("priority", JStr "normal"); ("scheduledAt", JNull) ].

Definition welcomeContent : JsVal :=
  JObj [ ("subject", JStr "S"); ("text", JStr "T") ].

(** The stream image of the entry [storeInOutbox] writes for [welcome]. *)
Definition welcomeImage : Image :=
  [ ("id", AV_S "entry-0"); ("notificationId", AV_S "n-1");
    ("type", AV_S "email"); ("recipient", AV_S "a@b.com");
    ("content", AV_M [ ("subject", AV_S "S"); ("text", AV_S "T") ]);
    ("priority", AV_S "normal"); ("scheduledAt", AV_NULL true);
    ("status", AV_S "pending"); ("retryCount", AV_N "0");
    ("maxRetries", AV_N "3"); ("ttl", AV_N "604801");
    ("createdAt", AV_S "1000"); ("updatedAt", AV_S "1000") ].

Definition welcomeInsert : StreamRecord :=
  {| eventName := "INSERT"; dynamodb := Some {| NewImage := Some welcomeImage |} |}.

(** ** Scenarios *)

(** An operation that rejects every call with a validation error. *)
Definition invalidRecipient : JsError :=
  {| name := "ValidationError"; ctor := "ValidationError";
     message := "Invalid recipient address" |}.

Definition alwaysInvalid : Async Z unit := fun now => (Throw invalidRecipient, now).

(** The world after [welcome] is enqueued at time 1000 and its insert
    record is dispatched while the provider throttles every call. *)
Definition throttledDispatch : World :=
  @performAll decimalBuiltins [Enqueue welcome welcomeContent; Dispatch welcomeInsert]
             (freshWorld 1000 throttled).

(** The entry of [throttledDispatch], as stored. *)
Definition failedEntry (retryCount : Z) : Obj :=
  [ ("id", JStr "entry-0"); ("notificationId", JStr "n-1");
    ("type", JStr "email"); ("recipient", JStr "a@b.com");
    ("content", welcomeContent); ("priority", JStr "normal");
    ("scheduledAt", JNull); ("status", JStr "failed");
    ("retryCount", JNum retryCount); ("maxRetries", JNum 3);
    ("ttl", JNum 604801); ("createdAt", JStr "1000");
    ("updatedAt", JStr "2000"); ("error", JStr "Rate exceeded") ].

Definition worldWith (entry : Obj) : World :=
  with_table {[ "entry-0" := entry ]} (freshWorld 5000 accepts).

(** Scenario 3: [retryCount = maxRetries = 3], status [failed]. *)
Definition exhaustedMessage : SqsRecord :=
  {| messageId := "m-1";
     body := Ok {| recordImage := None;
                   properties := [("outboxId", JStr "entry-0")] |} |}.

(** Scenario 4: [scheduledAt] one hour after the clock. *)
Definition laterImage : Image :=
  [ ("id", AV_S "entry-0"); ("type", AV_S "email"); ("recipient", AV_S "a@b.com");
    ("status", AV_S "pending"); ("scheduledAt", AV_S "3605000") ].

Definition laterInsert : StreamRecord :=
  {| eventName := "INSERT"; dynamodb := Some {| NewImage := Some laterImage |} |}.

(** * Further code and vocabulary *)

(** ** Retry helper: measures of a run *)

(** The total time asked of [sleep]. *)
Definition totalDelay (delays : list Q) : Q := fold_right Qplus 0%Q delays.

(** [code] occurs in [s]. *)
Definition occurs (code s : string) : Prop :=
  exists pre post : string, s = pre +:+ code +:+ post.

(** [error.name || error.constructor.name] *)
Definition errorName (error : JsError) : string :=
  if JsString.truthy (name error) then name error else ctor error.

(** ** Images as object literals *)

(** The names every object literal inherits from [Object.prototype]:
    reading one of them from an object that has no such property of its
    own gives the inherited member, not [undefined]. *)
Definition inheritedNames : list string :=
  [ "constructor"; "__proto__"; "hasOwnProperty"; "isPrototypeOf";
    "propertyIsEnumerable"; "toLocaleString"; "toString"; "valueOf";
    "__defineGetter__"; "__defineSetter__"; "__lookupGetter__"; "__lookupSetter__" ].

(** No attribute of the value, at any depth, is named [__proto__]: the
    assignment [obj['__proto__'] = v] sets the prototype of [obj] and
    stores no property, which objects given by their own properties do
    not describe. *)
Fixpoint proto_free (value : AttributeValue) : bool :=
  match value with
  | AV_L l => forallb proto_free l
  | AV_M m =>
      forallb (fun '(k, v) => negb (String.eqb k "__proto__") && proto_free v) m
  | _ => true
  end.

(** ** Effects of asynchronous functions on the world *)

(** Every run of [c] makes at most [n] provider calls, appended to the
    calls already made. *)
Definition sends_le {A : Type} (n : nat) (c : Async World A) : Prop :=
  forall w : World,
    exists calls : list ProviderCall,
      sent (snd (c w)) = sent w ++ calls /\ (length calls <= n)%nat.

(** Every run of [c] takes the world to one related by [R]. *)
Definition respects {A : Type} (R : World -> World -> Prop) (c : Async World A) : Prop :=
  forall w : World, R w (snd (c w)).

(** Entries stored under any key other than [key] are the same. *)
Definition same_elsewhere (key : JsVal) (w w' : World) : Prop :=
  forall id : string, key <> JStr id -> table w' !! id = table w !! id.

(** Every stored item carries its key in its [id] attribute. *)
Definition keyed (t : gmap string Obj) : Prop :=
  forall (id : string) (item : Obj), t !! id = Some item -> Js.get "id" item = JStr id.

Definition keeps_keyed (w w' : World) : Prop :=
  keyed (table w) -> keyed (table w').

(** A relation between worlds that only looks at the table and is
    closed under sequencing. *)
Class TableOrder (R : World -> World -> Prop) : Prop := {
  order_refl : forall w, R w w;
  order_trans : forall w1 w2 w3, R w1 w2 -> R w2 w3 -> R w1 w3;
  order_table : forall w w', table w' = table w -> R w w'
}.

(** ** The provider command of an entry *)

(** [content.k] for a content that is neither [undefined] nor [null]. *)
Definition contentPart (k : string) (content : JsVal) : JsVal :=
  match content with
  | JObj fields => Js.get k fields
  | _ => JUndefined
  end.

(** The content can be read: it is neither [undefined] nor [null]. *)
Definition readable (content : JsVal) : bool :=
  match content with
  | JUndefined | JNull => false
  | _ => true
  end.

(** The command [sendEmail] or [sendSMS] hands to its client for an
    entry of that channel whose content can be read. *)
Definition providerCommand (outboxEntry : Obj) : option ProviderCall :=
  let recipient := Js.get "recipient" outboxEntry in
  let content := Js.get "content" outboxEntry in
  if negb (readable content) then None
  else if Js.is_string "email" (Js.get "type" outboxEntry)
  then Some (SendEmailCommand recipient (contentPart "subject" content)
               (if Js.truthy (contentPart "html" content)
                then Some (contentPart "html" content) else None)
               (contentPart "text" content))
  else if Js.is_string "sms" (Js.get "type" outboxEntry)
  then Some (PublishCommand recipient (contentPart "text" content))
  else None.

(** The name of the provider behind a command. *)
Definition providerName (command : ProviderCall) : string :=
  match command with
  | SendEmailCommand _ _ _ _ => "SES"
  | PublishCommand _ _ => "SNS"
  end.

(** The receipt [sendEmail] and [sendSMS] return for a message id. *)
Definition receipt (command : ProviderCall) (MessageId : JsVal) : JsVal :=
  JObj [ ("messageId", MessageId); ("status", JStr "sent");
         ("provider", JStr (providerName command)) ].

Section DeliverySpec.
Context `{JsBuiltins}.

(** The recipient can be logged: it is falsy or a string. *)
Definition loggable (recipient : JsVal) : Prop :=
  is_throw (NotificationService.maskSensitiveData recipient) = false.

(** The entry is not held back by its schedule at the time of [w]. *)
Definition ready (outboxEntry : Obj) (w : World) : Prop :=
  Js.truthy (Js.get "scheduledAt" outboxEntry)
  && Js.date_after (Js.get "scheduledAt" outboxEntry) (now w) = false.

End DeliverySpec.

(** ** Batches of metrics (metrics-service.js, [recordBatch]) *)

(** One entry of the [MetricData] of a [PutMetricDataCommand]. *)
Record MetricDatum : Type := {
  DatumName : string;
  DatumValue : Z;
  DatumUnit : string;
  DatumTimestamp : Z;
  DatumDimensions : list (string * string)
}.

(** The world of a handler: the services' world, the environment name
    the metrics service was built with, and the batches handed to
    CloudWatch, oldest first. *)
Record Cloud : Type := {
  world : World;
  environment : string;
  batches : list (list MetricDatum)
}.

(** A service call made from a handler. *)
Definition in_world {A : Type} (c : Async World A) : Async Cloud A := fun s =>
  (fst (c (world s)),
   {| world := snd (c (world s)); environment := environment s;
      batches := batches s |}).

(** An entry of the [metrics] argument of [recordBatch]. *)
Record BatchEntry : Type := {
  entryName : string;
  entryValue : Z;
  entryUnit : option string;
  entryDimensions : Obj
}.

Section Batches.
Context `{JsBuiltins}.

(** [recordBatch]: one command carries all the data; a failure to
    publish is logged and swallowed. *)
Definition recordBatch (entries : list BatchEntry) : Async Cloud unit := fun s =>
  (Ok tt,
   {| world := world s;
      environment := environment s;
      batches :=
        batches s
        ++ [map (fun metric =>
                   {| DatumName := entryName metric;
                      DatumValue := entryValue metric;
                      DatumUnit :=
                        match entryUnit metric with
                        | Some unit => if JsString.truthy unit then unit else "Count"
                        | None => "Count"
                        end;
                      DatumTimestamp := now (world s);
                      DatumDimensions :=
                        ("Environment", environment s)
                        :: map (fun '(k, v) => (k, ToString v))
                               (entryDimensions metric) |})
                entries] |}).
End Batches.

(** ** The handlers *)

Module StreamHandler.

(** An entry of [results.errors]. *)
Record ErrorEntry : Type := {
  recordEventName : string;     (* record.eventName *)
  recordDynamodb : string;      (* 'present' or 'missing' *)
  error : string                (* error.message *)
}.

Record Results : Type := {
  processed : Z;
  successful : Z;
  failed : Z;
  errors : list ErrorEntry
}.

Section Handler.
Context `{JsBuiltins}.

(** The body of the [for] loop, on the results so far. *)
Definition step (record : StreamRecord) (results : Results) : Async Cloud Results :=
  let results :=
    {| processed := processed results + 1; successful := successful results;
       failed := failed results; errors := errors results |} in
  try_catch
    (in_world (StreamProcessor.processRecord record);;;
     ret {| processed := processed results; successful := successful results + 1;
            failed := failed results; errors := errors results |})
    (fun e =>
       ret {| processed := processed results; successful := successful results;
              failed := failed results + 1;
              errors :=
                errors results
                ++ [ {| recordEventName := eventName record;
                        recordDynamodb :=
                          match dynamodb record with
                          | Some _ => "present"
                          | None => "missing"
                          end;
                        error := message e |} ] |}).

Fixpoint loop (records : list StreamRecord) (results : Results)
  : Async Cloud Results :=
  match records with
  | [] => ret results
  | record :: rest => results <- step record results;; loop rest results
  end.

Definition handler (Records : list StreamRecord) : Async Cloud Results :=
  results <-
    loop Records {| processed := 0; successful := 0; failed := 0; errors := [] |};;
  recordBatch
    [ {| entryName := "stream.records.processed"; entryValue := processed results;
         entryUnit := None; entryDimensions := [("source", JStr "outbox")] |};
      {| entryName := "stream.records.successful"; entryValue := successful results;
         entryUnit := None; entryDimensions := [("source", JStr "outbox")] |};
      {| entryName := "stream.records.failed"; entryValue := failed results;
         entryUnit := None; entryDimensions := [("source", JStr "outbox")] |} ];;;
  ret results.

End Handler.
End StreamHandler.

Module DlqHandler.

(** An entry of [results.errors]. *)
Record ErrorEntry : Type := {
  errorMessageId : string;      (* record.messageId *)
  error : string                (* error.message *)
}.

Record Results : Type := {
  processed : Z;
  successful : Z;
  failed : Z;
  permanentlyFailed : Z;
  errors : list ErrorEntry
}.

Section Handler.
Context `{JsBuiltins}.

(** The body of the [for] loop, on the results so far. *)
Definition step (record : SqsRecord) (results : Results) : Async Cloud Results :=
  let results :=
    {| processed := processed results + 1; successful := successful results;
       failed := failed results; permanentlyFailed := permanentlyFailed results;
       errors := errors results |} in
  try_catch
    (result <- in_world (DLQProcessor.processMessage record);;
     if String.eqb (status result) "success"
     then ret {| processed := processed results;
                 successful := successful results + 1;
                 failed := failed results;
                 permanentlyFailed := permanentlyFailed results;
                 errors := errors results |}
     else if String.eqb (status result) "permanently_failed"
     then ret {| processed := processed results;
                 successful := successful results;
                 failed := failed results;
                 permanentlyFailed := permanentlyFailed results + 1;
                 errors := errors results |}
     else ret {| processed := processed results;
                 successful := successful results;
                 failed := failed results + 1;
                 permanentlyFailed := permanentlyFailed results;
                 errors := errors results |})
    (fun e =>
       ret {| processed := processed results; successful := successful results;
              failed := failed results + 1;
              permanentlyFailed := permanentlyFailed results;
              errors :=
                errors results
                ++ [ {| errorMessageId := messageId record;
                        error := message e |} ] |}).

Fixpoint loop (records : list SqsRecord) (results : Results)
  : Async Cloud Results :=
  match records with
  | [] => ret results
  | record :: rest => results <- step record results;; loop rest results
  end.

Definition handler (Records : list SqsRecord) : Async Cloud Results :=
  results <-
    loop Records {| processed := 0; successful := 0; failed := 0;
                    permanentlyFailed := 0; errors := [] |};;
  recordBatch
    [ {| entryName := "dlq.messages.processed"; entryValue := processed results;
         entryUnit := None; entryDimensions := [] |};
      {| entryName := "dlq.messages.successful"; entryValue := successful results;
         entryUnit := None; entryDimensions := [] |};
      {| entryName := "dlq.messages.failed"; entryValue := failed results;
         entryUnit := None; entryDimensions := [] |};
      {| entryName := "dlq.messages.permanently_failed";
         entryValue := permanentlyFailed results;
         entryUnit := None; entryDimensions := [] |} ];;;
  ret results.

End Handler.
End DlqHandler.

(** ** Provider behaviour over a run *)

(** The provider answers its [i]-th call, when it is [command], with an
    error that has a message. *)
Definition rejects (w : World) (i : nat) (command : ProviderCall) : Prop :=
  exists e : JsError, provider w i command = Throw e /\ message e <> EmptyString.

(** The provider's reply to its [i]-th call, when it is [command], is
    an acceptance or an error that has a message. *)
Definition answers (w : World) (i : nat) (command : ProviderCall) : Prop :=
  match provider w i command with
  | Ok _ => True
  | Throw e => message e <> EmptyString
  end.

(** The error a delivery ends with: the provider's, or, when the
    provider accepted, the rejection of the update that names [result]. *)
Definition surfaced (reply : Result JsVal) : JsError :=
  match reply with
  | Ok _ => reservedResult
  | Throw e => e
  end.

(** The world after [j] deliveries of the entry stored under [id] that
    ended in failure, started in [w0] with the item [item0] and the
    counter [n]. *)
Definition after_failures (command : ProviderCall) (id : string)
    (w0 : World) (item0 : Obj) (n : Z) (j : nat) (w : World) : Prop :=
  provider w = provider w0
  /\ now w0 <= now w
  /\ sent w = sent w0 ++ replicate j command
  /\ (forall id', id' <> id -> table w !! id' = table w0 !! id')
  /\ exists item : Obj,
       table w !! id = Some item
       /\ Js.get "retryCount" item = JNum (n + Z.of_nat j)
       /\ (j <> 0%nat -> Js.get "status" item = JStr "failed")
       /\ Js.get "result" item = Js.get "result" item0
       /\ (forall k : string, k ∉ written -> Js.get k item = Js.get k item0).

(** ** Scans and deletes of the document client *)

Module Scan.

(** A filter expression with its names and values resolved.  The
    expressions of the outbox service compare attributes with strings
    only. *)
Inductive Condition : Type :=
| Equals (attribute value : string)        (* attribute = :value *)
| Less (attribute value : string)          (* attribute < :value *)
| LessEq (attribute value : string)        (* attribute <= :value *)
| NotExists (attribute : string)           (* attribute_not_exists(attribute) *)
| And (a b : Condition)
| Or (a b : Condition).

(** A comparison with a string holds for string attributes only;
    strings are ordered by their bytes. *)
Fixpoint holds (condition : Condition) (item : Obj) : bool :=
  match condition with
  | Equals attribute value => Js.is_string value (Js.get attribute item)
  | Less attribute value =>
      match Js.get attribute item with
      | JStr s => String.ltb s value
      | _ => false
      end
  | LessEq attribute value =>
      match Js.get attribute item with
      | JStr s => String.leb s value
      | _ => false
      end
  | NotExists attribute =>
      match Js.get attribute item with
      | JUndefined => true
      | _ => false
      end
  | And a b => holds a item && holds b item
  | Or a b => holds a item || holds b item
  end.

(** One [Scan] request evaluates the items of one page of the table:
    [page t] lists the keys it reads, in the order of the scan.  The
    services send one request and do not follow [LastEvaluatedKey]. *)
Class Scanner : Type := {
  page : gmap string Obj -> list string;
  page_NoDup : forall t, NoDup (page t)
}.

Section Commands.
Context `{Scanner}.

(** The items a request reads: those of the page, cut at [Limit]. *)
Definition evaluated (Limit : option nat) (t : gmap string Obj) : list Obj :=
  let items := omap (fun id => t !! id) (page t) in
  match Limit with
  | Some n => take n items
  | None => items
  end.

(** [ScanCommand]: [result.Items], the evaluated items that pass
    the filter.  A [Limit] below one is rejected. *)
Definition scan (FilterExpression : Condition) (Limit : option Z)
  : Async World (list Obj) := fun w =>
  match Limit with
  | Some n =>
      if n <? 1
      then (Throw (DynamoDB.ValidationException "Limit must be greater than or equal to 1"), w)
      else (Ok (List.filter (holds FilterExpression)
                            (evaluated (Some (Z.to_nat n)) (table w))), w)
  | None =>
      (Ok (List.filter (holds FilterExpression) (evaluated None (table w))), w)
  end.
End Commands.

(** [DeleteCommand]: the item under the key is removed, if there is one. *)
Definition delete (key : JsVal) : Async World unit := fun w =>
  match key with
  | JStr id => (Ok tt, with_table (base.delete id (table w)) w)
  | _ => (Throw (DynamoDB.ValidationException
                   "The provided key element does not match the schema"), w)
  end.

End Scan.

(** ** Outbox service: maintenance (outbox-service.js) *)

Module OutboxMaintenance.

Record CleanupResult : Type := {
  totalFound : nat;
  deleted : Z
}.

(** An entry of [processResults]. *)
Record ProcessResult : Type := {
  outboxId : JsVal;
  notificationId : JsVal;
  result : option JsVal;
  error : option string
}.

Record ScheduledResult : Type := {
  totalProcessed : nat;
  results : list ProcessResult
}.

Section Service.
Context `{JsBuiltins} `{Scan.Scanner}.

(** The loop of [cleanupOldEntries] over the entries found. *)
Fixpoint deleteEntries (oldEntries : list Obj) (deletedCount : Z) : Async World Z :=
  match oldEntries with
  | [] => ret deletedCount
  | entry :: rest =>
      deletedCount <-
        try_catch
          (Scan.delete (Js.get "id" entry);;; ret (deletedCount + 1))
          (fun error => ret deletedCount);;
      deleteEntries rest deletedCount
  end.

(** [cleanupOldEntries(daysOld)]; the cutoff is [daysOld] calendar
    days before now in the time zone of the process, which is UTC:
    [daysOld] times 86 400 000 ms. *)
Definition cleanupOldEntries (daysOld : Z) : Async World CleanupResult :=
  try_catch
    (today <- clock;;
     let cutoffTimestamp := toISOString (today - daysOld * 86400000) in
     oldEntries <-
       Scan.scan
         (Scan.And (Scan.Less "createdAt" cutoffTimestamp)
                   (Scan.Or (Scan.Equals "status" "sent")
                            (Scan.Equals "status" "failed")))
         None;;
     deletedCount <- deleteEntries oldEntries 0;;
     ret {| totalFound := length oldEntries; deleted := deletedCount |})
    (fun error => throw error).

(** [getFailedNotifications(limit)] *)
Definition getFailedNotifications (limit : Z) : Async World (list Obj) :=
  try_catch
    (Scan.scan (Scan.Equals "status" "failed") (Some limit))
    (fun error => throw error).

(** The loop of [processScheduledNotifications] over the entries found. *)
Fixpoint processEntries (pendingEntries : list Obj) (processResults : list ProcessResult)
  : Async World (list ProcessResult) :=
  match pendingEntries with
  | [] => ret processResults
  | entry :: rest =>
      processResults <-
        try_catch
          (result <- NotificationService.processOutboxEntry entry;;
           ret (processResults
                ++ [ {| outboxId := Js.get "id" entry;
                        notificationId := Js.get "notificationId" entry;
                        result := Some result; error := None |} ]))
          (fun e =>
             ret (processResults
                  ++ [ {| outboxId := Js.get "id" entry;
                          notificationId := Js.get "notificationId" entry;
                          result := None; error := Some (message e) |} ]));;
      processEntries rest processResults
  end.

Definition processScheduledNotifications : Async World ScheduledResult :=
  try_catch
    (today <- clock;;
     let now := toISOString today in
     pendingEntries <-
       Scan.scan
         (Scan.And (Scan.Equals "status" "pending")
                   (Scan.Or (Scan.NotExists "scheduledAt")
                            (Scan.LessEq "scheduledAt" now)))
         None;;
     processResults <- processEntries pendingEntries [];;
     ret {| totalProcessed := length pendingEntries; results := processResults |})
    (fun error => throw error).

End Service.
End OutboxMaintenance.

(** ** API routes ([ApiHandler.routeRequest]) *)

Module ApiHandler.

(** The handler a request is given to, with the path segments it
    receives; [body] and [queryParams] are passed on as they are. *)
Inductive Endpoint : Type :=
| handleSendNotification
| handleBulkNotifications
| handleGetNotificationStatus (notificationId : string)
| handleRetryFailedNotifications
| handleCreateTemplate
| handleListTemplates
| handleGetTemplate (templateId : string)
| handleUpdateTemplate (templateId : string)
| handleDeleteTemplate (templateId : string)
| handleCreateSubscriber
| handleListSubscribers
| handleGetSubscriber (subscriberId : string)
| handleUpdateSubscriber (subscriberId : string)
| handleDeleteSubscriber (subscriberId : string)
| handleHealthCheck
| handleGetStats
| handleGetFailedNotifications
| handleRequeueNotification (outboxId : string)
| endpointNotFound.                (* 404, 'Endpoint not found' *)

(** [pathSegments[i] === literal] *)
Definition segment_is (literal : string) (segment : option string) : bool :=
  match segment with
  | Some s => String.eqb s literal
  | None => false
  end.

(** [pathSegments[i]] is truthy. *)
Definition present (segment : option string) : bool :=
  match segment with
  | Some s => JsString.truthy s
  | None => false
  end.

Definition routeRequest (method path : string) : Endpoint :=
  let pathSegments :=
    List.filter (fun segment => negb (String.eqb segment EmptyString))
                (JsString.split "/"%char path) in
  let s0 := nth_error pathSegments 0 in
  let s1 := nth_error pathSegments 1 in
  let s2 := nth_error pathSegments 2 in
  let arg (segment : option string) := default EmptyString segment in
  if String.eqb method "POST" && segment_is "notifications" s0
  then handleSendNotification
  else if String.eqb method "POST" && segment_is "notifications" s0
          && segment_is "bulk" s1
  then handleBulkNotifications
  else if String.eqb method "GET" && segment_is "notifications" s0 && present s1
  then handleGetNotificationStatus (arg s1)
  else if String.eqb method "POST" && segment_is "notifications" s0
          && segment_is "retry" s1
  then handleRetryFailedNotifications
  else if String.eqb method "POST" && segment_is "templates" s0
  then handleCreateTemplate
  else if String.eqb method "GET" && segment_is "templates" s0 && negb (present s1)
  then handleListTemplates
  else if String.eqb method "GET" && segment_is "templates" s0 && present s1
  then handleGetTemplate (arg s1)
  else if String.eqb method "PUT" && segment_is "templates" s0 && present s1
  then handleUpdateTemplate (arg s1)
  else if String.eqb method "DELETE" && segment_is "templates" s0 && present s1
  then handleDeleteTemplate (arg s1)
  else if String.eqb method "POST" && segment_is "subscribers" s0
  then handleCreateSubscriber
  else if String.eqb method "GET" && segment_is "subscribers" s0 && negb (present s1)
  then handleListSubscribers
  else if String.eqb method "GET" && segment_is "subscribers" s0 && present s1
  then handleGetSubscriber (arg s1)
  else if String.eqb method "PUT" && segment_is "subscribers" s0 && present s1
  then handleUpdateSubscriber (arg s1)
  else if String.eqb method "DELETE" && segment_is "subscribers" s0 && present s1
  then handleDeleteSubscriber (arg s1)
  else if String.eqb method "GET" && segment_is "health" s0
  then handleHealthCheck
  else if String.eqb method "GET" && segment_is "stats" s0
  then handleGetStats
  else if String.eqb method "GET" && segment_is "outbox" s0 && segment_is "failed" s1
  then handleGetFailedNotifications
  else if String.eqb method "POST" && segment_is "outbox" s0
          && segment_is "requeue" s1 && present s2
  then handleRequeueNotification (arg s2)
  else endpointNotFound.

End ApiHandler.

(** ** Further scenarios *)


(** The entry of [welcome], as stored while it is pending. *)
Definition pendingEntry : Obj :=
  [ ("id", JStr "entry-0"); ("notificationId", JStr "n-1");
    ("type", JStr "email"); ("recipient", JStr "a@b.com");
    ("content", welcomeContent); ("priority", JStr "normal");
    ("scheduledAt", JNull); ("status", JStr "pending");
    ("retryCount", JNum 0); ("maxRetries", JNum 3);
    ("ttl", JNum 604801); ("createdAt", JStr "1000");
    ("updatedAt", JStr "1000") ].

(** The command sent for [welcome]. *)
Definition welcomeCommand : ProviderCall :=
  SendEmailCommand (JStr "a@b.com") (JStr "S") None (JStr "T").

(** A provider that throttles its first [fails] calls and accepts the
    following ones. *)
Definition flaky (fails : nat) : nat -> ProviderCall -> Result JsVal :=
  fun k command => if (k <? fails)%nat then throttled k command else accepts k command.

(** The outbox holding one entry under [entry-0], at time 5000. *)
Definition outboxWith (entry : Obj) (replies : nat -> ProviderCall -> Result JsVal)
  : World :=
  with_table {[ "entry-0" := entry ]} (freshWorld 5000 replies).

(** An entry of a channel the service does not know. *)
Definition pushEntry : Obj :=
  [ ("id", JStr "entry-0"); ("type", JStr "push"); ("recipient", JStr "a@b.com");
    ("content", welcomeContent); ("status", JStr "pending");
    ("retryCount", JNum 0); ("maxRetries", JNum 3) ].

(** A dead-letter message that carries the failed stream record. *)
Definition imageMessage : SqsRecord :=
  {| messageId := "m-2";
     body := Ok {| recordImage := Some welcomeImage; properties := [] |} |}.

(** A dead-letter message whose body is not JSON. *)
Definition brokenMessage : SqsRecord :=
  {| messageId := "m-3";
     body := Throw {| name := "SyntaxError"; ctor := "SyntaxError";
                      message := "Unexpected token < in JSON at position 0" |} |}.

(** A scan that reads the whole table. *)
Definition fullScan : Scan.Scanner :=
  {| Scan.page := fun t => (map_to_list t).*1;
     Scan.page_NoDup := fun t => NoDup_fst_map_to_list t |}.

(** An outbox with an old delivered entry and a pending one, ten days
    and some after their creation. *)
Definition archive : World :=
  with_table
    {[ "old" := [ ("id", JStr "old"); ("status", JStr "sent"); ("createdAt", JStr "1") ];
       "new" := [ ("id", JStr "new"); ("status", JStr "pending");
                  ("createdAt", JStr "1"); ("scheduledAt", JStr "99") ] ]}
    (freshWorld 900000000 accepts).

(** * Verified properties *)

(** ** Log masking *)

Example mask_email : maskSensitiveData "john.doe@example.com" = "jo***@example.com".
Proof. reflexivity. Qed.

Example mask_phone : maskSensitiveData "+14155552671" = "+14***71".
Proof. reflexivity. Qed.

Example mask_short_local : maskSensitiveData "a@b.com" = "a***@b.com".
Proof. reflexivity. Qed.

Example mask_other : maskSensitiveData "user-42" = "user-42".
Proof. reflexivity. Qed.

Lemma includes_char (c x : ascii) (rest : string) :
  JsString.includes (String c EmptyString) (String x rest)
  = Ascii.eqb x c || JsString.includes (String c EmptyString) rest.
Proof.
  cbn [JsString.includes String.prefix].
  destruct (ascii_dec c x) as [->|Hne].
  - rewrite Ascii.eqb_refl. now destruct rest.
  - destruct (Ascii.eqb_spec x c) as [->|_]; [congruence | reflexivity].
Qed.

Lemma append_cons (x : ascii) (l s : string) :
  String x l +:+ s = String x (l +:+ s).
Proof. reflexivity. Qed.

Lemma append_empty (s : string) : EmptyString +:+ s = s.
Proof. reflexivity. Qed.

Lemma includes_char_app (c : ascii) (l d : string) :
  JsString.includes (String c EmptyString) (l +:+ String c d) = true.
Proof.
  induction l as [|x l IH]; rewrite ?append_cons, ?append_empty.
  - rewrite includes_char, Ascii.eqb_refl. reflexivity.
  - rewrite includes_char, IH. apply orb_true_r.
Qed.

Lemma split_no_sep (c : ascii) (s : string) :
  JsString.includes (String c EmptyString) s = false ->
  JsString.split c s = [s].
Proof.
  induction s as [|x s IH]; [reflexivity|].
  rewrite includes_char. intros [Hx Hs]%orb_false_iff.
  cbn [JsString.split]. rewrite Hx, (IH Hs). reflexivity.
Qed.

Lemma split_once (c : ascii) (l d : string) :
  JsString.includes (String c EmptyString) l = false ->
  JsString.includes (String c EmptyString) d = false ->
  JsString.split c (l +:+ String c d) = [l; d].
Proof.
  intros Hl Hd. induction l as [|x l IH]; rewrite ?append_cons, ?append_empty; cbn [JsString.split].
  - rewrite Ascii.eqb_refl, (split_no_sep _ _ Hd). reflexivity.
  - rewrite includes_char in Hl. apply orb_false_iff in Hl as [Hx Hl].
    rewrite Hx, (IH Hl). reflexivity.
Qed.

Lemma substring_all (s : string) (n : nat) :
  (String.length s <= n)%nat -> String.substring 0 n s = s.
Proof.
  revert n. induction s as [|x s IH]; intros [|n] Hn; cbn in *; try reflexivity; try lia.
  f_equal. apply IH. lia.
Qed.

Lemma js_substring_prefix (n : nat) (s : string) :
  JsString.substring 0 (Z.of_nat n) s = String.substring 0 n s.
Proof.
  unfold JsString.substring.
  destruct (Nat.le_gt_cases (String.length s) n) as [Hle|Hgt].
  - replace (Z.min (Z.max 0 0) _) with 0 by lia.
    replace (Z.min (Z.max (Z.of_nat n) 0) _) with (Z.of_nat (String.length s)) by lia.
    replace (Z.to_nat (Z.min 0 _)) with 0%nat by lia.
    replace (Z.to_nat _) with (String.length s) by lia.
    rewrite !substring_all; auto.
  - replace (Z.min (Z.max 0 0) _) with 0 by lia.
    replace (Z.min (Z.max (Z.of_nat n) 0) _) with (Z.of_nat n) by lia.
    replace (Z.to_nat (Z.min 0 _)) with 0%nat by lia.
    replace (Z.to_nat _) with n by lia.
    reflexivity.
Qed.

Lemma js_substring_suffix (k : nat) (s : string) :
  (k <= String.length s)%nat ->
  JsString.substring_from (Z.of_nat (String.length s) - Z.of_nat k) s
  = String.substring (String.length s - k) k s.
Proof.
  intros Hk. unfold JsString.substring_from, JsString.substring.
  set (len := String.length s) in *.
  replace (Z.min (Z.max (Z.of_nat len - Z.of_nat k) 0) (Z.of_nat len))
    with (Z.of_nat (len - k)) by lia.
  replace (Z.min (Z.max (Z.of_nat len) 0) (Z.of_nat len)) with (Z.of_nat len) by lia.
  replace (Z.to_nat (Z.min _ _)) with (len - k)%nat by lia.
  replace (Z.to_nat _) with k by lia.
  reflexivity.
Qed.

Lemma digit_not_at (c : ascii) : is_digit c = true -> Ascii.eqb c "@"%char = false.
Proof.
  destruct (Ascii.eqb_spec c "@"%char) as [->|_]; [|reflexivity].
  vm_compute. intros H; discriminate H.
Qed.

Lemma all_digits_no_at (s : string) :
  all_digits s = true -> JsString.includes "@" s = false.
Proof.
  induction s as [|c s IH]; [reflexivity|].
  cbn [all_digits]. intros [Hc Hs]%andb_true_iff.
  rewrite includes_char, (digit_not_at _ Hc), (IH Hs). reflexivity.
Qed.

Lemma e164_shape (p : string) :
  is_e164 p = true ->
  JsString.truthy p = true /\ JsString.includes "@" p = false
  /\ JsString.startsWith "+" p = true /\ (3 <= String.length p)%nat.
Proof.
  destruct p as [|a [|d rest]]; try discriminate.
  unfold is_e164.
  intros [[[[[Ha Hd]%andb_true_iff _]%andb_true_iff Hr]%andb_true_iff Hl]%andb_true_iff _]%andb_true_iff.
  apply Ascii.eqb_eq in Ha as ->. apply Nat.leb_le in Hl.
  repeat split.
  - rewrite !includes_char, (digit_not_at _ Hd), (all_digits_no_at _ Hr). reflexivity.
  - cbn [String.length]. lia.
Qed.

(** C9. Masking of logged recipients: an address [local@domain] is logged
    as the first two characters of the local part (the whole local part
    when it is shorter), then [***@] and the full domain; an E.164 phone
    number is logged as its first three characters (the plus sign and two
    digits), then [***] and its last two digits. *)
Theorem maskSensitiveData_masks :
  (forall localPart domain : string,
      JsString.includes "@" localPart = false ->
      JsString.includes "@" domain = false ->
      maskSensitiveData (localPart +:+ "@" +:+ domain)
      = String.substring 0 2 localPart +:+ "***@" +:+ domain)
  /\ (forall phone : string,
      is_e164 phone = true ->
      maskSensitiveData phone
      = String.substring 0 3 phone +:+ "***"
        +:+ String.substring (String.length phone - 2) 2 phone).
Proof.
  split.
  - intros l d Hl Hd. unfold maskSensitiveData.
    change (l +:+ "@" +:+ d) with (l +:+ String "@" d).
    replace (JsString.truthy (l +:+ String "@" d)) with true by now destruct l.
    cbn [negb]. rewrite includes_char_app, (split_once _ _ _ Hl Hd).
    cbn [piece nth]. now rewrite (js_substring_prefix 2).
  - intros p Hp. destruct (e164_shape p Hp) as (Ht & Hat & Hplus & Hlen).
    unfold maskSensitiveData. rewrite Ht, Hat, Hplus. cbn [negb].
    rewrite (js_substring_prefix 3).
    change 2 with (Z.of_nat 2). rewrite js_substring_suffix by lia.
    reflexivity.
Qed.

Lemma maskSensitiveData_masks_witness :
  maskSensitiveData ("john.doe" +:+ "@" +:+ "example.com") = "jo***@example.com"
  /\ maskSensitiveData "+14155552671" = "+14***71".
Proof.
  destruct maskSensitiveData_masks as [Hemail Hphone]. split.
  - apply (Hemail "john.doe" "example.com"); reflexivity.
  - apply (Hphone "+14155552671"); reflexivity.
Defined.

(** ** Retry helper *)

Module RetryFacts.
Import RetryHelper.

Section Traced.
Context {S A : Type} `{Timers S}.
Variable op : Async S A.
Variables (maxRetries : nat) (baseDelay maxDelay factor : Q) (jitter : bool).

#[local] Abbreviation delay_after :=
  (RetrySpec.delay_after (S:=S) baseDelay maxDelay factor jitter).
#[local] Abbreviation run_shape :=
  (RetrySpec.run_shape (S:=S) baseDelay maxDelay factor jitter).

Lemma attempts_traced :
  forall (remaining attempt : nat) (s s' : S) (t t' : Trace A) (r : Result A),
    (attempt + remaining)%nat = maxRetries ->
    attempts (traced op) maxRetries baseDelay maxDelay factor jitter
             remaining attempt (s, t) = (r, (s', t')) ->
    run_shape remaining attempt t t' r.
Proof.
  induction remaining as [|k IH]; intros attempt s s' t t' r Hsum Hrun.
  - cbn in Hrun. destruct (op s) as [[v|e] s1] eqn:Hop; cbn in Hrun.
    + inversion Hrun; subst. exists [], []. cbn.
      rewrite app_nil_r. repeat split; auto; try constructor.
      intros i q Hi. discriminate Hi.
    + replace (attempt =? maxRetries)%nat with true in Hrun
        by (symmetry; apply Nat.eqb_eq; lia).
      inversion Hrun; subst. exists [], []. cbn.
      rewrite app_nil_r. repeat split; auto; try constructor.
      intros i q Hi. discriminate Hi.
  - cbn in Hrun. destruct (op s) as [[v|e] s1] eqn:Hop; cbn in Hrun.
    + inversion Hrun; subst. exists [], []. cbn.
      rewrite app_nil_r. repeat split; auto; try constructor; try lia.
      all: try (intros; discriminate).
    + replace (attempt =? maxRetries)%nat with false in Hrun
        by (symmetry; apply Nat.eqb_neq; lia).
      set (d := backoffDelay baseDelay maxDelay factor attempt) in Hrun.
      assert (Hstep : exists (q : Q) (s2 : S) (rs : list Q),
                 delay_after attempt q
                 /\ attempts (traced op) maxRetries baseDelay maxDelay factor jitter
                      k (Datatypes.S attempt)
                      (sleep q s2,
                       mkTrace (outcomes t ++ [Throw e]) (sleeps t ++ [q]) rs)
                    = (r, (s', t'))).
      { unfold RetrySpec.delay_after. destruct jitter.
        - destruct (random s1) as [r0 s2] eqn:Hr. cbn in Hrun.
          exists (withJitter d r0), s2, (drawn t ++ [r0]). split; [|exact Hrun].
          exists s1. now rewrite Hr.
        - exists d, s1, (drawn t). split; [reflexivity | exact Hrun]. }
      destruct Hstep as (q & s2 & rs & Hq & Hrest).
      apply IH in Hrest; [|lia].
      destruct Hrest as (earlier & delays & Ho & Hs & Hf & Hc & Hx & Hl & Hd).
      cbn in Ho, Hs.
      exists (Throw e :: earlier), (q :: delays).
      rewrite Ho, Hs, <- !app_assoc. cbn.
      split; [reflexivity|]. split; [reflexivity|].
      split; [constructor; auto|]. split; [lia|].
      split; [intros Hr; specialize (Hx Hr); lia|]. split; [lia|].
      intros [|i] q' Hi; cbn in Hi.
      * inversion Hi; subst. now rewrite Nat.add_0_r.
      * replace (attempt + Datatypes.S i)%nat with (Datatypes.S attempt + i)%nat by lia.
        now apply Hd.
Qed.

(** Each sleep of the loop is computed from the draw made just
    before it. *)
Lemma attempts_drawn :
  forall (remaining attempt : nat) (s s' : S) (t t' : Trace A) (r : Result A),
    (attempt + remaining)%nat = maxRetries ->
    attempts (traced op) maxRetries baseDelay maxDelay factor jitter
             remaining attempt (s, t) = (r, (s', t')) ->
    RetrySpec.draw_shape baseDelay maxDelay factor jitter attempt t t'.
Proof.
  assert (Hnil : forall (attempt : nat) (t0 t1 : Trace A),
             sleeps t1 = sleeps t0 -> drawn t1 = drawn t0 ->
             RetrySpec.draw_shape baseDelay maxDelay factor jitter attempt t0 t1).
  { intros attempt t0 t1 Hs Hd. exists [], []. rewrite !app_nil_r.
    split; [exact Hs|]. split; [exact Hd|].
    destruct jitter; (split; [reflexivity|]); intros i q; rewrite lookup_nil;
      discriminate. }
  induction remaining as [|k IH]; intros attempt s s' t t' r Hsum Hrun.
  - cbn in Hrun. destruct (op s) as [[v|e] s1] eqn:Hop; cbn in Hrun.
    + inversion Hrun; subst. now apply Hnil.
    + replace (attempt =? maxRetries)%nat with true in Hrun
        by (symmetry; apply Nat.eqb_eq; lia).
      inversion Hrun; subst. now apply Hnil.
  - cbn in Hrun. destruct (op s) as [[v|e] s1] eqn:Hop; cbn in Hrun.
    + inversion Hrun; subst. now apply Hnil.
    + replace (attempt =? maxRetries)%nat with false in Hrun
        by (symmetry; apply Nat.eqb_neq; lia).
      set (d := backoffDelay baseDelay maxDelay factor attempt) in Hrun.
      unfold RetrySpec.draw_shape. destruct jitter.
      * destruct (random s1) as [r0 s2] eqn:Hr. cbn in Hrun.
        apply IH in Hrun; [|lia].
        destruct Hrun as (delays & rs & Hs & Hd & Hl & Hq). cbn in Hs, Hd.
        exists (withJitter d r0 :: delays), (r0 :: rs).
        rewrite Hs, Hd, <- !app_assoc. cbn.
        split; [reflexivity|]. split; [reflexivity|]. split; [lia|].
        intros [|i] q r1 Hi Hj; cbn in Hi, Hj.
        -- inversion Hi; inversion Hj; subst. now rewrite Nat.add_0_r.
        -- replace (attempt + Datatypes.S i)%nat
             with (Datatypes.S attempt + i)%nat by lia.
           now apply Hq.
      * cbn in Hrun. apply IH in Hrun; [|lia].
        destruct Hrun as (delays & rs & Hs & Hd & Hl & Hq). cbn in Hs, Hd.
        exists (d :: delays), rs.
        rewrite Hs, Hd, <- !app_assoc. cbn.
        split; [reflexivity|]. split; [reflexivity|]. split; [exact Hl|].
        intros [|i] q Hi; cbn in Hi.
        -- inversion Hi; subst. now rewrite Nat.add_0_r.
        -- replace (attempt + Datatypes.S i)%nat
             with (Datatypes.S attempt + i)%nat by lia.
           now apply Hq.
Qed.

Lemma exponentialBackoff_drawn (s : S) :
  let run := exponentialBackoff (traced op) maxRetries baseDelay maxDelay factor
               jitter (s, noTrace) in
  RetrySpec.draw_shape baseDelay maxDelay factor jitter 0 noTrace (snd (snd run)).
Proof.
  intros run. destruct run as [r [s' t']] eqn:Hrun.
  apply (attempts_drawn maxRetries 0 s s' noTrace t' r); [reflexivity | exact Hrun].
Qed.

(** The run as a whole: the loop is entered at attempt 0 with
    [maxRetries] iterations to follow. *)
Lemma exponentialBackoff_traced (s : S) :
  let run := exponentialBackoff (traced op) maxRetries baseDelay maxDelay factor
               jitter (s, noTrace) in
  run_shape maxRetries 0 noTrace (snd (snd run)) (fst run).
Proof.
  intros run. destruct run as [r [s' t']] eqn:Hrun.
  apply (attempts_traced maxRetries 0 s s'); [reflexivity | exact Hrun].
Qed.

(** An operation that fails whenever it is called makes the run fail. *)
Lemma attempts_all_fail {T : Type} `{Timers T} (fn : Async T A) :
  (forall s0, is_throw (fst (fn s0)) = true) ->
  forall remaining attempt s0,
    is_throw (fst (attempts fn maxRetries baseDelay maxDelay factor jitter
                            remaining attempt s0)) = true.
Proof.
  intros Hfail. induction remaining as [|k IH]; intros attempt s0; cbn.
  - pose proof (Hfail s0) as Hf. destruct (fn s0) as [[v|e] s1]; [discriminate|].
    destruct (attempt =? maxRetries)%nat; [reflexivity|].
    destruct jitter; [destruct (random s1)|]; reflexivity.
  - pose proof (Hfail s0) as Hf. destruct (fn s0) as [[v|e] s1]; [discriminate|].
    destruct (attempt =? maxRetries)%nat; [reflexivity|].
    destruct jitter; [destruct (random s1)|]; apply IH.
Qed.

End Traced.

(** The loop only looks at what the operation returns. *)
Lemma attempts_ext {S A : Type} `{Timers S} (fn fn' : Async S A)
    (maxRetries : nat) (baseDelay maxDelay factor : Q) (jitter : bool) :
  (forall s, fn s = fn' s) ->
  forall remaining attempt s,
    attempts fn maxRetries baseDelay maxDelay factor jitter remaining attempt s
    = attempts fn' maxRetries baseDelay maxDelay factor jitter remaining attempt s.
Proof.
  intros Hext. induction remaining as [|k IH]; intros attempt s; cbn; rewrite Hext.
  - reflexivity.
  - destruct (fn' s) as [[v|e] s1]; [reflexivity|].
    destruct (attempt =? maxRetries)%nat; [reflexivity|].
    destruct jitter; [destruct (random s1)|]; apply IH.
Qed.

(** [withRetry] evaluates [retryCondition] and then rethrows the error
    on either branch: the condition has no effect on the run. *)
Lemma withRetry_ignores_retryCondition {S A : Type} `{Timers S}
    (operation : Async S A) (options : Options) (s : S) :
  withRetry operation options s
  = exponentialBackoff operation (maxRetries options) (baseDelay options)
      (maxDelay options) (factor options) (jitter options) s.
Proof.
  unfold withRetry, exponentialBackoff. apply attempts_ext.
  intros s0. destruct (operation s0) as [[v|e] s1]; [reflexivity|].
  destruct (negb _); reflexivity.
Qed.

(** *** Delays *)

Lemma pow_Qpower (factor : Q) (n : nat) : (pow factor n == factor ^ Z.of_nat n)%Q.
Proof.
  induction n as [|n IH]; [reflexivity|].
  cbn [pow]. rewrite IH.
  replace (Z.of_nat (Datatypes.S n)) with (1 + Z.of_nat n) by lia.
  rewrite Qpower_plus' by lia. reflexivity.
Qed.

Lemma pow_ge_1 (factor : Q) (n : nat) : (1 <= factor)%Q -> (1 <= pow factor n)%Q.
Proof.
  intros Hf. induction n as [|n IH]; cbn [pow]; [apply Qle_refl | nra].
Qed.

Lemma backoffDelay_capped (baseDelay maxDelay factor : Q) (n : nat) :
  (backoffDelay baseDelay maxDelay factor n <= maxDelay)%Q.
Proof. apply Q.le_min_r. Qed.

Lemma backoffDelay_step (baseDelay maxDelay factor : Q) (n : nat) :
  (0 <= baseDelay)%Q -> (1 <= factor)%Q ->
  (backoffDelay baseDelay maxDelay factor n
   <= backoffDelay baseDelay maxDelay factor (Datatypes.S n))%Q.
Proof.
  intros Hb Hf. unfold backoffDelay. apply Q.min_le_compat_r.
  cbn [pow]. pose proof (pow_ge_1 factor n Hf) as Hp.
  set (p := pow factor n) in *.
  assert (Hx : (0 <= baseDelay * p)%Q) by (apply Qmult_le_0_compat; lra).
  assert (Heq : (baseDelay * (factor * p) == factor * (baseDelay * p))%Q) by ring.
  rewrite Heq. set (x := (baseDelay * p)%Q) in *. nra.
Qed.

Lemma backoffDelay_monotone (baseDelay maxDelay factor : Q) (n n' : nat) :
  (0 <= baseDelay)%Q -> (1 <= factor)%Q -> (n <= n')%nat ->
  (backoffDelay baseDelay maxDelay factor n
   <= backoffDelay baseDelay maxDelay factor n')%Q.
Proof.
  intros Hb Hf Hn. induction Hn as [|n' _ IH]; [apply Qle_refl|].
  eapply Qle_trans; [exact IH | now apply backoffDelay_step].
Qed.

Lemma withJitter_factor (delay r : Q) :
  (0 <= r)%Q -> (r < 1)%Q ->
  exists k : Q, ((1 # 2) <= k)%Q /\ (k <= 1)%Q /\ (withJitter delay r == delay * k)%Q.
Proof.
  intros H0 H1. exists ((1 # 2) + r * (1 # 2))%Q. unfold withJitter.
  split; [lra|]. split; [lra | reflexivity].
Qed.

End RetryFacts.

Section RetryEngine.
Context {S A : Type} `{RetryHelper.Timers S}.
Variable op : Async S A.
Variables (maxRetries : nat) (baseDelay maxDelay factor : Q) (jitter : bool).
Variable s : S.

#[local] Abbreviation run :=
  (RetryHelper.exponentialBackoff (RetryHelper.traced op) maxRetries
     baseDelay maxDelay factor jitter (s, RetryHelper.noTrace)).

(** C6 (as the code has it). [exponentialBackoff(fn, maxRetries, ...)]
    invokes the wrapped operation at least once and at most
    [maxRetries + 1] times: one first attempt and up to [maxRetries]
    retries.  Its result is the outcome of the last invocation; when it
    fails, every one of the [maxRetries + 1] invocations failed and the
    error thrown is the last one observed.  An operation that always
    fails makes it fail. *)
Theorem exponentialBackoff_attempt_bound :
  let calls := RetryHelper.outcomes (snd (snd run)) in
  (1 <= length calls)%nat /\ (length calls <= maxRetries + 1)%nat
  /\ last calls = Some (fst run)
  /\ (is_throw (fst run) = true ->
      length calls = (maxRetries + 1)%nat
      /\ Forall (fun o => is_throw o = true) calls)
  /\ ((forall s0, is_throw (fst (op s0)) = true) -> is_throw (fst run) = true).
Proof.
  pose proof (RetryFacts.exponentialBackoff_traced op maxRetries baseDelay
                maxDelay factor jitter s) as Hshape.
  destruct Hshape as (earlier & delays & Ho & _ & Hf & Hc & Hx & _ & _).
  cbn in Ho. cbn zeta. rewrite Ho.
  rewrite length_app. cbn [length].
  split; [lia|]. split; [lia|]. split; [apply last_snoc|]. split.
  - intros Hr. specialize (Hx Hr). split; [lia|].
    apply Forall_app. split; [exact Hf|]. constructor; [exact Hr | constructor].
  - intros Hfail. unfold RetryHelper.exponentialBackoff.
    apply RetryFacts.attempts_all_fail.
    intros [s0 t0]. cbn. specialize (Hfail s0).
    destruct (op s0) as [r s1]. exact Hfail.
Qed.

(** C7. After the failure of attempt [n] (counted from 0) the engine
    sleeps for [min(baseDelay * factor^n, maxDelay)], multiplied, when
    jitter is on, by [0.5 + r * 0.5], [r] being the value of the one
    call of [Math.random()] made for that sleep: a factor of at least
    one half and below one for a draw in [0, 1).  Without jitter no
    draw is made.  The delay before jitter never exceeds [maxDelay]
    and, for a non-negative base delay and a factor of at least one,
    does not decrease from one attempt to the next. *)
Theorem backoff_delays :
  let slept := RetryHelper.sleeps (snd (snd run)) in
  let drawn := RetryHelper.drawn (snd (snd run)) in
  let delay := RetryHelper.backoffDelay baseDelay maxDelay factor in
  (forall n : nat, (delay n == Qmin (baseDelay * factor ^ Z.of_nat n) maxDelay)%Q)
  /\ (jitter = false ->
      drawn = [] /\ forall (n : nat) (q : Q), slept !! n = Some q -> q = delay n)
  /\ (jitter = true ->
      length drawn = length slept
      /\ forall (n : nat) (q : Q),
           slept !! n = Some q ->
           exists r : Q,
             drawn !! n = Some r
             /\ q = (delay n * ((1 # 2) + r * (1 # 2)))%Q
             /\ ((0 <= r)%Q -> (r < 1)%Q ->
                 ((1 # 2) <= (1 # 2) + r * (1 # 2))%Q
                 /\ ((1 # 2) + r * (1 # 2) < 1)%Q))
  /\ (forall n : nat, (delay n <= maxDelay)%Q)
  /\ ((0 <= baseDelay)%Q -> (1 <= factor)%Q ->
      forall n n' : nat, (n <= n')%nat -> (delay n <= delay n')%Q).
Proof.
  cbn zeta.
  pose proof (RetryFacts.exponentialBackoff_drawn op maxRetries baseDelay
                maxDelay factor jitter s) as Hshape.
  destruct Hshape as (delays & rs & Hs & Hd & Hj). cbn in Hs, Hd.
  split; [|split; [|split; [|split]]].
  - intros n. unfold RetryHelper.backoffDelay.
    now rewrite RetryFacts.pow_Qpower.
  - intros Hoff. rewrite Hoff in Hj. destruct Hj as [-> Hq].
    rewrite Hs, Hd. split; [reflexivity|]. intros n q Hn. now apply Hq.
  - intros Hon. rewrite Hon in Hj. destruct Hj as [Hl Hq].
    rewrite Hs, Hd. split; [exact Hl|]. intros n q Hn.
    destruct (rs !! n) as [r|] eqn:Hr.
    + exists r. split; [reflexivity|]. split; [now apply Hq|].
      intros H0 H1. split; lra.
    + apply lookup_ge_None in Hr. apply lookup_lt_Some in Hn. lia.
  - intros n. apply RetryFacts.backoffDelay_capped.
  - intros Hb Hf n n' Hn. now apply RetryFacts.backoffDelay_monotone.
Qed.

End RetryEngine.


(** C2. [withRetry] consults the retry condition and then rethrows on
    both branches, so a non-retryable error is retried like any other:
    with the default options an operation that always fails with a
    validation error is invoked four times, with three backoff delays in
    between, before the error surfaces. *)
Theorem withRetry_retries_non_retryable :
  RetryHelper.isRetryableError invalidRecipient = false
  /\ (let run := RetryHelper.retryWithBackoff (RetryHelper.traced alwaysInvalid)
                   (0, RetryHelper.noTrace) in
      fst run = Throw invalidRecipient
      /\ length (RetryHelper.outcomes (snd (snd run))) = 4%nat
      /\ Forall2 Qeq (RetryHelper.sleeps (snd (snd run))) [500; 1000; 2000]%Q).
Proof.
  split; [reflexivity|]. cbn zeta.
  split; [vm_compute; reflexivity|]. split; [vm_compute; reflexivity|].
  vm_compute. repeat constructor.
Qed.

(** C6, as stated, fails: passing 3 as the second argument lets an
    operation that keeps failing run four times. *)
Lemma withBackoff_maxAttempts_exceeded :
  ~ (forall (operation : Async Z unit) (maxAttempts : nat) (now : Z),
        (length (RetryHelper.outcomes (snd (snd
           (RetryHelper.exponentialBackoff (RetryHelper.traced operation)
              maxAttempts 1000 30000 2 true (now, RetryHelper.noTrace)))))
         <= maxAttempts)%nat).
Proof.
  intros Hbound. specialize (Hbound alwaysInvalid 3%nat 0).
  assert (Hrun : length (RetryHelper.outcomes (snd (snd
             (RetryHelper.exponentialBackoff (RetryHelper.traced alwaysInvalid)
                3 1000 30000 2 true (0, RetryHelper.noTrace))))) = 4%nat)
    by (vm_compute; reflexivity).
  rewrite Hrun in Hbound. lia.
Qed.

Lemma exponentialBackoff_attempt_bound_witness :
  length (RetryHelper.outcomes (snd (snd
     (RetryHelper.exponentialBackoff (RetryHelper.traced alwaysInvalid)
        3 1000 30000 2 true (0, RetryHelper.noTrace))))) = 4%nat.
Proof.
  destruct (exponentialBackoff_attempt_bound alwaysInvalid 3 1000 30000 2 true 0)
    as (_ & _ & _ & Hfail & Hall).
  apply Hfail. apply Hall. intros now. reflexivity.
Defined.

Lemma backoff_delays_witness :
  (RetryHelper.backoffDelay 1000 30000 2 1 <= RetryHelper.backoffDelay 1000 30000 2 5)%Q
  /\ (let run := RetryHelper.exponentialBackoff (RetryHelper.traced alwaysInvalid)
                   3 1000 30000 2 true (0, RetryHelper.noTrace) in
      exists r : Q,
        RetryHelper.drawn (snd (snd run)) !! 1%nat = Some r
        /\ RetryHelper.sleeps (snd (snd run)) !! 1%nat
           = Some (RetryHelper.backoffDelay 1000 30000 2 1 * ((1 # 2) + r * (1 # 2)))%Q).
Proof.
  destruct (backoff_delays alwaysInvalid 3 1000 30000 2 true 0)
    as (_ & _ & Hjitter & _ & Hmono).
  split.
  - apply Hmono; [lra | lra | lia].
  - destruct (Hjitter eq_refl) as [_ Hdraw].
    destruct (Hdraw 1%nat (RetryHelper.withJitter (RetryHelper.backoffDelay 1000 30000 2 1) 0)
                eq_refl) as (r & Hr & Hq & _).
    exists r. split; [exact Hr|]. now rewrite <- Hq.
Defined.

(** ** Conversion of stream images *)

Section ConversionFacts.
Context `{JsBuiltins}.

(** C10. A wrapper whose tagged payload is falsy is returned as it is:
    [{BOOL: false}] and an S wrapper of the empty string come back as wrapper objects, never as
    [false] or the empty string.  A wrapper whose payload is truthy is
    decoded: to the payload itself under S, B, BOOL, SS and BS, to its
    number under N (element by element under NS), to [null] under NULL,
    and member by member under L and M. *)
Theorem convertDynamoDBValue_falsy_payload :
  (forall value : AttributeValue,
      Js.truthy (payload_of value) = false ->
      convertDynamoDBValue value = wrapper value)
  /\ convertDynamoDBValue (AV_BOOL false) = JObj [("BOOL", JBool false)]
  /\ convertDynamoDBValue (AV_S EmptyString) = JObj [("S", JStr EmptyString)]
  /\ (forall value : AttributeValue,
        Js.truthy (payload_of value) = true ->
        match value with
        | AV_S _ | AV_B _ | AV_BOOL _ | AV_SS _ | AV_BS _ =>
            convertDynamoDBValue value = payload_of value
        | AV_N n => convertDynamoDBValue value = Number n
        | AV_NULL _ => convertDynamoDBValue value = JNull
        | AV_NS l => convertDynamoDBValue value = JArr (map Number l)
        | AV_L l => convertDynamoDBValue value = JArr (map convertDynamoDBValue l)
        | AV_M m =>
            convertDynamoDBValue value
            = JObj (fold_left (fun obj '(k, v) =>
                                 Js.set k (convertDynamoDBValue v) obj) m [])
        end).
Proof.
  split; [|split; [reflexivity|split; [reflexivity|]]].
  - intros [s|n|b|b|b|l|m|l|l|l]; cbn; intros Hfalsy;
      try discriminate Hfalsy; now rewrite Hfalsy.
  - intros [s|n|b|b|b|l|m|l|l|l]; cbn; intros Htruthy;
      try reflexivity; now rewrite Htruthy.
Qed.

(** A field holding [false] or the empty string reaches the converted
    entry as a wrapper object, which is truthy. *)
Lemma falsy_field_stays_wrapped (value : AttributeValue) :
  Js.truthy (payload_of value) = false ->
  Js.truthy (convertDynamoDBValue value) = true.
Proof.
  destruct value as [s|n|b|b|b|l|m|l|l|l]; cbn; intros Hfalsy;
    try discriminate Hfalsy; now rewrite Hfalsy.
Qed.

End ConversionFacts.

(** ** Objects *)

Lemma get_set_eq (k : string) (v : JsVal) (o : Obj) : Js.get k (Js.set k v o) = v.
Proof.
  induction o as [|[k' v'] o IH]; cbn.
  - now rewrite String.eqb_refl.
  - destruct (String.eqb_spec k k') as [->|Hne]; cbn.
    + now rewrite String.eqb_refl.
    + destruct (String.eqb_spec k k'); [contradiction | exact IH].
Qed.

Lemma get_set_ne (k k' : string) (v : JsVal) (o : Obj) :
  k <> k' -> Js.get k (Js.set k' v o) = Js.get k o.
Proof.
  intros Hne. induction o as [|[k0 v0] o IH]; cbn.
  - destruct (String.eqb_spec k k'); [contradiction | reflexivity].
  - destruct (String.eqb_spec k' k0) as [->|Hne0]; cbn.
    + destruct (String.eqb_spec k k0); [contradiction | reflexivity].
    + destruct (String.eqb_spec k k0); [reflexivity | exact IH].
Qed.

(** Reading a property back after a run of assignments. *)
Ltac read_back :=
  repeat (rewrite get_set_eq
          || (rewrite get_set_ne by (discriminate || assumption)));
  try reflexivity.

(** ** Status updates *)

Section StatusUpdates.
Context `{JsBuiltins}.

Lemma with_table_table (t : gmap string Obj) (w : World) : table (with_table t w) = t.
Proof. reflexivity. Qed.


(** With a result the update expression names [result] as it is, and
    the request is rejected before anything is read. *)
Lemma updateOutboxEntryStatus_result
    (w : World) (outboxId status error result : JsVal) :
  Js.truthy result = true ->
  NotificationService.updateOutboxEntryStatus outboxId status error result w
  = (Throw reservedResult, w).
Proof.
  intros Hr.
  unfold NotificationService.updateOutboxEntryStatus, bind, clock,
    try_catch, DynamoDB.update.
  rewrite Hr. destruct (Js.truthy error); reflexivity.
Qed.

(** Without a result no name of the expression is reserved. *)
Lemma updateOutboxEntryStatus_no_result
    (w : World) (outboxId status error result : JsVal) :
  Js.truthy result = false ->
  NotificationService.updateOutboxEntryStatus outboxId status error result w
  = match outboxId with
    | JStr id =>
        let item := default [("id", JStr id)] (table w !! id) in
        let values :=
          [ ("status", status); ("updatedAt", JStr (toISOString (now w))) ] in
        if Js.truthy error
        then match Js.get "retryCount" item with
             | JNum n =>
                 (Ok tt,
                  with_table
                    (<[id := DynamoDB.assign item
                               (values ++ [ ("error", error);
                                            ("retryCount", JNum (n + 1)) ])]>
                       (table w)) w)
             | _ =>
                 (Throw (DynamoDB.ValidationException
                           "The provided expression refers to an attribute that does not exist in the item"), w)
             end
        else (Ok tt, with_table (<[id := DynamoDB.assign item values]> (table w)) w)
    | _ => (Throw (DynamoDB.ValidationException
                     "The provided key element does not match the schema"), w)
    end.
Proof.
  intros Hr.
  unfold NotificationService.updateOutboxEntryStatus, bind, clock,
    try_catch, DynamoDB.update.
  rewrite Hr. destruct (Js.truthy error).
  - change (find DynamoDB.reserved (DynamoDB.names _)) with (@None string).
    cbn [DynamoDB.Key DynamoDB.SET app].
    destruct outboxId; try reflexivity.
    cbn [DynamoDB.assignments DynamoDB.eval DynamoDB.attribute_of].
    destruct (Js.get "retryCount" _); reflexivity.
  - change (find DynamoDB.reserved (DynamoDB.names _)) with (@None string).
    cbn [DynamoDB.Key DynamoDB.SET].
    destruct outboxId; reflexivity.
Qed.

(** What [updateOutboxEntryStatus] without a result does to an entry
    that is present (with a numeric [retryCount] when an error is
    passed). *)
Lemma updateOutboxEntryStatus_present
    (w : World) (id : string) (item : Obj) (status error result : JsVal) :
  Js.truthy result = false ->
  table w !! id = Some item ->
  (Js.truthy error = true -> exists n, Js.get "retryCount" item = JNum n) ->
  exists item' : Obj,
    NotificationService.updateOutboxEntryStatus (JStr id) status error result w
    = (Ok tt, with_table (<[id := item']> (table w)) w)
    /\ Js.get "status" item' = status
    /\ Js.get "updatedAt" item' = JStr (toISOString (now w))
    /\ (forall k, k ∉ written -> Js.get k item' = Js.get k item)
    /\ (if Js.truthy error
        then Js.get "error" item' = error
             /\ forall n, Js.get "retryCount" item = JNum n ->
                          Js.get "retryCount" item' = JNum (n + 1)
        else Js.get "error" item' = Js.get "error" item
             /\ Js.get "retryCount" item' = Js.get "retryCount" item)
    /\ Js.get "result" item' = Js.get "result" item.
Proof.
  intros Hr Hitem Hcount.
  rewrite (updateOutboxEntryStatus_no_result w (JStr id) status error result Hr).
  rewrite Hitem. cbv [default from_option Datatypes.id].
  assert (Hk : forall k, k ∉ written ->
             k <> "status" /\ k <> "updatedAt" /\ k <> "error"
             /\ k <> "retryCount" /\ k <> "result").
  { unfold written. intros k Hk. rewrite !elem_of_cons, elem_of_nil in Hk.
    repeat split; intros ->; apply Hk; tauto. }
  destruct (Js.truthy error) eqn:He.
  - destruct (Hcount eq_refl) as [n Hn]. rewrite Hn.
    eexists; split; [reflexivity|]. unfold DynamoDB.assign. cbn [app fold_left].
    repeat split;
      [ read_back
      | read_back
      | intros k Hnk; destruct (Hk k Hnk) as (? & ? & ? & ? & ?); read_back
      | read_back
      | intros n' Hn'; inversion Hn'; subst; read_back
      | read_back ].
  - eexists; split; [reflexivity|]. unfold DynamoDB.assign. cbn [fold_left].
    repeat split;
      [ read_back
      | read_back
      | intros k Hnk; destruct (Hk k Hnk) as (? & ? & ? & ? & ?); read_back
      | read_back
      | read_back
      | read_back ].
Qed.

(** The outbox service carries the same update, without a result. *)
Lemma OutboxService_update_same (outboxId status error : JsVal) (w : World) :
  OutboxService.updateOutboxEntryStatus outboxId status error w
  = NotificationService.updateOutboxEntryStatus outboxId status error JNull w.
Proof. reflexivity. Qed.

End StatusUpdates.

Lemma is_string_true (literal : string) (v : JsVal) :
  Js.is_string literal v = true <-> v = JStr literal.
Proof.
  split.
  - destruct v; cbn; try discriminate. now intros ->%String.eqb_eq.
  - intros ->. cbn. apply String.eqb_refl.
Qed.

Section UpdateContract.
Context `{JsBuiltins}.


(** C8. [requeueFailedNotification] succeeds only on an entry that
    exists, has status [failed] and whose [retryCount] is below
    [maxRetries]; when it fails nothing is changed.  When it succeeds
    the entry gets status [pending] and a fresh [updatedAt], and every
    other attribute, [retryCount], [maxRetries] and the rendered
    content included, is as before. *)
Theorem requeueFailedNotification_frame (w : World) (outboxId : JsVal) :
  let run := OutboxService.requeueFailedNotification outboxId w in
  (is_throw (fst run) = false ->
     exists (id : string) (item : Obj),
       outboxId = JStr id /\ table w !! id = Some item
       /\ Js.get "status" item = JStr "failed"
       /\ Js.ge (Js.get "retryCount" item) (Js.get "maxRetries" item) = false
       /\ (forall n m : Z, Js.get "retryCount" item = JNum n ->
                           Js.get "maxRetries" item = JNum m -> n < m))
  /\ (is_throw (fst run) = true -> snd run = w)
  /\ (forall (id : string) (item : Obj) (n m : Z),
        outboxId = JStr id -> table w !! id = Some item ->
        Js.get "status" item = JStr "failed" ->
        Js.get "retryCount" item = JNum n ->
        Js.get "maxRetries" item = JNum m ->
        n < m ->
        is_throw (fst run) = false
        /\ exists item' : Obj,
             snd run = with_table (<[id := item']> (table w)) w
             /\ Js.get "status" item' = JStr "pending"
             /\ Js.get "updatedAt" item' = JStr (toISOString (now w))
             /\ (forall k : string, k <> "status" -> k <> "updatedAt" ->
                   Js.get k item' = Js.get k item)).
Proof.
  cbn zeta.
  assert (Hrun : forall id item,
             outboxId = JStr id -> table w !! id = Some item ->
             Js.is_string "failed" (Js.get "status" item) = true ->
             Js.ge (Js.get "retryCount" item) (Js.get "maxRetries" item) = false ->
             OutboxService.requeueFailedNotification outboxId w
             = (Ok (JObj [("success", JBool true);
                          ("retryCount", Js.get "retryCount" item)]),
                with_table
                  (<[id := Js.set "updatedAt" (JStr (toISOString (now w)))
                             (Js.set "status" (JStr "pending") item)]> (table w)) w)).
  { intros id item -> Hitem Hs Hge.
    unfold OutboxService.requeueFailedNotification, OutboxService.getOutboxEntry,
      OutboxService.updateOutboxEntryStatus, bind, try_catch, DynamoDB.get,
      DynamoDB.update, clock, ret, throw.
    rewrite Hitem. cbn. rewrite Hs, Hge. cbn. rewrite Hitem. reflexivity. }
  split; [|split].
  - intros Hok.
    unfold OutboxService.requeueFailedNotification, OutboxService.getOutboxEntry,
      bind, try_catch, DynamoDB.get, ret, throw in Hok.
    destruct outboxId as [| |b|n| |s|items|fields]; try discriminate Hok.
    cbn in Hok. destruct (table w !! s) as [item|] eqn:Hitem; [|discriminate Hok].
    cbn in Hok.
    destruct (Js.is_string "failed" (Js.get "status" item)) eqn:Hs;
      [|discriminate Hok].
    cbn in Hok.
    destruct (Js.ge (Js.get "retryCount" item) (Js.get "maxRetries" item)) eqn:Hge;
      [discriminate Hok|].
    exists s, item. apply is_string_true in Hs.
    repeat split; auto.
    intros n m Hn Hm. rewrite Hn, Hm in Hge. cbn in Hge. lia.
  - intros Hfail.
    unfold OutboxService.requeueFailedNotification, OutboxService.getOutboxEntry,
      bind, try_catch, DynamoDB.get, ret, throw in Hfail |- *.
    destruct outboxId as [| |b|n| |s|items|fields]; try reflexivity.
    destruct (table w !! s) as [item|] eqn:Hitem; [|reflexivity].
    cbn in Hfail |- *.
    destruct (Js.is_string "failed" (Js.get "status" item)) eqn:Hs;
      [|reflexivity].
    cbn in Hfail |- *.
    destruct (Js.ge (Js.get "retryCount" item) (Js.get "maxRetries" item)) eqn:Hge;
      [reflexivity|].
    exfalso. cbn in Hfail. discriminate Hfail.
  - intros id item n m Hid Hitem Hs Hn Hm Hlt.
    rewrite (Hrun id item Hid Hitem).
    + cbn. split; [reflexivity|]. eexists. split; [reflexivity|].
      repeat split; intros; read_back.
    + now apply is_string_true.
    + rewrite Hn, Hm. cbn. lia.
Qed.

End UpdateContract.

(** ** Dead-letter processor *)

#[local] Arguments RetryHelper.isRetryableError : simpl never.

Section Escalation.
Context `{JsBuiltins}.

(** Reading an entry for the processor does not change the world. *)
Lemma extractOutboxEntry_reads (message : DlqMessage) (w : World) :
  snd (DLQProcessor.extractOutboxEntry message w) = w.
Proof.
  unfold DLQProcessor.extractOutboxEntry, OutboxService.getOutboxEntry,
    bind, try_catch, DynamoDB.get, ret, throw.
  destruct (recordImage message); [reflexivity|].
  destruct (Js.truthy (Js.get "outboxId" (properties message))).
  - destruct (Js.get "outboxId" (properties message)); try reflexivity.
    cbn. now destruct (table w !! s).
  - now destruct (Js.truthy (Js.get "id" (properties message))).
Qed.




End Escalation.

(** ** Stream dispatcher *)

Section Dispatch.
Context `{JsBuiltins}.


Lemma bind_clock {A : Type} (k : Z -> Async World A) (w : World) :
  (today <- clock;; k today) w = k (now w) w.
Proof. reflexivity. Qed.

Lemma date_after_false (v : JsVal) (today : Z) :
  Js.date_after v today = false ->
  forall t : Z, DateTime v = Some t -> t <= today.
Proof.
  unfold Js.date_after. intros Hd t Ht. rewrite Ht in Hd.
  apply Z.ltb_ge in Hd. exact Hd.
Qed.

Lemma date_after_true (v : JsVal) (today t : Z) :
  DateTime v = Some t -> today < t -> Js.date_after v today = true.
Proof.
  unfold Js.date_after. intros -> Hlt. now apply Z.ltb_lt.
Qed.

(** C5. The dispatcher starts delivery (the retried
    [processOutboxEntry]) exactly for an insert record whose entry is
    [pending] and whose [scheduledAt] is absent or not in the future;
    for any other record it does nothing at all.  In particular a
    record whose entry is scheduled for later leaves the world as it
    was: no status change, no error, no provider call. *)
Theorem processRecord_dispatch_guard (record : StreamRecord) (w : World) :
  let run := StreamProcessor.processRecord record w in
  ((exists image : Image,
       eligible record w image
       /\ run = RetryHelper.retryWithBackoff
                  (NotificationService.processOutboxEntry
                     (convertDynamoDBRecord image);;; ret tt) w)
   \/ ((forall image : Image, ~ eligible record w image)
       /\ run = (Ok tt, w)))
  /\ (forall image : Image,
        imageOf record = Some image ->
        scheduled_later (convertDynamoDBRecord image) (now w) ->
        run = (Ok tt, w) /\ sent (snd run) = sent w /\ table (snd run) = table w).
Proof.
  cbn zeta. unfold StreamProcessor.processRecord. fold (imageOf record).
  split.
  - destruct (String.eqb_spec (eventName record) "INSERT") as [Hev|Hev].
    2:{ right. split; [|reflexivity]. intros image (He & _). contradiction. }
    destruct (imageOf record) as [image|] eqn:Himg.
    2:{ right. split; [|reflexivity]. intros image (_ & Hi & _). congruence. }
    destruct (Js.is_string "pending" (Js.get "status" (convertDynamoDBRecord image)))
      eqn:Hst; cbn [negb].
    2:{ right. split; [|reflexivity]. intros image' (_ & Hi & Hs & _).
        rewrite Himg in Hi. inversion Hi; subst image'.
        apply is_string_true in Hs. congruence. }
    apply is_string_true in Hst.
    rewrite bind_clock.
    destruct (Js.truthy (Js.get "scheduledAt" (convertDynamoDBRecord image)))
      eqn:Htr; cbn [andb].
    + destruct (Js.date_after (Js.get "scheduledAt" (convertDynamoDBRecord image)) (now w))
        eqn:Hda.
      * right. split; [|reflexivity].
        intros image' (_ & Hi & _ & [Hu | [Hd _]]);
          rewrite Himg in Hi; inversion Hi; subst image'.
        -- unfold unscheduled in Hu. congruence.
        -- congruence.
      * left. exists image. split; [|reflexivity].
        repeat split; auto. right. split; [exact Hda|].
        now apply date_after_false.
    + left. exists image. split; [|reflexivity].
      repeat split; auto.
  - intros image Himg (Htr & t & Ht & Hlt). rewrite Himg.
    destruct (eventName record =? "INSERT")%string; [|now repeat split].
    destruct (Js.is_string "pending" (Js.get "status" (convertDynamoDBRecord image)));
      cbn [negb]; [|now repeat split].
    rewrite bind_clock, Htr, (date_after_true _ _ _ Ht Hlt).
    now repeat split.
Qed.

End Dispatch.

(** ** The retry counter across operations *)

Section RetryCounter.
Context `{JsBuiltins}.


Lemma grows_refl (t : gmap string Obj) : grows t t.
Proof.
  intros id item Hitem. exists item. repeat split; auto.
  intros n Hn. exists n. split; [lia | exact Hn].
Qed.

Lemma grows_trans (t1 t2 t3 : gmap string Obj) :
  grows t1 t2 -> grows t2 t3 -> grows t1 t3.
Proof.
  intros H12 H23 id item Hitem.
  destruct (H12 id item Hitem) as (item2 & Hi2 & Hm2 & Hc2 & Hn2).
  destruct (H23 id item2 Hi2) as (item3 & Hi3 & Hm3 & Hc3 & Hn3).
  exists item3. repeat split; try congruence.
  intros n Hn. destruct (Hn2 n Hn) as (n2 & Hle2 & Hr2).
  destruct (Hn3 n2 Hr2) as (n3 & Hle3 & Hr3).
  exists n3. split; [lia | exact Hr3].
Qed.

Lemma advances_refl (w : World) : advances w w.
Proof. split; [apply grows_refl | auto]. Qed.

Lemma advances_trans (w1 w2 w3 : World) :
  advances w1 w2 -> advances w2 w3 -> advances w1 w3.
Proof.
  intros [G12 C12] [G23 C23]. split; [eapply grows_trans; eauto | auto].
Qed.

Lemma advances_same_table (w w' : World) : table w' = table w -> advances w w'.
Proof. intros Ht. unfold advances. rewrite Ht. split; [apply grows_refl | auto]. Qed.


Lemma safe_ret {A : Type} (a : A) : safe (ret a).
Proof. intros w. apply advances_refl. Qed.

Lemma safe_throw {A : Type} (e : JsError) : safe (@throw World A e).
Proof. intros w. apply advances_refl. Qed.

Lemma safe_lift {A : Type} (r : Result A) : safe (lift r).
Proof. intros w. apply advances_refl. Qed.

Lemma safe_clock : safe clock.
Proof. intros w. apply advances_refl. Qed.

Lemma safe_provider_send (command : ProviderCall) : safe (provider_send command).
Proof. intros w. now apply advances_same_table. Qed.

Lemma safe_incrementCounter (metricName : string) (dimensions : Obj) :
  safe (MetricsService.incrementCounter metricName dimensions).
Proof. intros w. now apply advances_same_table. Qed.

Lemma safe_bind {A B : Type} (c : Async World A) (k : A -> Async World B) :
  safe c -> (forall a, safe (k a)) -> safe (bind c k).
Proof.
  intros Hc Hk w. unfold bind. specialize (Hc w).
  destruct (c w) as [[a|e] w1]; cbn in Hc.
  - eapply advances_trans; [exact Hc | apply Hk].
  - exact Hc.
Qed.

Lemma safe_try_catch {A : Type} (body : Async World A)
    (handler : JsError -> Async World A) :
  safe body -> (forall e, safe (handler e)) -> safe (try_catch body handler).
Proof.
  intros Hb Hh w. unfold try_catch. specialize (Hb w).
  destruct (body w) as [[a|e] w1]; cbn in Hb.
  - exact Hb.
  - eapply advances_trans; [exact Hb | apply Hh].
Qed.

Lemma safe_attempts {A : Type} (fn : Async World A) (maxRetries : nat)
    (baseDelay maxDelay factor : Q) (jitter : bool) :
  safe fn ->
  forall remaining attempt : nat,
    safe (RetryHelper.attempts fn maxRetries baseDelay maxDelay factor jitter
            remaining attempt).
Proof.
  intros Hfn. induction remaining as [|k IH]; intros attempt w; cbn;
    pose proof (Hfn w) as Hw; destruct (fn w) as [[v|e] w1]; cbn in Hw;
    try exact Hw;
    (destruct (attempt =? maxRetries)%nat; [exact Hw|]);
    destruct jitter; cbn.
  - eapply advances_trans; [exact Hw | now apply advances_same_table].
  - eapply advances_trans; [exact Hw | now apply advances_same_table].
  - eapply advances_trans; [exact Hw|].
    eapply advances_trans; [|apply IH]. now apply advances_same_table.
  - eapply advances_trans; [exact Hw|].
    eapply advances_trans; [|apply IH]. now apply advances_same_table.
Qed.



(** Writing one item advances the world when the item keeps
    [maxRetries] and the content and does not lower the counter. *)
Lemma advances_insert (w : World) (id : string) (item' : Obj) :
  (forall item, table w !! id = Some item ->
     Js.get "maxRetries" item' = Js.get "maxRetries" item
     /\ Js.get "content" item' = Js.get "content" item
     /\ (forall n : Z, Js.get "retryCount" item = JNum n ->
           exists n' : Z, n <= n' /\ Js.get "retryCount" item' = JNum n')) ->
  (counts_ok (table w) -> count_ok item') ->
  advances w (with_table (<[id := item']> (table w)) w).
Proof.
  intros Hkeep Hcount. split; cbn.
  - intros id0 item Hitem. destruct (decide (id = id0)) as [<-|Hne].
    + exists item'. rewrite lookup_insert_eq. split; [reflexivity|].
      now apply Hkeep.
    + exists item. rewrite lookup_insert_ne by exact Hne.
      split; [exact Hitem|]. repeat split; auto.
      intros n Hn. exists n. split; [lia | exact Hn].
  - intros Hok id0 item0. destruct (decide (id = id0)) as [<-|Hne].
    + rewrite lookup_insert_eq. intros [= <-]. now apply Hcount.
    + rewrite lookup_insert_ne by exact Hne. apply Hok.
Qed.

Lemma safe_updateOutboxEntryStatus (outboxId status error result : JsVal) :
  safe (NotificationService.updateOutboxEntryStatus outboxId status error result).
Proof.
  intros w. destruct (Js.truthy result) eqn:Hr.
  { rewrite updateOutboxEntryStatus_result by exact Hr. apply advances_refl. }
  rewrite updateOutboxEntryStatus_no_result by exact Hr.
  destruct outboxId as [| |b|n| |id|items|fields]; try apply advances_refl.
  cbn zeta. unfold DynamoDB.assign.
  destruct (table w !! id) as [item|] eqn:Hitem; cbv [default from_option Datatypes.id].
  - destruct (Js.truthy error) eqn:He.
    + destruct (Js.get "retryCount" item) eqn:Hrc; cbn [snd app fold_left];
        try apply advances_refl; apply advances_insert.
      * intros item0 Hitem0; rewrite Hitem in Hitem0;
          inversion Hitem0; subst item0; clear Hitem0.
        split; [read_back|]; split; [read_back|].
        intros n0 Hn0; rewrite Hrc in Hn0; inversion Hn0; subst n0.
        exists (n + 1); split; [lia | read_back].
      * intros Hok; destruct (Hok id item Hitem) as [Hu | (n0 & Hn0 & Hq)];
          [congruence|].
        rewrite Hrc in Hq; inversion Hq; subst n0.
        right; exists (n + 1); split; [lia | read_back].
    + cbn [snd fold_left]. apply advances_insert.
      * intros item0 Hitem0; rewrite Hitem in Hitem0;
          inversion Hitem0; subst item0; clear Hitem0.
        split; [read_back|]; split; [read_back|].
        intros n0 Hn0; exists n0; split; [lia | read_back; exact Hn0].
      * intros Hok; unfold count_ok; read_back; exact (Hok id item Hitem).
  - destruct (Js.truthy error) eqn:He; cbn;
      try apply advances_refl; apply advances_insert.
    + intros item0 Hitem0; rewrite Hitem in Hitem0; discriminate Hitem0.
    + intros _; left; read_back.
Qed.


Lemma safe_exponentialBackoff {A : Type} (fn : Async World A) (maxRetries : nat)
    (baseDelay maxDelay factor : Q) (jitter : bool) :
  safe fn ->
  safe (RetryHelper.exponentialBackoff fn maxRetries baseDelay maxDelay factor jitter).
Proof. intros Hfn. now apply safe_attempts. Qed.

Lemma safe_withRetry {A : Type} (operation : Async World A)
    (options : RetryHelper.Options) :
  safe operation -> safe (RetryHelper.withRetry operation options).
Proof.
  intros Hop w. rewrite RetryFacts.withRetry_ignores_retryCondition.
  now apply safe_exponentialBackoff.
Qed.

Lemma safe_get (key : JsVal) : safe (DynamoDB.get key).
Proof. intros w. unfold DynamoDB.get. destruct key; apply advances_refl. Qed.

End RetryCounter.

Create HintDb safe.
#[export] Hint Resolve safe_ret safe_throw safe_lift safe_clock safe_provider_send
  safe_incrementCounter safe_updateOutboxEntryStatus safe_get
  safe_exponentialBackoff safe_withRetry : safe.

(** One step of a safety proof: follow the structure of the code. *)
Ltac safe_step :=
  match goal with
  | |- safe (bind _ _) => apply safe_bind; [|intros ?]
  | |- safe (try_catch _ _) => apply safe_try_catch; [|intros ?]
  | |- safe (if ?b then _ else _) => destruct b
  | |- safe (match ?x with _ => _ end) => destruct x
  | |- safe _ => solve [auto with safe]
  end.

Section SafeServices.
Context `{JsBuiltins}.

Lemma safe_sendEmail (recipient content : JsVal) :
  safe (NotificationService.sendEmail recipient content).
Proof. unfold NotificationService.sendEmail. repeat safe_step. Qed.

Lemma safe_sendSMS (recipient content : JsVal) :
  safe (NotificationService.sendSMS recipient content).
Proof. unfold NotificationService.sendSMS. repeat safe_step. Qed.

Hint Resolve safe_sendEmail safe_sendSMS : safe.

Lemma safe_processOutboxEntry (outboxEntry : Obj) :
  safe (NotificationService.processOutboxEntry outboxEntry).
Proof. unfold NotificationService.processOutboxEntry. repeat safe_step. Qed.

Lemma safe_OutboxService_update (outboxId status error : JsVal) :
  safe (OutboxService.updateOutboxEntryStatus outboxId status error).
Proof.
  intros w. rewrite OutboxService_update_same. apply safe_updateOutboxEntryStatus.
Qed.

Lemma safe_getOutboxEntry (outboxId : JsVal) :
  safe (OutboxService.getOutboxEntry outboxId).
Proof. unfold OutboxService.getOutboxEntry. repeat safe_step. Qed.

Hint Resolve safe_processOutboxEntry safe_OutboxService_update
  safe_getOutboxEntry : safe.

Lemma safe_requeueFailedNotification (outboxId : JsVal) :
  safe (OutboxService.requeueFailedNotification outboxId).
Proof. unfold OutboxService.requeueFailedNotification. repeat safe_step. Qed.

Lemma safe_processRecord (record : StreamRecord) :
  safe (StreamProcessor.processRecord record).
Proof.
  unfold StreamProcessor.processRecord, RetryHelper.retryWithBackoff.
  repeat safe_step.
  apply safe_withRetry. repeat safe_step.
Qed.

Lemma safe_processMessage (record : SqsRecord) :
  safe (DLQProcessor.processMessage record).
Proof.
  unfold DLQProcessor.processMessage, DLQProcessor.extractOutboxEntry,
    DLQProcessor.markAsPermanentlyFailed, DLQProcessor.retryNotification.
  repeat safe_step.
  apply safe_exponentialBackoff. repeat safe_step.
Qed.

Lemma safe_retryFailedNotifications (maxRetries : JsVal) :
  safe (NotificationService.retryFailedNotifications maxRetries).
Proof. unfold NotificationService.retryFailedNotifications. repeat safe_step. Qed.

End SafeServices.

Section CounterInvariant.
Context `{JsBuiltins}.


Lemma storeInOutbox_table (notification : Obj) (renderedContent : JsVal) (w : World) :
  exists entry : Obj,
    table (snd (NotificationService.storeInOutbox notification renderedContent w))
    = <[uuids w (issued w) := entry]> (table w)
    /\ Js.get "retryCount" entry = JNum 0.
Proof. eexists. split; reflexivity. Qed.

Lemma perform_counts_ok (op : Operation) (w : World) :
  counts_ok (table w) -> counts_ok (table (perform op w)).
Proof.
  destruct op as [notification content|record|record|outboxId|maxRetries
                 |outboxId status error result]; cbn [perform].
  - destruct (storeInOutbox_table notification content w) as (entry & -> & Hrc).
    intros Hok id item. destruct (decide (uuids w (issued w) = id)) as [<-|Hne].
    + rewrite lookup_insert_eq. intros [= <-]. right. exists 0. split; [lia | exact Hrc].
    + rewrite lookup_insert_ne by exact Hne. apply Hok.
  - apply (safe_processRecord record w).
  - apply (safe_processMessage record w).
  - apply (safe_requeueFailedNotification outboxId w).
  - apply (safe_retryFailedNotifications maxRetries w).
  - apply (safe_updateOutboxEntryStatus outboxId status error result w).
Qed.

Lemma perform_grows (op : Operation) (w : World) :
  fresh_id op w -> grows (table w) (table (perform op w)).
Proof.
  destruct op as [notification content|record|record|outboxId|maxRetries
                 |outboxId status error result]; cbn [perform fresh_id].
  - intros Hfresh.
    destruct (storeInOutbox_table notification content w) as (entry & -> & _).
    intros id item Hitem. exists item.
    rewrite lookup_insert_ne by congruence.
    split; [exact Hitem|]. repeat split; auto.
    intros n Hn. exists n. split; [lia | exact Hn].
  - intros _. apply (safe_processRecord record w).
  - intros _. apply (safe_processMessage record w).
  - intros _. apply (safe_requeueFailedNotification outboxId w).
  - intros _. apply (safe_retryFailedNotifications maxRetries w).
  - intros _. apply (safe_updateOutboxEntryStatus outboxId status error result w).
Qed.

(** C1 (as the code has it). In every state reached from an empty
    table by enqueue, dispatch, escalation, requeue, retry and
    status-update operations a stored [retryCount] is a non-negative
    integer (or missing, on a record created by a bare status update).
    No operation lowers the [retryCount] of an existing entry or
    rewrites its [maxRetries] or its rendered content; nothing caps the
    counter at [maxRetries]. *)
Theorem retryCount_only_grows :
  (forall (ops : list Operation) (w : World),
      table w = ∅ -> counts_ok (table (performAll ops w)))
  /\ (forall (op : Operation) (w : World),
        fresh_id op w -> grows (table w) (table (perform op w))).
Proof.
  split; [|exact perform_grows].
  intros ops w Hempty.
  assert (Hinit : counts_ok (table w)).
  { intros id item. rewrite Hempty, lookup_empty. discriminate. }
  clear Hempty. revert w Hinit.
  induction ops as [|op ops IH]; intros w Hinit; cbn; [exact Hinit|].
  apply IH. now apply perform_counts_ok.
Qed.

End CounterInvariant.

(** * Further properties *)

(** ** Retry helper *)

Section RetryEngineMore.
Context {S A : Type} `{RetryHelper.Timers S}.
Variable op : Async S A.
Variables (maxRetries : nat) (baseDelay maxDelay factor : Q) (jitter : bool).
Variable s : S.

#[local] Abbreviation run :=
  (RetryHelper.exponentialBackoff (RetryHelper.traced op) maxRetries
     baseDelay maxDelay factor jitter (s, RetryHelper.noTrace)).


Lemma totalDelay_bound (delays : list Q) (bound : Q) :
  Forall (fun q => (q <= bound)%Q) delays ->
  (totalDelay delays <= inject_Z (Z.of_nat (length delays)) * bound)%Q.
Proof.
  induction 1 as [|q l Hq _ IH]; cbn [totalDelay fold_right length].
  - change (inject_Z (Z.of_nat 0)) with 0%Q. lra.
  - fold (totalDelay l). rewrite Nat2Z.inj_succ. unfold Z.succ.
    rewrite inject_Z_plus. change (inject_Z 1) with 1%Q.
    set (k := inject_Z (Z.of_nat (length l))) in *. lra.
Qed.

(** X2. With a non-negative [maxDelay] (and random draws in [0, 1)
    when jitter is on) no single sleep is longer than [maxDelay], and
    a whole run waits at most [maxRetries * maxDelay]. *)
Theorem exponentialBackoff_total_delay :
  (0 <= maxDelay)%Q ->
  (jitter = true -> RetrySpec.random_in_range (S:=S)) ->
  let slept := RetryHelper.sleeps (snd (snd run)) in
  Forall (fun q => (q <= maxDelay)%Q) slept
  /\ (totalDelay slept <= inject_Z (Z.of_nat maxRetries) * maxDelay)%Q.
Proof.
  intros Hmax Hrand. cbn zeta.
  pose proof (RetryFacts.exponentialBackoff_traced op maxRetries baseDelay
                maxDelay factor jitter s) as Hshape.
  destruct Hshape as (earlier & delays & _ & Hs & _ & Hc & _ & Hl & Hd).
  cbn in Hs. rewrite Hs.
  assert (Hall : Forall (fun q => (q <= maxDelay)%Q) delays).
  { apply Forall_lookup. intros i q Hq. specialize (Hd i q Hq).
    unfold RetrySpec.delay_after in Hd.
    pose proof (RetryFacts.backoffDelay_capped baseDelay maxDelay factor (0 + i)) as Hcap.
    destruct jitter.
    - destruct Hd as [s0 ->]. destruct (Hrand eq_refl s0) as [H0 H1].
      unfold RetryHelper.withJitter.
      set (d := RetryHelper.backoffDelay baseDelay maxDelay factor (0 + i)) in *.
      set (r := fst (RetryHelper.random s0)) in *.
      destruct (Qlt_le_dec d 0) as [Hneg|Hpos]; nra.
    - subst q. exact Hcap. }
  split; [exact Hall|].
  eapply Qle_trans; [apply totalDelay_bound; exact Hall|].
  apply Qmult_le_compat_r; [|exact Hmax].
  rewrite <- Zle_Qle. lia.
Qed.

(** X3. The retry condition passed to [withRetry] has no influence on
    the run: whatever predicate is supplied, the result and the final
    state are those of the plain backoff loop. *)
Theorem withRetry_condition_irrelevant
    (options : RetryHelper.Options) (condition : JsError -> bool) :
  RetryHelper.withRetry op options s
  = RetryHelper.withRetry op
      {| RetryHelper.maxRetries := RetryHelper.maxRetries options;
         RetryHelper.baseDelay := RetryHelper.baseDelay options;
         RetryHelper.maxDelay := RetryHelper.maxDelay options;
         RetryHelper.factor := RetryHelper.factor options;
         RetryHelper.jitter := RetryHelper.jitter options;
         RetryHelper.retryCondition := condition |} s.
Proof. now rewrite !RetryFacts.withRetry_ignores_retryCondition. Qed.

End RetryEngineMore.

(** *** Classification of errors *)

Lemma prefix_occurs (p s : string) :
  String.prefix p s = true <-> exists post : string, s = p +:+ post.
Proof.
  revert s. induction p as [|c p IH]; intros s.
  - split; [intros _; now exists s | now destruct s].
  - destruct s as [|c' s]; cbn [String.prefix].
    + split; [discriminate | intros [post Hpost]; discriminate Hpost].
    + destruct (ascii_dec c c') as [->|Hne].
      * rewrite IH. split; intros [post Hpost]; exists post.
        -- now rewrite append_cons, Hpost.
        -- rewrite append_cons in Hpost. now inversion Hpost.
      * split; [discriminate|].
        intros [post Hpost]. rewrite append_cons in Hpost. congruence.
Qed.

Lemma includes_occurs (code s : string) :
  JsString.includes code s = true <-> occurs code s.
Proof.
  unfold occurs. induction s as [|c s IH]; cbn [JsString.includes].
  - rewrite orb_false_r, prefix_occurs. split.
    + intros [post Hpost]. now exists EmptyString, post.
    + intros (pre & post & Hs). destruct pre; [now exists post|discriminate Hs].
  - rewrite orb_true_iff, prefix_occurs, IH. split.
    + intros [[post Hpost] | (pre & post & Hs)].
      * now exists EmptyString, post.
      * exists (String c pre), post. now rewrite append_cons, Hs.
    + intros (pre & post & Hs). destruct pre as [|c' pre].
      * left. now exists post.
      * right. rewrite append_cons in Hs. inversion Hs. now exists pre, post.
Qed.

(** X4. An error is classified retryable exactly when one of the ten
    listed codes occurs as a substring of its name (of its constructor's
    name when the name is empty) or of its message. *)
Theorem isRetryableError_occurs (error : JsError) :
  RetryHelper.isRetryableError error = true
  <-> exists code : string,
        In code RetryHelper.retryableErrors
        /\ (occurs code (errorName error) \/ occurs code (message error)).
Proof.
  unfold RetryHelper.isRetryableError. fold (errorName error).
  replace (if JsString.truthy (message error) then message error else EmptyString)
    with (message error) by (now destruct (message error)).
  rewrite existsb_exists. split; intros (code & Hin & Hocc); exists code;
    (split; [exact Hin|]).
  - apply orb_true_iff in Hocc. now rewrite <- !includes_occurs.
  - apply orb_true_iff. now rewrite !includes_occurs.
Qed.

(** ** Conversion of a whole image *)

Lemma get_fold_set_other {V : Type} (f : V -> JsVal) (k : string)
    (kvs : list (string * V)) (acc : Obj) :
  ~ In k (map fst kvs) ->
  Js.get k (fold_left (fun o '(k', v) => Js.set k' (f v) o) kvs acc) = Js.get k acc.
Proof.
  revert acc. induction kvs as [|[k0 v0] kvs IH]; intros acc Hk; cbn in *.
  - reflexivity.
  - rewrite IH by tauto. apply get_set_ne. intros ->. tauto.
Qed.

Lemma get_fold_set_in {V : Type} (f : V -> JsVal) (k : string) (v : V)
    (kvs : list (string * V)) (acc : Obj) :
  NoDup (map fst kvs) -> In (k, v) kvs ->
  Js.get k (fold_left (fun o '(k', v) => Js.set k' (f v) o) kvs acc) = f v.
Proof.
  revert acc. induction kvs as [|[k0 v0] kvs IH]; intros acc Hnd Hin; cbn in *.
  - contradiction.
  - apply NoDup_cons in Hnd as [Hk0 Hnd]. destruct Hin as [[= -> ->] | Hin].
    + rewrite get_fold_set_other; [apply get_set_eq|].
      intros Hk. apply Hk0. now apply list_elem_of_In.
    + now apply IH.
Qed.

Section ImageFacts.
Context `{JsBuiltins}.

(** X5. For an image whose attribute names are distinct and in which
    no attribute, at any depth, is named [__proto__]: converting it
    gives an object in which each attribute name holds the conversion
    of its attribute, and every other name that is not inherited from
    [Object.prototype] is [undefined]; the same holds, one level
    down, for the members of an M attribute. *)
Theorem convertDynamoDBRecord_lookup (image : Image) :
  NoDup (map fst image) ->
  proto_free (AV_M image) = true ->
  (forall (k : string) (v : AttributeValue),
      In (k, v) image ->
      k <> "__proto__"
      /\ Js.get k (convertDynamoDBRecord image) = convertDynamoDBValue v
      /\ member k (convertDynamoDBValue (AV_M image)) = convertDynamoDBValue v)
  /\ (forall k : string,
        ~ In k (map fst image) ->
        ~ In k inheritedNames ->
        Js.get k (convertDynamoDBRecord image) = JUndefined
        /\ member k (convertDynamoDBValue (AV_M image)) = JUndefined).
Proof.
  intros Hnd Hfree. split.
  - intros k v Hin. split; [|split].
    + cbn [proto_free] in Hfree. rewrite forallb_forall in Hfree.
      specialize (Hfree (k, v) Hin). cbn in Hfree.
      apply andb_prop in Hfree as [Hk _].
      intros ->. discriminate Hk.
    + now apply (get_fold_set_in convertDynamoDBValue).
    + cbn [convertDynamoDBValue member].
      now apply (get_fold_set_in convertDynamoDBValue).
  - intros k Hk _. split.
    + now apply (get_fold_set_other convertDynamoDBValue).
    + cbn [convertDynamoDBValue member].
      now apply (get_fold_set_other convertDynamoDBValue).
Qed.

End ImageFacts.

(** ** Provider calls *)

Section Sends.
Context `{JsBuiltins}.

Lemma sends_le_weaken {A : Type} (n m : nat) (c : Async World A) :
  (n <= m)%nat -> sends_le n c -> sends_le m c.
Proof.
  intros Hnm Hc w. destruct (Hc w) as (calls & Hs & Hl).
  exists calls. split; [exact Hs | lia].
Qed.

Lemma sends_le_same {A : Type} (c : Async World A) :
  (forall w, sent (snd (c w)) = sent w) -> sends_le 0 c.
Proof. intros Hc w. exists []. rewrite Hc, app_nil_r. split; [reflexivity | cbn; lia]. Qed.

Lemma sends_le_bind {A B : Type} (a b : nat) (c : Async World A)
    (k : A -> Async World B) :
  sends_le a c -> (forall x, sends_le b (k x)) -> sends_le (a + b) (bind c k).
Proof.
  intros Hc Hk w. unfold bind. destruct (Hc w) as (calls & Hs & Hl).
  destruct (c w) as [[x|e] w1]; cbn in Hs.
  - destruct (Hk x w1) as (calls' & Hs' & Hl').
    exists (calls ++ calls'). rewrite Hs', Hs, app_assoc, length_app.
    split; [reflexivity | lia].
  - exists calls. cbn. split; [exact Hs | lia].
Qed.

Lemma sends_le_try_catch {A : Type} (a b : nat) (body : Async World A)
    (handler : JsError -> Async World A) :
  sends_le a body -> (forall e, sends_le b (handler e)) ->
  sends_le (a + b) (try_catch body handler).
Proof.
  intros Hb Hh w. unfold try_catch. destruct (Hb w) as (calls & Hs & Hl).
  destruct (body w) as [[x|e] w1]; cbn in Hs.
  - exists calls. cbn. split; [exact Hs | lia].
  - destruct (Hh e w1) as (calls' & Hs' & Hl').
    exists (calls ++ calls'). rewrite Hs', Hs, app_assoc, length_app.
    split; [reflexivity | lia].
Qed.

Lemma sends_le_attempts {A : Type} (fn : Async World A) (maxRetries : nat)
    (baseDelay maxDelay factor : Q) (jitter : bool) (n : nat) :
  sends_le n fn ->
  forall remaining attempt : nat,
    sends_le (n * (remaining + 1))
      (RetryHelper.attempts fn maxRetries baseDelay maxDelay factor jitter
         remaining attempt).
Proof.
  intros Hfn. induction remaining as [|k IH]; intros attempt w; cbn;
    destruct (Hfn w) as (calls & Hs & Hl);
    destruct (fn w) as [[v|e] w1]; cbn in Hs.
  - exists calls. split; [exact Hs | lia].
  - exists calls.
    destruct (attempt =? maxRetries)%nat; [split; [exact Hs | lia]|].
    destruct jitter; cbn; (split; [exact Hs | lia]).
  - exists calls. split; [exact Hs | lia].
  - destruct (attempt =? maxRetries)%nat; [exists calls; split; [exact Hs | lia]|].
    destruct jitter; cbn;
      match goal with
      | |- context [RetryHelper.attempts _ _ _ _ _ _ k _ ?w2] =>
          destruct (IH (Datatypes.S attempt) w2) as (calls' & Hs' & Hl');
          assert (Hw2 : sent w2 = sent w1) by reflexivity
      end;
      exists (calls ++ calls'); rewrite Hs', Hw2, Hs, app_assoc, length_app;
      (split; [reflexivity | lia]).
Qed.

End Sends.

Section SendsLeaves.
Context `{JsBuiltins}.

Lemma quiet_ret {A : Type} (a : A) : sends_le 0 (@ret World A a).
Proof. now apply sends_le_same. Qed.

Lemma quiet_throw {A : Type} (e : JsError) : sends_le 0 (@throw World A e).
Proof. now apply sends_le_same. Qed.

Lemma quiet_lift {A : Type} (r : Result A) : sends_le 0 (@lift World A r).
Proof. now apply sends_le_same. Qed.

Lemma quiet_clock : sends_le 0 clock.
Proof. now apply sends_le_same. Qed.

Lemma quiet_uuidv4 : sends_le 0 uuidv4.
Proof. now apply sends_le_same. Qed.

Lemma quiet_incrementCounter (metricName : string) (dimensions : Obj) :
  sends_le 0 (MetricsService.incrementCounter metricName dimensions).
Proof. now apply sends_le_same. Qed.

Lemma quiet_update (cmd : DynamoDB.UpdateCommand) : sends_le 0 (DynamoDB.update cmd).
Proof.
  apply sends_le_same. intros w. unfold DynamoDB.update.
  destruct (find _ _); [reflexivity|].
  destruct (DynamoDB.Key cmd); try reflexivity.
  now destruct (DynamoDB.assignments _ _).
Qed.

Lemma quiet_get (key : JsVal) : sends_le 0 (DynamoDB.get key).
Proof. apply sends_le_same. intros w. unfold DynamoDB.get. now destruct key. Qed.

Lemma quiet_put (item : Obj) : sends_le 0 (DynamoDB.put item).
Proof.
  apply sends_le_same. intros w. unfold DynamoDB.put.
  now destruct (Js.get "id" item).
Qed.

Lemma one_provider_send (command : ProviderCall) : sends_le 1 (provider_send command).
Proof. intros w. exists [command]. split; [reflexivity | cbn; lia]. Qed.

End SendsLeaves.

Create HintDb sends.
#[export] Hint Resolve quiet_ret quiet_throw quiet_lift quiet_clock quiet_uuidv4
  quiet_incrementCounter quiet_update quiet_get quiet_put one_provider_send : sends.

(** Functions that call no provider: follow the structure of the code. *)
Ltac quiet_step :=
  match goal with
  | |- sends_le 0 (bind _ _) => apply (sends_le_bind 0 0); [|intros ?]
  | |- sends_le 0 (try_catch _ _) => apply (sends_le_try_catch 0 0); [|intros ?]
  | |- sends_le 0 (if ?b then _ else _) => destruct b
  | |- sends_le 0 (match ?x with _ => _ end) => destruct x
  | |- sends_le 0 _ => solve [auto with sends]
  end.

Ltac quiet := repeat quiet_step.

(** Functions that call the provider at most [n] times, on one side of
    each sequencing. *)
Ltac sends :=
  match goal with
  | |- sends_le 0 _ => solve [quiet]
  | |- sends_le _ (if ?b then _ else _) => destruct b; sends
  | |- sends_le _ (match ?x with _ => _ end) => destruct x; sends
  | |- sends_le ?n (bind _ _) =>
      first [ apply (sends_le_bind 0 n); [solve [quiet] | intros ?; sends]
            | apply (sends_le_bind n 0); [sends | intros ?; solve [quiet]] ]
  | |- sends_le ?n (try_catch _ _) =>
      first [ apply (sends_le_try_catch 0 n); [solve [quiet] | intros ?; sends]
            | apply (sends_le_try_catch n 0); [sends | intros ?; solve [quiet]] ]
  | |- sends_le ?n _ =>
      first [ solve [auto with sends]
            | apply (sends_le_weaken 0 n); [lia | solve [quiet]] ]
  end.

Section SendBudget.
Context `{JsBuiltins}.

Lemma quiet_updateOutboxEntryStatus (outboxId status error result : JsVal) :
  sends_le 0 (NotificationService.updateOutboxEntryStatus outboxId status error result).
Proof. unfold NotificationService.updateOutboxEntryStatus. quiet. Qed.

Lemma quiet_OutboxService_update (outboxId status error : JsVal) :
  sends_le 0 (OutboxService.updateOutboxEntryStatus outboxId status error).
Proof. unfold OutboxService.updateOutboxEntryStatus. quiet. Qed.

Lemma quiet_getOutboxEntry (outboxId : JsVal) :
  sends_le 0 (OutboxService.getOutboxEntry outboxId).
Proof. unfold OutboxService.getOutboxEntry. quiet. Qed.

Hint Resolve quiet_updateOutboxEntryStatus quiet_OutboxService_update
  quiet_getOutboxEntry : sends.

Lemma one_sendEmail (recipient content : JsVal) :
  sends_le 1 (NotificationService.sendEmail recipient content).
Proof. unfold NotificationService.sendEmail. sends. Qed.

Lemma one_sendSMS (recipient content : JsVal) :
  sends_le 1 (NotificationService.sendSMS recipient content).
Proof. unfold NotificationService.sendSMS. sends. Qed.

Hint Resolve one_sendEmail one_sendSMS : sends.

Lemma one_processOutboxEntry (outboxEntry : Obj) :
  sends_le 1 (NotificationService.processOutboxEntry outboxEntry).
Proof. unfold NotificationService.processOutboxEntry. sends. Qed.

Hint Resolve one_processOutboxEntry : sends.

Lemma one_processOutboxEntry_unit (outboxEntry : Obj) :
  sends_le 1 (NotificationService.processOutboxEntry outboxEntry;;; ret tt).
Proof. sends. Qed.

(** X6. One run of [processOutboxEntry] calls a provider at most once,
    whatever the entry and whatever the provider answers; status
    updates, requeue, enqueue and the marking of permanent failures
    call none. *)
Theorem processOutboxEntry_sends_at_most_once :
  (forall outboxEntry : Obj,
      sends_le 1 (NotificationService.processOutboxEntry outboxEntry))
  /\ (forall outboxId status error result : JsVal,
        sends_le 0 (NotificationService.updateOutboxEntryStatus
                      outboxId status error result))
  /\ (forall outboxId : JsVal,
        sends_le 0 (OutboxService.requeueFailedNotification outboxId))
  /\ (forall (notification : Obj) (renderedContent : JsVal),
        sends_le 0 (NotificationService.storeInOutbox notification renderedContent))
  /\ (forall outboxEntry : Obj,
        sends_le 0 (DLQProcessor.markAsPermanentlyFailed outboxEntry)).
Proof.
  split; [exact one_processOutboxEntry|].
  split; [exact quiet_updateOutboxEntryStatus|].
  split; [|split].
  - intros outboxId. unfold OutboxService.requeueFailedNotification. quiet.
  - intros notification content. unfold NotificationService.storeInOutbox. quiet.
  - intros entry. unfold DLQProcessor.markAsPermanentlyFailed. quiet.
Qed.

Lemma processRecord_sends (record : StreamRecord) :
  sends_le 4 (StreamProcessor.processRecord record).
Proof.
  unfold StreamProcessor.processRecord.
  destruct (eventName record =? "INSERT")%string; [|sends].
  destruct (match dynamodb record with Some data => NewImage data | None => None end);
    [|sends].
  destruct (negb _); [sends|].
  apply (sends_le_bind 0 4); [quiet|]. intros today.
  destruct (_ && _); [sends|].
  intros w. unfold RetryHelper.retryWithBackoff.
  rewrite RetryFacts.withRetry_ignores_retryCondition.
  apply (sends_le_attempts _ 3 _ _ _ _ 1 (one_processOutboxEntry_unit _) 3 0).
Qed.

Lemma processMessage_sends (record : SqsRecord) :
  sends_le 3 (DLQProcessor.processMessage record).
Proof.
  unfold DLQProcessor.processMessage.
  apply (sends_le_try_catch 3 0); [|intros e; quiet].
  apply (sends_le_bind 0 3); [quiet|]. intros message.
  apply (sends_le_bind 0 3).
  { unfold DLQProcessor.extractOutboxEntry. quiet. }
  intros outboxEntry. destruct (Js.ge _ _).
  + apply (sends_le_weaken 0 3); [lia|].
    unfold DLQProcessor.markAsPermanentlyFailed. quiet.
  + apply (sends_le_bind 3 0); [|intros ?; quiet].
    unfold DLQProcessor.retryNotification.
    apply (sends_le_try_catch 3 0); [|intros e; quiet].
    apply (sends_le_attempts _ 2 _ _ _ _ 1 (one_processOutboxEntry_unit _) 2 0).
Qed.

(** X7. One change-feed record makes the dispatcher call a provider at
    most four times (a first attempt and three retries), and one
    dead-letter message makes the escalation processor call it at most
    three times. *)
Theorem provider_calls_per_event :
  (forall record : StreamRecord, sends_le 4 (StreamProcessor.processRecord record))
  /\ (forall record : SqsRecord, sends_le 3 (DLQProcessor.processMessage record)).
Proof. split; [exact processRecord_sends | exact processMessage_sends]. Qed.

End SendBudget.

(** ** Relations kept by every step *)

Section Respects.
Context (R : World -> World -> Prop) `{!TableOrder R}.

Lemma respects_same_table {A : Type} (c : Async World A) :
  (forall w, table (snd (c w)) = table w) -> respects R c.
Proof. intros Hc w. apply order_table, Hc. Qed.

Lemma respects_ret {A : Type} (a : A) : respects R (@ret World A a).
Proof. now apply respects_same_table. Qed.

Lemma respects_throw {A : Type} (e : JsError) : respects R (@throw World A e).
Proof. now apply respects_same_table. Qed.

Lemma respects_lift {A : Type} (r : Result A) : respects R (@lift World A r).
Proof. now apply respects_same_table. Qed.

Lemma respects_clock : respects R clock.
Proof. now apply respects_same_table. Qed.

Lemma respects_uuidv4 : respects R uuidv4.
Proof. now apply respects_same_table. Qed.

Lemma respects_provider_send (command : ProviderCall) :
  respects R (provider_send command).
Proof. now apply respects_same_table. Qed.

Lemma respects_incrementCounter `{JsBuiltins} (metricName : string) (dimensions : Obj) :
  respects R (MetricsService.incrementCounter metricName dimensions).
Proof. now apply respects_same_table. Qed.

Lemma respects_get (key : JsVal) : respects R (DynamoDB.get key).
Proof. apply respects_same_table. intros w. unfold DynamoDB.get. now destruct key. Qed.

Lemma respects_bind {A B : Type} (c : Async World A) (k : A -> Async World B) :
  respects R c -> (forall x, respects R (k x)) -> respects R (bind c k).
Proof.
  intros Hc Hk w. unfold bind. specialize (Hc w).
  destruct (c w) as [[x|e] w1]; cbn in Hc; [|exact Hc].
  eapply order_trans; [exact Hc | apply Hk].
Qed.

Lemma respects_try_catch {A : Type} (body : Async World A)
    (handler : JsError -> Async World A) :
  respects R body -> (forall e, respects R (handler e)) ->
  respects R (try_catch body handler).
Proof.
  intros Hb Hh w. unfold try_catch. specialize (Hb w).
  destruct (body w) as [[x|e] w1]; cbn in Hb; [exact Hb|].
  eapply order_trans; [exact Hb | apply Hh].
Qed.

Lemma respects_attempts {A : Type} (fn : Async World A) (maxRetries : nat)
    (baseDelay maxDelay factor : Q) (jitter : bool) :
  respects R fn ->
  forall remaining attempt : nat,
    respects R (RetryHelper.attempts fn maxRetries baseDelay maxDelay factor
                  jitter remaining attempt).
Proof.
  intros Hfn. induction remaining as [|k IH]; intros attempt w; cbn;
    pose proof (Hfn w) as Hw; destruct (fn w) as [[v|e] w1]; cbn in Hw;
    try exact Hw;
    (destruct (attempt =? maxRetries)%nat; [exact Hw|]);
    destruct jitter; cbn.
  - eapply order_trans; [exact Hw | now apply order_table].
  - eapply order_trans; [exact Hw | now apply order_table].
  - eapply order_trans; [exact Hw|].
    eapply order_trans; [|apply IH]. now apply order_table.
  - eapply order_trans; [exact Hw|].
    eapply order_trans; [|apply IH]. now apply order_table.
Qed.

Lemma respects_exponentialBackoff {A : Type} (fn : Async World A) (maxRetries : nat)
    (baseDelay maxDelay factor : Q) (jitter : bool) :
  respects R fn ->
  respects R (RetryHelper.exponentialBackoff fn maxRetries baseDelay maxDelay
                factor jitter).
Proof. intros Hfn. now apply respects_attempts. Qed.

Lemma respects_withRetry {A : Type} (operation : Async World A)
    (options : RetryHelper.Options) :
  respects R operation -> respects R (RetryHelper.withRetry operation options).
Proof.
  intros Hop w. rewrite RetryFacts.withRetry_ignores_retryCondition.
  now apply respects_exponentialBackoff.
Qed.

End Respects.

Create HintDb respects.
#[export] Hint Resolve respects_ret respects_throw respects_lift respects_clock
  respects_uuidv4 respects_provider_send respects_incrementCounter respects_get
  : respects.

Ltac respects_step :=
  match goal with
  | |- respects _ (bind _ _) => apply respects_bind; [typeclasses eauto| |intros ?]
  | |- respects _ (try_catch _ _) => apply respects_try_catch; [typeclasses eauto| |intros ?]
  | |- respects _ (if ?b then _ else _) => destruct b
  | |- respects _ (match ?x with _ => _ end) => destruct x
  | |- respects _ _ => solve [auto with respects typeclass_instances]
  end.

(** *** The two relations *)

#[export] Instance same_elsewhere_order (key : JsVal) : TableOrder (same_elsewhere key).
Proof.
  split.
  - intros w id _. reflexivity.
  - intros w1 w2 w3 H12 H23 id Hid. now rewrite H23, H12.
  - intros w w' Ht id _. now rewrite Ht.
Qed.

#[export] Instance keeps_keyed_order : TableOrder keeps_keyed.
Proof.
  split.
  - intros w Hk. exact Hk.
  - intros w1 w2 w3 H12 H23 Hk. auto.
  - intros w w' Ht. unfold keeps_keyed. now rewrite Ht.
Qed.

Lemma assignments_names (item : Obj)
    (actions : list (DynamoDB.Path * DynamoDB.Operand))
    (values : list (string * JsVal)) :
  DynamoDB.assignments item actions = Some values ->
  map fst values = map (fun action => DynamoDB.attribute_of (fst action)) actions.
Proof.
  revert values. induction actions as [|[a o] actions IH]; intros values; cbn.
  - now intros [= <-].
  - destruct (DynamoDB.eval item o); [|discriminate].
    destruct (DynamoDB.assignments item actions); [|discriminate].
    intros [= <-]. cbn. f_equal. now apply IH.
Qed.

Lemma get_assign_other (k : string) (item : Obj) (values : list (string * JsVal)) :
  ~ In k (map fst values) -> Js.get k (DynamoDB.assign item values) = Js.get k item.
Proof.
  unfold DynamoDB.assign. revert item.
  induction values as [|[a v] values IH]; intros item Hk; cbn in *; [reflexivity|].
  rewrite IH by tauto. apply get_set_ne. intros ->. tauto.
Qed.

Lemma update_same_elsewhere (cmd : DynamoDB.UpdateCommand) :
  respects (same_elsewhere (DynamoDB.Key cmd)) (DynamoDB.update cmd).
Proof.
  intros w id Hid. unfold DynamoDB.update.
  destruct (find _ _); [reflexivity|].
  destruct (DynamoDB.Key cmd) as [| |b|n| |key|items|fields]; try reflexivity.
  destruct (DynamoDB.assignments _ _); [|reflexivity].
  cbn. apply lookup_insert_ne. congruence.
Qed.

Lemma update_keeps_keyed (cmd : DynamoDB.UpdateCommand) :
  ~ In "id" (map (fun action => DynamoDB.attribute_of (fst action)) (DynamoDB.SET cmd)) ->
  respects keeps_keyed (DynamoDB.update cmd).
Proof.
  intros Hid w Hk. unfold DynamoDB.update.
  destruct (find _ _); [exact Hk|].
  destruct (DynamoDB.Key cmd) as [| |b|n| |key|items|fields]; try exact Hk.
  destruct (DynamoDB.assignments _ _) as [values|] eqn:Ha; [|exact Hk].
  cbn. intros id item. destruct (decide (key = id)) as [<-|Hne].
  - rewrite lookup_insert_eq. intros [= <-].
    rewrite get_assign_other by (rewrite (assignments_names _ _ _ Ha); exact Hid).
    destruct (table w !! key) as [item|] eqn:Hitem; cbn; [now apply Hk | reflexivity].
  - rewrite lookup_insert_ne by exact Hne. apply Hk.
Qed.

Lemma put_same_elsewhere (item : Obj) :
  respects (same_elsewhere (Js.get "id" item)) (DynamoDB.put item).
Proof.
  intros w id Hid. unfold DynamoDB.put.
  destruct (Js.get "id" item) as [| |b|n| |key|items|fields]; try reflexivity.
  cbn. apply lookup_insert_ne. congruence.
Qed.

Lemma put_keeps_keyed (item : Obj) : respects keeps_keyed (DynamoDB.put item).
Proof.
  intros w Hk. unfold DynamoDB.put.
  destruct (Js.get "id" item) as [| |b|n| |key|items|fields] eqn:Hid; try exact Hk.
  cbn. intros id item'. destruct (decide (key = id)) as [<-|Hne].
  - rewrite lookup_insert_eq. now intros [= <-].
  - rewrite lookup_insert_ne by exact Hne. apply Hk.
Qed.

Ltac update_leaf :=
  match goal with
  | |- respects (same_elsewhere _) (DynamoDB.update ?cmd) =>
      apply (update_same_elsewhere cmd)
  | |- respects keeps_keyed (DynamoDB.update _) =>
      apply update_keeps_keyed; cbn;
      repeat match goal with
             | |- context [if ?b then _ else _] => destruct b
             end;
      cbn; intuition discriminate
  end.

Section ServiceFrames.
Context `{JsBuiltins}.

Lemma update_status_same_elsewhere (outboxId status error result : JsVal) :
  respects (same_elsewhere outboxId)
    (NotificationService.updateOutboxEntryStatus outboxId status error result).
Proof.
  unfold NotificationService.updateOutboxEntryStatus.
  repeat respects_step. update_leaf.
Qed.

Lemma update_status_keeps_keyed (outboxId status error result : JsVal) :
  respects keeps_keyed
    (NotificationService.updateOutboxEntryStatus outboxId status error result).
Proof.
  unfold NotificationService.updateOutboxEntryStatus.
  repeat respects_step. update_leaf.
Qed.

Lemma outbox_update_same_elsewhere (outboxId status error : JsVal) :
  respects (same_elsewhere outboxId)
    (OutboxService.updateOutboxEntryStatus outboxId status error).
Proof.
  unfold OutboxService.updateOutboxEntryStatus.
  repeat respects_step. update_leaf.
Qed.

Lemma outbox_update_keeps_keyed (outboxId status error : JsVal) :
  respects keeps_keyed (OutboxService.updateOutboxEntryStatus outboxId status error).
Proof.
  unfold OutboxService.updateOutboxEntryStatus.
  repeat respects_step. update_leaf.
Qed.

Hint Resolve update_status_same_elsewhere update_status_keeps_keyed
  outbox_update_same_elsewhere outbox_update_keeps_keyed : respects.

Lemma sendEmail_respects (R : World -> World -> Prop) `{!TableOrder R}
    (recipient content : JsVal) :
  respects R (NotificationService.sendEmail recipient content).
Proof. unfold NotificationService.sendEmail. repeat respects_step. Qed.

Lemma sendSMS_respects (R : World -> World -> Prop) `{!TableOrder R}
    (recipient content : JsVal) :
  respects R (NotificationService.sendSMS recipient content).
Proof. unfold NotificationService.sendSMS. repeat respects_step. Qed.

Lemma getOutboxEntry_respects (R : World -> World -> Prop) `{!TableOrder R}
    (outboxId : JsVal) :
  respects R (OutboxService.getOutboxEntry outboxId).
Proof. unfold OutboxService.getOutboxEntry. repeat respects_step. Qed.

Hint Resolve sendEmail_respects sendSMS_respects getOutboxEntry_respects : respects.

Lemma processOutboxEntry_same_elsewhere (outboxEntry : Obj) :
  respects (same_elsewhere (Js.get "id" outboxEntry))
    (NotificationService.processOutboxEntry outboxEntry).
Proof. unfold NotificationService.processOutboxEntry. repeat respects_step. Qed.

Lemma processOutboxEntry_keeps_keyed (outboxEntry : Obj) :
  respects keeps_keyed (NotificationService.processOutboxEntry outboxEntry).
Proof. unfold NotificationService.processOutboxEntry. repeat respects_step. Qed.

Hint Resolve processOutboxEntry_same_elsewhere processOutboxEntry_keeps_keyed
  : respects.

Lemma requeue_same_elsewhere (outboxId : JsVal) :
  respects (same_elsewhere outboxId)
    (OutboxService.requeueFailedNotification outboxId).
Proof. unfold OutboxService.requeueFailedNotification. repeat respects_step. Qed.

Lemma requeue_keeps_keyed (outboxId : JsVal) :
  respects keeps_keyed (OutboxService.requeueFailedNotification outboxId).
Proof. unfold OutboxService.requeueFailedNotification. repeat respects_step. Qed.

Lemma processRecord_keeps_keyed (record : StreamRecord) :
  respects keeps_keyed (StreamProcessor.processRecord record).
Proof.
  unfold StreamProcessor.processRecord, RetryHelper.retryWithBackoff.
  repeat respects_step.
  apply respects_withRetry; [typeclasses eauto|]. repeat respects_step.
Qed.

Lemma processRecord_same_elsewhere (record : StreamRecord) (image : Image) :
  imageOf record = Some image ->
  respects (same_elsewhere (Js.get "id" (convertDynamoDBRecord image)))
    (StreamProcessor.processRecord record).
Proof.
  intros Himg. unfold StreamProcessor.processRecord, RetryHelper.retryWithBackoff.
  fold (imageOf record). rewrite Himg.
  repeat respects_step.
  apply respects_withRetry; [typeclasses eauto|]. repeat respects_step.
Qed.

Lemma processMessage_keeps_keyed (record : SqsRecord) :
  respects keeps_keyed (DLQProcessor.processMessage record).
Proof.
  unfold DLQProcessor.processMessage, DLQProcessor.extractOutboxEntry,
    DLQProcessor.markAsPermanentlyFailed, DLQProcessor.retryNotification.
  repeat respects_step.
  apply respects_exponentialBackoff; [typeclasses eauto|]. repeat respects_step.
Qed.

Lemma storeInOutbox_keeps_keyed (notification : Obj) (renderedContent : JsVal) :
  respects keeps_keyed (NotificationService.storeInOutbox notification renderedContent).
Proof.
  unfold NotificationService.storeInOutbox. repeat respects_step.
  apply put_keeps_keyed.
Qed.

Lemma retryFailedNotifications_respects (R : World -> World -> Prop) `{!TableOrder R}
    (maxRetries : JsVal) :
  respects R (NotificationService.retryFailedNotifications maxRetries).
Proof. unfold NotificationService.retryFailedNotifications. repeat respects_step. Qed.

End ServiceFrames.

(** ** Delivery of one entry *)

Section Delivery.
Context `{JsBuiltins}.

Lemma prop_readable (k : string) (content : JsVal) :
  readable content = true -> Js.prop k content = Ok (contentPart k content).
Proof. now destruct content. Qed.

Lemma sendEmail_run (recipient content : JsVal) (w : World) :
  loggable recipient -> readable content = true ->
  let command :=
    SendEmailCommand recipient (contentPart "subject" content)
      (if Js.truthy (contentPart "html" content)
       then Some (contentPart "html" content) else None)
      (contentPart "text" content) in
  NotificationService.sendEmail recipient content w
  = (match provider w (length (sent w)) command with
     | Ok MessageId => Ok (receipt command MessageId)
     | Throw e => Throw e
     end,
     with_sent (sent w ++ [command]) w).
Proof.
  intros Hlog Hread. cbn zeta.
  unfold NotificationService.sendEmail, try_catch, bind, lift, provider_send, ret, throw.
  rewrite !(prop_readable _ _ Hread).
  unfold loggable in Hlog.
  destruct (provider w _ _) as [mid|e];
    destruct (NotificationService.maskSensitiveData recipient);
    try discriminate Hlog; reflexivity.
Qed.

Lemma sendSMS_run (recipient content : JsVal) (w : World) :
  loggable recipient -> readable content = true ->
  let command := PublishCommand recipient (contentPart "text" content) in
  NotificationService.sendSMS recipient content w
  = (match provider w (length (sent w)) command with
     | Ok MessageId => Ok (receipt command MessageId)
     | Throw e => Throw e
     end,
     with_sent (sent w ++ [command]) w).
Proof.
  intros Hlog Hread. cbn zeta.
  unfold NotificationService.sendSMS, try_catch, bind, lift, provider_send, ret, throw.
  rewrite !(prop_readable _ _ Hread).
  unfold loggable in Hlog.
  destruct (provider w _ _) as [mid|e];
    destruct (NotificationService.maskSensitiveData recipient);
    try discriminate Hlog; reflexivity.
Qed.

(** The channel's sender, as one step. *)
Lemma send_run (outboxEntry : Obj) (command : ProviderCall) (w : World) :
  loggable (Js.get "recipient" outboxEntry) ->
  providerCommand outboxEntry = Some command ->
  (if Js.is_string "email" (Js.get "type" outboxEntry)
   then NotificationService.sendEmail (Js.get "recipient" outboxEntry)
          (Js.get "content" outboxEntry)
   else if Js.is_string "sms" (Js.get "type" outboxEntry)
   then NotificationService.sendSMS (Js.get "recipient" outboxEntry)
          (Js.get "content" outboxEntry)
   else throw (newError ("Unsupported notification type: "
                         +:+ ToString (Js.get "type" outboxEntry)))) w
  = (match provider w (length (sent w)) command with
     | Ok MessageId => Ok (receipt command MessageId)
     | Throw e => Throw e
     end,
     with_sent (sent w ++ [command]) w).
Proof.
  intros Hlog Hcmd. unfold providerCommand in Hcmd.
  destruct (readable (Js.get "content" outboxEntry)) eqn:Hread; [|discriminate Hcmd].
  cbn [negb] in Hcmd.
  destruct (Js.is_string "email" (Js.get "type" outboxEntry)).
  - inversion Hcmd; subst command. now apply sendEmail_run.
  - destruct (Js.is_string "sms" (Js.get "type" outboxEntry)); [|discriminate Hcmd].
    inversion Hcmd; subst command. now apply sendSMS_run.
Qed.

End Delivery.

Lemma bind_ok {S A B : Type} (c : Async S A) (k : A -> Async S B) (s s1 : S) (a : A) :
  c s = (Ok a, s1) -> bind c k s = k a s1.
Proof. intros Hc. unfold bind. now rewrite Hc. Qed.

Lemma bind_throw {S A B : Type} (c : Async S A) (k : A -> Async S B) (s s1 : S)
    (e : JsError) :
  c s = (Throw e, s1) -> bind c k s = (Throw e, s1).
Proof. intros Hc. unfold bind. now rewrite Hc. Qed.

Lemma try_catch_ext {S A : Type} (body body' : Async S A)
    (handler : JsError -> Async S A) (s : S) :
  body s = body' s -> try_catch body handler s = try_catch body' handler s.
Proof. intros Hb. unfold try_catch. now rewrite Hb. Qed.

Lemma try_catch_ok {S A : Type} (body : Async S A) (handler : JsError -> Async S A)
    (s s1 : S) (a : A) :
  body s = (Ok a, s1) -> try_catch body handler s = (Ok a, s1).
Proof. intros Hb. unfold try_catch. now rewrite Hb. Qed.

Lemma try_catch_throw {S A : Type} (body : Async S A) (handler : JsError -> Async S A)
    (s s1 : S) (e : JsError) :
  body s = (Throw e, s1) -> try_catch body handler s = handler e s1.
Proof. intros Hb. unfold try_catch. now rewrite Hb. Qed.

Section DeliveryOutcomes.
Context `{JsBuiltins}.

Lemma mask_loggable (recipient : JsVal) (w : World) :
  loggable recipient ->
  exists masked,
    @lift World JsVal (NotificationService.maskSensitiveData recipient) w = (Ok masked, w).
Proof.
  unfold loggable, lift. destruct (NotificationService.maskSensitiveData recipient);
    [eauto | discriminate].
Qed.

End DeliveryOutcomes.

Section DeliveryFailures.
Context `{JsBuiltins}.

Lemma truthy_message (e : JsError) :
  message e <> EmptyString -> Js.truthy (JStr (message e)) = true.
Proof. destruct (message e); [congruence | reflexivity]. Qed.

(** What the [catch] block of [processOutboxEntry] does with an error
    that has a message, on a stored entry with a numeric counter. *)
Lemma failure_recorded_result
    (outboxEntry : Obj) (e : JsError) (w1 : World)
    (id : string) (item : Obj) (n : Z) :
  message e <> EmptyString ->
  Js.get "id" outboxEntry = JStr id ->
  table w1 !! id = Some item ->
  Js.get "retryCount" item = JNum n ->
  exists item' : Obj,
    (NotificationService.updateOutboxEntryStatus (Js.get "id" outboxEntry) (JStr "failed")
       (JStr (message e)) JNull;;;
     MetricsService.incrementCounter "notifications.failed"
       [ ("type", Js.get "type" outboxEntry); ("priority", Js.get "priority" outboxEntry);
         ("errorType", JStr (ctor e)) ];;;
     @throw World JsVal e) w1
    = (Throw e,
       with_metrics
         (metrics w1 ++ [mkMetric "notifications.failed"
                           [("type", ToString (Js.get "type" outboxEntry));
                            ("priority", ToString (Js.get "priority" outboxEntry));
                            ("errorType", ToString (JStr (ctor e)))]])
         (with_table (<[id := item']> (table w1)) w1))
    /\ (Js.get "status" item' = JStr "failed"
        /\ Js.get "error" item' = JStr (message e)
        /\ Js.get "retryCount" item' = JNum (n + 1)
        /\ (forall k : string, k ∉ written -> Js.get k item' = Js.get k item))
    /\ Js.get "result" item' = Js.get "result" item.
Proof.
  intros Hmsg Hid Hitem Hn.
  destruct (updateOutboxEntryStatus_present w1 id item (JStr "failed")
              (JStr (message e)) JNull eq_refl Hitem)
    as (item' & Hupd & Hs & _ & Hframe & Herr & Hres); [eauto|].
  rewrite (truthy_message e Hmsg) in Herr. destruct Herr as [He Hrc].
  exists item'. split; [|split; [repeat split; auto | exact Hres]].
  rewrite Hid. erewrite bind_ok by exact Hupd. reflexivity.
Qed.

Lemma failure_recorded
    (outboxEntry : Obj) (e : JsError) (w1 : World)
    (id : string) (item : Obj) (n : Z) :
  message e <> EmptyString ->
  Js.get "id" outboxEntry = JStr id ->
  table w1 !! id = Some item ->
  Js.get "retryCount" item = JNum n ->
  exists item' : Obj,
    (NotificationService.updateOutboxEntryStatus (Js.get "id" outboxEntry) (JStr "failed")
       (JStr (message e)) JNull;;;
     MetricsService.incrementCounter "notifications.failed"
       [ ("type", Js.get "type" outboxEntry); ("priority", Js.get "priority" outboxEntry);
         ("errorType", JStr (ctor e)) ];;;
     @throw World JsVal e) w1
    = (Throw e,
       with_metrics
         (metrics w1 ++ [mkMetric "notifications.failed"
                           [("type", ToString (Js.get "type" outboxEntry));
                            ("priority", ToString (Js.get "priority" outboxEntry));
                            ("errorType", ToString (JStr (ctor e)))]])
         (with_table (<[id := item']> (table w1)) w1))
    /\ Js.get "status" item' = JStr "failed"
    /\ Js.get "error" item' = JStr (message e)
    /\ Js.get "retryCount" item' = JNum (n + 1)
    /\ (forall k : string, k ∉ written -> Js.get k item' = Js.get k item).
Proof.
  intros Hmsg Hid Hitem Hn.
  destruct (failure_recorded_result outboxEntry e w1 id item n Hmsg Hid Hitem Hn)
    as (item' & Hcatch & Hfacts & _).
  exists item'. split; [exact Hcatch | exact Hfacts].
Qed.

(** The message of the rejection is not empty. *)
Lemma reservedResult_message : message reservedResult <> EmptyString.
Proof. discriminate. Qed.

(** One delivery of a stored entry, whatever the provider answers. *)
Lemma delivery_outcome
    (outboxEntry : Obj) (command : ProviderCall) (w : World)
    (id : string) (item : Obj) (n : Z) :
  loggable (Js.get "recipient" outboxEntry) ->
  ready outboxEntry w ->
  providerCommand outboxEntry = Some command ->
  answers w (length (sent w)) command ->
  Js.get "id" outboxEntry = JStr id ->
  table w !! id = Some item ->
  Js.get "retryCount" item = JNum n ->
  let run := NotificationService.processOutboxEntry outboxEntry w in
  let e := surfaced (provider w (length (sent w)) command) in
  fst run = Throw e
  /\ sent (snd run) = sent w ++ [command]
  /\ metrics (snd run)
     = metrics w ++ [mkMetric "notifications.failed"
                       [("type", ToString (Js.get "type" outboxEntry));
                        ("priority", ToString (Js.get "priority" outboxEntry));
                        ("errorType", ToString (JStr (ctor e)))]]
  /\ now (snd run) = now w
  /\ provider (snd run) = provider w
  /\ exists item' : Obj,
       table (snd run) = <[id := item']> (table w)
       /\ Js.get "status" item' = JStr "failed"
       /\ Js.get "error" item' = JStr (message e)
       /\ Js.get "retryCount" item' = JNum (n + 1)
       /\ Js.get "result" item' = Js.get "result" item
       /\ (forall k : string, k ∉ written -> Js.get k item' = Js.get k item).
Proof.
  intros Hlog Hready Hcmd Hreply Hid Hitem Hn. cbn zeta.
  unfold NotificationService.processOutboxEntry.
  destruct (mask_loggable _ w Hlog) as [masked Hmask].
  set (w1 := with_sent (sent w ++ [command]) w).
  unfold answers in Hreply. unfold ready in Hready.
  pose proof (send_run outboxEntry command w Hlog Hcmd) as Hsend.
  destruct (provider w (length (sent w)) command) as [MessageId|e0] eqn:Hprov;
    cbn [surfaced].
  - destruct (failure_recorded_result outboxEntry reservedResult w1 id item n
                reservedResult_message Hid Hitem Hn)
      as (item' & Hcatch & (Hst & He & Hrc & Hk) & Hres).
    erewrite try_catch_throw.
    2:{ erewrite bind_ok by exact Hmask. rewrite bind_clock, Hready.
        erewrite bind_ok by exact Hsend. fold w1.
        erewrite bind_throw; [reflexivity|].
        apply updateOutboxEntryStatus_result. reflexivity. }
    rewrite Hcatch. cbn. repeat split.
    exists item'. repeat split; assumption.
  - destruct (failure_recorded_result outboxEntry e0 w1 id item n
                Hreply Hid Hitem Hn)
      as (item' & Hcatch & (Hst & He & Hrc & Hk) & Hres).
    erewrite try_catch_throw.
    2:{ erewrite bind_ok by exact Hmask. rewrite bind_clock, Hready.
        erewrite bind_throw by exact Hsend. reflexivity. }
    fold w1. rewrite Hcatch. cbn. repeat split.
    exists item'. repeat split; assumption.
Qed.

(** X9. Delivery that the provider rejects.  Under the conditions of a
    delivery, when the provider answers the command with an error [e]
    that has a message: the same error is rethrown, the command is the
    only provider call, the stored entry gets status [failed], the
    error's message and a retry counter one higher, its other
    attributes stay, and the [notifications.failed] counter is
    published with the error's class. *)
Theorem processOutboxEntry_rejected
    (outboxEntry : Obj) (command : ProviderCall) (w : World)
    (id : string) (item : Obj) (n : Z) (e : JsError) :
  loggable (Js.get "recipient" outboxEntry) ->
  ready outboxEntry w ->
  providerCommand outboxEntry = Some command ->
  provider w (length (sent w)) command = Throw e ->
  message e <> EmptyString ->
  Js.get "id" outboxEntry = JStr id ->
  table w !! id = Some item ->
  Js.get "retryCount" item = JNum n ->
  let run := NotificationService.processOutboxEntry outboxEntry w in
  fst run = Throw e
  /\ sent (snd run) = sent w ++ [command]
  /\ metrics (snd run)
     = metrics w ++ [mkMetric "notifications.failed"
                       [("type", ToString (Js.get "type" outboxEntry));
                        ("priority", ToString (Js.get "priority" outboxEntry));
                        ("errorType", ToString (JStr (ctor e)))]]
  /\ exists item' : Obj,
       table (snd run) = <[id := item']> (table w)
       /\ Js.get "status" item' = JStr "failed"
       /\ Js.get "error" item' = JStr (message e)
       /\ Js.get "retryCount" item' = JNum (n + 1)
       /\ (forall k : string, k ∉ written -> Js.get k item' = Js.get k item).
Proof.
  intros Hlog Hready Hcmd Hreply Hmsg Hid Hitem Hn.
  assert (Hans : answers w (length (sent w)) command).
  { unfold answers. now rewrite Hreply. }
  pose proof (delivery_outcome outboxEntry command w id item n
                Hlog Hready Hcmd Hans Hid Hitem Hn) as Hout.
  cbn zeta in Hout. rewrite Hreply in Hout. cbn [surfaced] in Hout.
  destruct Hout as (Hr & Hs & Hm & _ & _ & item' & Ht & Hst & He & Hrc & _ & Hk).
  cbn zeta. split; [exact Hr|]. split; [exact Hs|]. split; [exact Hm|].
  exists item'. repeat split; assumption.
Qed.

(** X10. An entry of an unsupported channel.  When the entry's type is
    neither [email] nor [sms], a loggable entry that is not held back
    by its schedule reaches no provider: the call throws
    [Unsupported notification type: <type>], and the stored entry is
    marked [failed] with that message and a retry counter one
    higher. *)
Theorem processOutboxEntry_unsupported_type
    (outboxEntry : Obj) (w : World) (id : string) (item : Obj) (n : Z) :
  loggable (Js.get "recipient" outboxEntry) ->
  ready outboxEntry w ->
  Js.is_string "email" (Js.get "type" outboxEntry) = false ->
  Js.is_string "sms" (Js.get "type" outboxEntry) = false ->
  Js.get "id" outboxEntry = JStr id ->
  table w !! id = Some item ->
  Js.get "retryCount" item = JNum n ->
  let run := NotificationService.processOutboxEntry outboxEntry w in
  let e := newError ("Unsupported notification type: "
                     +:+ ToString (Js.get "type" outboxEntry)) in
  fst run = Throw e
  /\ sent (snd run) = sent w
  /\ exists item' : Obj,
       table (snd run) = <[id := item']> (table w)
       /\ Js.get "status" item' = JStr "failed"
       /\ Js.get "error" item' = JStr (message e)
       /\ Js.get "retryCount" item' = JNum (n + 1)
       /\ (forall k : string, k ∉ written -> Js.get k item' = Js.get k item).
Proof.
  intros Hlog Hready Hemail Hsms Hid Hitem Hn. cbn zeta.
  unfold NotificationService.processOutboxEntry.
  destruct (mask_loggable _ w Hlog) as [masked Hmask].
  set (e := newError _).
  assert (Hmsg : message e <> EmptyString).
  { subst e. cbn. rewrite append_cons. discriminate. }
  destruct (failure_recorded outboxEntry e w id item n Hmsg Hid Hitem Hn)
    as (item' & Hcatch & Hfacts).
  erewrite try_catch_throw.
  2:{ erewrite bind_ok by exact Hmask. rewrite bind_clock.
      unfold ready in Hready. rewrite Hready, Hemail, Hsms.
      erewrite bind_throw; reflexivity. }
  fold e. rewrite Hcatch. cbn. repeat split.
  exists item'. split; [reflexivity | exact Hfacts].
Qed.

(** X8. A delivery the provider accepts is recorded as failed.  For a
    stored entry of a supported channel (readable content, loggable
    recipient, no pending schedule, numeric retry counter), when the
    provider accepts the command, the message is sent, but the update
    that should mark the entry [sent] names the reserved word [result]
    and is rejected.  The [catch] block then treats the delivery as
    failed: the entry gets status [failed], the rejection's message as
    [error] and a retry counter one higher, the receipt is not stored,
    [notifications.failed] is published instead of
    [notifications.sent], and the call throws the rejection. *)
Theorem processOutboxEntry_accepted_recorded_failed
    (outboxEntry : Obj) (command : ProviderCall) (w : World)
    (id : string) (item : Obj) (n : Z) (MessageId : JsVal) :
  loggable (Js.get "recipient" outboxEntry) ->
  ready outboxEntry w ->
  providerCommand outboxEntry = Some command ->
  provider w (length (sent w)) command = Ok MessageId ->
  Js.get "id" outboxEntry = JStr id ->
  table w !! id = Some item ->
  Js.get "retryCount" item = JNum n ->
  let run := NotificationService.processOutboxEntry outboxEntry w in
  fst run = Throw reservedResult
  /\ sent (snd run) = sent w ++ [command]
  /\ metrics (snd run)
     = metrics w ++ [mkMetric "notifications.failed"
                       [("type", ToString (Js.get "type" outboxEntry));
                        ("priority", ToString (Js.get "priority" outboxEntry));
                        ("errorType", ToString (JStr "DynamoDBServiceException"))]]
  /\ exists item' : Obj,
       table (snd run) = <[id := item']> (table w)
       /\ Js.get "status" item' = JStr "failed"
       /\ Js.get "error" item' = JStr (message reservedResult)
       /\ Js.get "retryCount" item' = JNum (n + 1)
       /\ Js.get "result" item' = Js.get "result" item
       /\ (forall k : string, k ∉ written -> Js.get k item' = Js.get k item).
Proof.
  intros Hlog Hready Hcmd Hreply Hid Hitem Hn.
  assert (Hans : answers w (length (sent w)) command).
  { unfold answers. now rewrite Hreply. }
  pose proof (delivery_outcome outboxEntry command w id item n
                Hlog Hready Hcmd Hans Hid Hitem Hn) as Hout.
  cbn zeta in Hout. rewrite Hreply in Hout. cbn [surfaced] in Hout.
  destruct Hout as (Hr & Hs & Hm & _ & _ & Hitem').
  cbn zeta. split; [exact Hr|]. split; [exact Hs|]. split; [exact Hm|].
  exact Hitem'.
Qed.

End DeliveryFailures.

Section DeliveryMasked.
Context `{JsBuiltins}.

(** Recording a failure on an entry the table does not hold is
    rejected by the table: the counter to increment does not exist. *)
Lemma failure_on_missing_entry (id : string) (status error result : JsVal) (w : World) :
  table w !! id = None ->
  Js.truthy error = true ->
  Js.truthy result = false ->
  NotificationService.updateOutboxEntryStatus (JStr id) status error result w
  = (Throw (DynamoDB.ValidationException
              "The provided expression refers to an attribute that does not exist in the item"),
     w).
Proof.
  intros Hitem Herr Hres.
  rewrite (updateOutboxEntryStatus_no_result w (JStr id) status error result Hres).
  rewrite Hitem, Herr. reflexivity.
Qed.

(** X11. A failed delivery of an entry that is no longer stored hides
    the provider's error.  When the provider rejects the command with
    an error that has a message and the table holds no entry under
    the id, the attempt to record the failure is itself rejected:
    the caller sees the table's validation error instead of the
    provider's, nothing is written, and no failure counter is
    published. *)
Theorem processOutboxEntry_missing_entry_masks_error
    (outboxEntry : Obj) (command : ProviderCall) (w : World)
    (id : string) (e : JsError) :
  loggable (Js.get "recipient" outboxEntry) ->
  ready outboxEntry w ->
  providerCommand outboxEntry = Some command ->
  provider w (length (sent w)) command = Throw e ->
  message e <> EmptyString ->
  Js.get "id" outboxEntry = JStr id ->
  table w !! id = None ->
  let run := NotificationService.processOutboxEntry outboxEntry w in
  fst run = Throw (DynamoDB.ValidationException
                     "The provided expression refers to an attribute that does not exist in the item")
  /\ sent (snd run) = sent w ++ [command]
  /\ table (snd run) = table w
  /\ metrics (snd run) = metrics w.
Proof.
  intros Hlog Hready Hcmd Hreply Hmsg Hid Hitem. cbn zeta.
  unfold NotificationService.processOutboxEntry.
  destruct (mask_loggable _ w Hlog) as [masked Hmask].
  erewrite try_catch_throw.
  2:{ erewrite bind_ok by exact Hmask. rewrite bind_clock.
      unfold ready in Hready. rewrite Hready.
      erewrite bind_throw; [reflexivity|].
      rewrite (send_run outboxEntry command w Hlog Hcmd), Hreply. reflexivity. }
  erewrite bind_throw.
  2:{ rewrite Hid.
      apply failure_on_missing_entry;
        [exact Hitem | now apply truthy_message | reflexivity]. }
  repeat split.
Qed.

End DeliveryMasked.

(** ** Frame and key invariant of the operations *)

Section OperationFrames.
Context `{JsBuiltins}.

Lemma perform_keeps_keyed (op : Operation) (w : World) :
  keyed (table w) -> keyed (table (perform op w)).
Proof.
  destruct op as [n c|record|record|outboxId|maxRetries|o s e r]; cbn [perform].
  - apply storeInOutbox_keeps_keyed.
  - apply processRecord_keeps_keyed.
  - apply processMessage_keeps_keyed.
  - apply requeue_keeps_keyed.
  - apply (retryFailedNotifications_respects keeps_keyed).
  - apply update_status_keeps_keyed.
Qed.

(** X12. Processing an entry touches no other entry.  Whatever the
    provider answers and however often the delivery is retried,
    [processOutboxEntry], and [processRecord] on a record that carries
    an image, leave every row of the table stored under another id as
    it was: rows are neither changed, nor created, nor removed. *)
Theorem processing_frame (id : string) (w : World) :
  (forall outboxEntry : Obj,
      Js.get "id" outboxEntry <> JStr id ->
      table (snd (NotificationService.processOutboxEntry outboxEntry w)) !! id
      = table w !! id)
  /\ (forall (record : StreamRecord) (image : Image),
        imageOf record = Some image ->
        Js.get "id" (convertDynamoDBRecord image) <> JStr id ->
        table (snd (StreamProcessor.processRecord record w)) !! id = table w !! id).
Proof.
  split.
  - intros outboxEntry Hid.
    now apply (processOutboxEntry_same_elsewhere outboxEntry w).
  - intros record image Himg Hid.
    now apply (processRecord_same_elsewhere record image Himg w).
Qed.

(** X13. Every row is stored under its own id.  If each stored item's
    [id] attribute equals the key it is stored under, this is still so
    after any sequence of operations of the services: entries are put
    under their [id], and no update writes the [id] attribute. *)
Theorem performAll_keeps_keyed (ops : list Operation) (w : World) :
  keyed (table w) -> keyed (table (performAll ops w)).
Proof.
  unfold performAll. revert w.
  induction ops as [|op ops IH]; intros w Hw; cbn [fold_left]; [exact Hw|].
  apply IH. now apply perform_keeps_keyed.
Qed.

End OperationFrames.

(** ** The handlers *)

Section Handlers.
Context `{JsBuiltins}.

Lemma in_world_run {A : Type} (c : Async World A) (s : Cloud) :
  in_world c s
  = (fst (c (world s)),
     {| world := snd (c (world s)); environment := environment s;
        batches := batches s |}).
Proof. reflexivity. Qed.

(** What one pass of the stream handler's loop does to the results. *)
Lemma stream_step (record : StreamRecord) (results : StreamHandler.Results) (s : Cloud) :
  exists results' : StreamHandler.Results,
    StreamHandler.step record results s
    = (Ok results',
       {| world := snd (StreamProcessor.processRecord record (world s));
          environment := environment s; batches := batches s |})
    /\ StreamHandler.processed results' = StreamHandler.processed results + 1
    /\ (if is_throw (fst (StreamProcessor.processRecord record (world s)))
        then StreamHandler.successful results' = StreamHandler.successful results
             /\ StreamHandler.failed results' = StreamHandler.failed results + 1
             /\ length (StreamHandler.errors results')
                = S (length (StreamHandler.errors results))
        else StreamHandler.successful results' = StreamHandler.successful results + 1
             /\ StreamHandler.failed results' = StreamHandler.failed results
             /\ StreamHandler.errors results' = StreamHandler.errors results).
Proof.
  unfold StreamHandler.step, try_catch, bind. rewrite in_world_run.
  destruct (StreamProcessor.processRecord record (world s)) as [[[]|e] w1]; cbn;
    eexists; (split; [reflexivity|]); cbn; repeat split.
  rewrite length_app. cbn. lia.
Qed.

Lemma stream_loop (records : list StreamRecord) :
  forall (results : StreamHandler.Results) (s : Cloud),
  exists (results' : StreamHandler.Results) (calls : list ProviderCall),
    fst (StreamHandler.loop records results s) = Ok results'
    /\ batches (snd (StreamHandler.loop records results s)) = batches s
    /\ sent (world (snd (StreamHandler.loop records results s)))
       = sent (world s) ++ calls
    /\ (length calls <= 4 * length records)%nat
    /\ StreamHandler.processed results'
       = StreamHandler.processed results + Z.of_nat (length records)
    /\ StreamHandler.successful results' + StreamHandler.failed results'
       = StreamHandler.successful results + StreamHandler.failed results
         + Z.of_nat (length records)
    /\ StreamHandler.successful results <= StreamHandler.successful results'
    /\ StreamHandler.failed results <= StreamHandler.failed results'
    /\ Z.of_nat (length (StreamHandler.errors results')) - StreamHandler.failed results'
       = Z.of_nat (length (StreamHandler.errors results)) - StreamHandler.failed results.
Proof.
  induction records as [|record rest IH]; intros results s; cbn [StreamHandler.loop].
  - exists results, []. cbn. rewrite app_nil_r. repeat split; lia.
  - destruct (stream_step record results s) as (r1 & Hstep & Hp & Hcase).
    rewrite (bind_ok _ _ _ _ _ Hstep).
    destruct (IH r1 {| world := snd (StreamProcessor.processRecord record (world s));
                       environment := environment s; batches := batches s |})
      as (r2 & calls2 & Hr & Hb & Hs & Hn & Hp2 & Hsum & Hsu & Hfa & Her).
    destruct (processRecord_sends record (world s)) as (calls1 & Hs1 & Hn1).
    exists r2, (calls1 ++ calls2).
    rewrite Hr, Hb, Hs. cbn [world batches]. rewrite Hs1, <- app_assoc.
    rewrite length_app. cbn [length].
    destruct (is_throw _); destruct Hcase as (H1 & H2 & H3);
      repeat split; try lia; rewrite ?H3 in *; lia.
Qed.

(** X14. The stream handler accounts for every record.  For any batch
    of change-feed records the handler resolves (it never throws);
    [processed] is the number of records, each record is counted once
    as [successful] or [failed], [errors] has one entry per failed
    record, the three counts are published in one batch of metrics,
    and the providers are called at most four times per record. *)
Theorem stream_handler_accounting (Records : list StreamRecord) (s : Cloud) :
  let run := StreamHandler.handler Records s in
  exists (results : StreamHandler.Results) (calls : list ProviderCall),
    fst run = Ok results
    /\ StreamHandler.processed results = Z.of_nat (length Records)
    /\ StreamHandler.successful results + StreamHandler.failed results
       = Z.of_nat (length Records)
    /\ 0 <= StreamHandler.successful results
    /\ StreamHandler.failed results = Z.of_nat (length (StreamHandler.errors results))
    /\ map (fun d => (DatumName d, DatumValue d)) <$> last (batches (snd run))
       = Some [ ("stream.records.processed", StreamHandler.processed results);
                ("stream.records.successful", StreamHandler.successful results);
                ("stream.records.failed", StreamHandler.failed results) ]
    /\ length (batches (snd run)) = S (length (batches s))
    /\ sent (world (snd run)) = sent (world s) ++ calls
    /\ (length calls <= 4 * length Records)%nat.
Proof.
  cbn zeta. unfold StreamHandler.handler.
  set (zero := {| StreamHandler.processed := 0 |}).
  destruct (stream_loop Records zero s)
    as (results & calls & Hr & Hb & Hs & Hn & Hp & Hsum & Hsu & Hfa & Her).
  exists results, calls.
  destruct (StreamHandler.loop Records zero s) as [r s1] eqn:Hloop.
  cbn in Hr, Hb, Hs. subst r.
  rewrite (bind_ok _ _ _ _ _ Hloop).
  cbn. rewrite Hb, last_snoc, length_app. cbn in *.
  repeat split; try lia; try assumption.
Qed.

(** The dead-letter processor turns every error into an outcome. *)
Lemma processMessage_resolves (record : SqsRecord) (w : World) :
  exists outcome : DlqOutcome,
    fst (DLQProcessor.processMessage record w) = Ok outcome.
Proof.
  unfold DLQProcessor.processMessage, try_catch.
  match goal with |- context [match ?body w with _ => _ end] =>
    destruct (body w) as [[outcome|e] w1] end.
  - eauto.
  - destruct (RetryHelper.isRetryableError e); cbn; eauto.
Qed.

Lemma dlq_step (record : SqsRecord) (results : DlqHandler.Results) (s : Cloud) :
  exists results' : DlqHandler.Results,
    DlqHandler.step record results s
    = (Ok results',
       {| world := snd (DLQProcessor.processMessage record (world s));
          environment := environment s; batches := batches s |})
    /\ DlqHandler.processed results' = DlqHandler.processed results + 1
    /\ DlqHandler.errors results' = DlqHandler.errors results
    /\ DlqHandler.successful results <= DlqHandler.successful results'
    /\ DlqHandler.failed results <= DlqHandler.failed results'
    /\ DlqHandler.permanentlyFailed results <= DlqHandler.permanentlyFailed results'
    /\ DlqHandler.successful results' + DlqHandler.failed results'
       + DlqHandler.permanentlyFailed results'
       = DlqHandler.successful results + DlqHandler.failed results
         + DlqHandler.permanentlyFailed results + 1.
Proof.
  unfold DlqHandler.step, try_catch, bind. rewrite in_world_run.
  destruct (processMessage_resolves record (world s)) as [outcome Hok].
  destruct (DLQProcessor.processMessage record (world s)) as [r w1].
  cbn in Hok. subst r. cbn.
  destruct (status outcome =? "success")%string; cbn;
    [|destruct (status outcome =? "permanently_failed")%string; cbn];
    eexists; (split; [reflexivity|]); cbn; repeat split; lia.
Qed.

Lemma dlq_loop (records : list SqsRecord) :
  forall (results : DlqHandler.Results) (s : Cloud),
  exists (results' : DlqHandler.Results) (calls : list ProviderCall),
    fst (DlqHandler.loop records results s) = Ok results'
    /\ batches (snd (DlqHandler.loop records results s)) = batches s
    /\ sent (world (snd (DlqHandler.loop records results s)))
       = sent (world s) ++ calls
    /\ (length calls <= 3 * length records)%nat
    /\ DlqHandler.processed results'
       = DlqHandler.processed results + Z.of_nat (length records)
    /\ DlqHandler.errors results' = DlqHandler.errors results
    /\ DlqHandler.successful results <= DlqHandler.successful results'
    /\ DlqHandler.failed results <= DlqHandler.failed results'
    /\ DlqHandler.permanentlyFailed results <= DlqHandler.permanentlyFailed results'
    /\ DlqHandler.successful results' + DlqHandler.failed results'
       + DlqHandler.permanentlyFailed results'
       = DlqHandler.successful results + DlqHandler.failed results
         + DlqHandler.permanentlyFailed results + Z.of_nat (length records).
Proof.
  induction records as [|record rest IH]; intros results s; cbn [DlqHandler.loop].
  - exists results, []. cbn. rewrite app_nil_r. repeat split; lia.
  - destruct (dlq_step record results s) as (r1 & Hstep & Hp & He & H1 & H2 & H3 & H4).
    rewrite (bind_ok _ _ _ _ _ Hstep).
    destruct (IH r1 {| world := snd (DLQProcessor.processMessage record (world s));
                       environment := environment s; batches := batches s |})
      as (r2 & calls2 & Hr & Hb & Hs & Hn & Hp2 & He2 & G1 & G2 & G3 & G4).
    destruct (processMessage_sends record (world s)) as (calls1 & Hs1 & Hn1).
    exists r2, (calls1 ++ calls2).
    rewrite Hr, Hb, Hs. cbn [world batches]. rewrite Hs1, <- app_assoc.
    rewrite length_app. cbn [length].
    repeat split; try lia; congruence.
Qed.

(** X15. The dead-letter handler never reports an error.  For any
    batch of queue messages the handler resolves; [processMessage]
    turns every failure into an outcome, so [errors] is always empty,
    and each message is counted once as [successful], [failed] or
    [permanentlyFailed]; the four counts are published in one batch of
    metrics, and the providers are called at most three times per
    message. *)
Theorem dlq_handler_accounting (Records : list SqsRecord) (s : Cloud) :
  let run := DlqHandler.handler Records s in
  exists (results : DlqHandler.Results) (calls : list ProviderCall),
    fst run = Ok results
    /\ DlqHandler.errors results = []
    /\ DlqHandler.processed results = Z.of_nat (length Records)
    /\ DlqHandler.successful results + DlqHandler.failed results
       + DlqHandler.permanentlyFailed results = Z.of_nat (length Records)
    /\ 0 <= DlqHandler.successful results
    /\ 0 <= DlqHandler.failed results
    /\ 0 <= DlqHandler.permanentlyFailed results
    /\ map (fun d => (DatumName d, DatumValue d)) <$> last (batches (snd run))
       = Some [ ("dlq.messages.processed", DlqHandler.processed results);
                ("dlq.messages.successful", DlqHandler.successful results);
                ("dlq.messages.failed", DlqHandler.failed results);
                ("dlq.messages.permanently_failed",
                 DlqHandler.permanentlyFailed results) ]
    /\ sent (world (snd run)) = sent (world s) ++ calls
    /\ (length calls <= 3 * length Records)%nat.
Proof.
  cbn zeta. unfold DlqHandler.handler.
  set (zero := {| DlqHandler.processed := 0 |}).
  destruct (dlq_loop Records zero s)
    as (results & calls & Hr & Hb & Hs & Hn & Hp & He & G1 & G2 & G3 & G4).
  exists results, calls.
  destruct (DlqHandler.loop Records zero s) as [r s1] eqn:Hloop.
  cbn in Hr, Hb, Hs. subst r.
  rewrite (bind_ok _ _ _ _ _ Hloop).
  cbn. rewrite last_snoc. cbn in *.
  repeat split; try lia; try assumption.
Qed.

End Handlers.

(** ** Deliveries under retry *)

Section RetriedDelivery.
Context `{JsBuiltins}.

Lemma ready_later (outboxEntry : Obj) (w w' : World) :
  ready outboxEntry w -> now w <= now w' -> ready outboxEntry w'.
Proof.
  unfold ready, Js.date_after. intros Hready Hnow.
  destruct (Js.truthy _); [|reflexivity]. cbn in *.
  destruct (DateTime _) as [t|]; [|reflexivity]. lia.
Qed.

Variables (outboxEntry : Obj) (command : ProviderCall) (id : string).
Variables (w0 : World) (item0 : Obj) (n : Z).
Hypothesis Hlog : loggable (Js.get "recipient" outboxEntry).
Hypothesis Hready : ready outboxEntry w0.
Hypothesis Hcmd : providerCommand outboxEntry = Some command.
Hypothesis Hid : Js.get "id" outboxEntry = JStr id.
Hypothesis Hcount : Js.get "retryCount" item0 = JNum n.

#[local] Abbreviation after := (after_failures command id w0 item0 n).

#[local] Abbreviation fn :=
  (NotificationService.processOutboxEntry outboxEntry;;; ret tt).

Lemma after_start : table w0 !! id = Some item0 -> after 0 w0.
Proof.
  intros Hitem. unfold after_failures. repeat split; try reflexivity; try lia.
  - cbn. now rewrite app_nil_r.
  - exists item0. repeat split; try easy. rewrite Hcount. f_equal. lia.
Qed.

Lemma after_timers (j : nat) (w : World) (jitter : bool) (delay : Q) :
  after j w ->
  after j (let '(delay, s2) :=
             if jitter
             then let '(r, s2) := RetryHelper.random w in
                  (RetryHelper.withJitter delay r, s2)
             else (delay, w) in
           RetryHelper.sleep delay s2).
Proof.
  intros (Hp & Hn & Hs & Hf & Hi).
  destruct jitter; cbn; repeat split; cbn; try assumption; lia.
Qed.

Lemma delivery_step (j : nat) (w : World) :
  after j w ->
  answers w0 (length (sent w0) + j) command ->
  exists w' : World,
    fn w = (Throw (surfaced (provider w0 (length (sent w0) + j) command)), w')
    /\ after (S j) w'.
Proof.
  intros (Hp & Hn & Hs & Hf & item & Hitem & Hrc & _ & Hres & Hk) Hans.
  assert (Hindex : length (sent w) = (length (sent w0) + j)%nat).
  { now rewrite Hs, length_app, length_replicate. }
  assert (Hans' : answers w (length (sent w)) command).
  { unfold answers. rewrite Hp, Hindex. exact Hans. }
  pose proof (delivery_outcome outboxEntry command w id item (n + Z.of_nat j)
                Hlog (ready_later _ _ _ Hready Hn) Hcmd Hans' Hid Hitem Hrc) as Hout.
  cbn zeta in Hout. rewrite Hp, Hindex in Hout.
  destruct Hout as (Hr & Hs' & _ & Hn' & Hp' & item' & Ht & Hst & _ & Hrc' & Hres' & Hk').
  destruct (NotificationService.processOutboxEntry outboxEntry w) as [r w'] eqn:Hrun.
  cbn [fst snd] in *. subst r. exists w'. split.
  { erewrite bind_throw by exact Hrun. reflexivity. }
  unfold after_failures. rewrite Hp', Hn', Hs', Hs, <- app_assoc, Ht.
  split; [reflexivity|]. split; [exact Hn|]. split.
  { f_equal. symmetry. apply (replicate_cons_app j command). }
  split.
  { intros id' Hne. rewrite lookup_insert_ne by congruence. now apply Hf. }
  exists item'. rewrite lookup_insert_eq.
  split; [reflexivity|]. split; [rewrite Hrc'; f_equal; lia|].
  split; [intros _; exact Hst|]. split; [congruence|].
  intros k Hw. rewrite Hk' by exact Hw. now apply Hk.
Qed.

Variables (maxRetries : nat) (baseDelay maxDelay factor : Q) (jitter : bool).

(** However the provider answers, every attempt of the budget ends in
    failure. *)
Lemma attempts_all_fail_recorded :
  forall (remaining attempt j : nat) (w : World),
    (attempt + remaining = maxRetries)%nat ->
    after j w ->
    (forall i : nat, (i <= remaining)%nat ->
                     answers w0 (length (sent w0) + j + i) command) ->
    exists w' : World,
      RetryHelper.attempts fn maxRetries baseDelay maxDelay factor jitter
        remaining attempt w
      = (Throw (surfaced (provider w0 (length (sent w0) + j + remaining) command)), w')
      /\ after (S (j + remaining)) w'.
Proof.
  induction remaining as [|k IH]; intros attempt j w Hsum Haft Hans.
  - pose proof (Hans 0%nat ltac:(lia)) as Hans0.
    rewrite Nat.add_0_r in *. subst attempt.
    destruct (delivery_step j w Haft Hans0) as (w1 & Hrun & Haft1).
    exists w1. cbn. rewrite Hrun, Nat.eqb_refl, Nat.add_0_r. auto.
  - pose proof (Hans 0%nat ltac:(lia)) as Hans0.
    rewrite Nat.add_0_r in Hans0.
    destruct (delivery_step j w Haft Hans0) as (w1 & Hrun & Haft1).
    cbn [RetryHelper.attempts]. rewrite Hrun.
    replace (attempt =? maxRetries)%nat with false
      by (symmetry; apply Nat.eqb_neq; lia).
    pose proof (after_timers (S j) w1 jitter
                  (RetryHelper.backoffDelay baseDelay maxDelay factor attempt) Haft1)
      as Haft2.
    destruct (IH (S attempt) (S j) _ ltac:(lia) Haft2) as (w' & Hw' & Hfacts).
    + intros i Hi. replace (length (sent w0) + S j + i)%nat
        with (length (sent w0) + j + S i)%nat by lia. apply Hans. lia.
    + exists w'. replace (j + S k)%nat with (S j + k)%nat by lia.
      replace (length (sent w0) + j + S k)%nat
        with (length (sent w0) + S j + k)%nat by lia.
      split; [|exact Hfacts].
      rewrite <- Hw'. destruct jitter; [destruct (RetryHelper.random w1)|]; reflexivity.
Qed.

End RetriedDelivery.

Section DispatchOutcomes.
Context `{JsBuiltins}.

Lemma eligible_ready (record : StreamRecord) (w : World) (image : Image) :
  eligible record w image -> ready (convertDynamoDBRecord image) w.
Proof.
  intros (_ & _ & _ & [Hu | [Hd _]]); unfold ready.
  - unfold unscheduled in Hu. now rewrite Hu.
  - rewrite Hd. apply andb_false_r.
Qed.

(** An eligible record is handed to the retried delivery. *)
Lemma processRecord_eligible (record : StreamRecord) (w : World) (image : Image) :
  eligible record w image ->
  StreamProcessor.processRecord record w
  = RetryHelper.exponentialBackoff
      (NotificationService.processOutboxEntry (convertDynamoDBRecord image);;; ret tt)
      3 1000 (RetryHelper.maxDelay RetryHelper.defaults)
      (RetryHelper.factor RetryHelper.defaults)
      (RetryHelper.jitter RetryHelper.defaults) w.
Proof.
  intros Hel. pose proof (eligible_ready record w image Hel) as Hready.
  destruct Hel as (Hev & Himg & Hst & _).
  unfold StreamProcessor.processRecord. fold (imageOf record).
  rewrite Hev, Himg, Hst, String.eqb_refl.
  unfold Js.is_string. rewrite String.eqb_refl. cbn [negb].
  rewrite bind_clock. unfold ready in Hready. rewrite Hready.
  unfold RetryHelper.retryWithBackoff.
  now rewrite RetryFacts.withRetry_ignores_retryCondition.
Qed.

Variables (record : StreamRecord) (image : Image) (w : World).
Variables (command : ProviderCall) (id : string) (item : Obj) (n : Z).

#[local] Abbreviation outboxEntry := (convertDynamoDBRecord image).

Hypothesis Hel : eligible record w image.
Hypothesis Hlog : loggable (Js.get "recipient" outboxEntry).
Hypothesis Hcmd : providerCommand outboxEntry = Some command.
Hypothesis Hid : Js.get "id" outboxEntry = JStr id.
Hypothesis Hitem : table w !! id = Some item.
Hypothesis Hcount : Js.get "retryCount" item = JNum n.

Lemma written_maxRetries : "maxRetries" ∉ written.
Proof.
  unfold written. rewrite !elem_of_cons, elem_of_nil.
  intros [|[|[|[|[|[]]]]]]; discriminate.
Qed.

(** X16. Dispatch never ends in [sent].  For an eligible record whose
    entry is stored and can be sent, whatever the provider answers to
    the four deliveries (acceptance, or an error with a message): the
    dispatcher makes exactly four provider calls, all of them the
    entry's command, and throws the error of the last delivery, which
    for an accepted delivery is the rejection of the update that names
    [result]; the stored entry ends with status [failed], a retry
    counter grown by four, no receipt and its [maxRetries] as before;
    no other row is touched.  So a message the provider accepts is
    sent four times. *)
Theorem processRecord_never_marks_sent :
  (forall i : nat, (i <= 3)%nat -> answers w (length (sent w) + i) command) ->
  let run := StreamProcessor.processRecord record w in
  fst run = Throw (surfaced (provider w (length (sent w) + 3) command))
  /\ sent (snd run) = sent w ++ replicate 4 command
  /\ (forall id', id' <> id -> table (snd run) !! id' = table w !! id')
  /\ exists item' : Obj,
       table (snd run) !! id = Some item'
       /\ Js.get "status" item' = JStr "failed"
       /\ Js.get "retryCount" item' = JNum (n + 4)
       /\ Js.get "result" item' = Js.get "result" item
       /\ Js.get "maxRetries" item' = Js.get "maxRetries" item.
Proof.
  intros Hans. cbn zeta.
  rewrite (processRecord_eligible record w image Hel).
  unfold RetryHelper.exponentialBackoff.
  destruct (attempts_all_fail_recorded outboxEntry command id w item n Hlog
              (eligible_ready _ _ _ Hel) Hcmd Hid
              3 1000 (RetryHelper.maxDelay RetryHelper.defaults)
              (RetryHelper.factor RetryHelper.defaults)
              (RetryHelper.jitter RetryHelper.defaults)
              3%nat 0%nat 0%nat w eq_refl
              (after_start command id w item n Hcount Hitem))
    as (w' & Hrun & Haft).
  - intros i Hi. rewrite Nat.add_0_r. now apply Hans.
  - rewrite Nat.add_0_r in Hrun.
    destruct Haft as (_ & _ & Hs & Hf & item' & Ht & Hrc & Hst & Hres & Hk).
    rewrite Hrun. cbn [fst snd].
    split; [reflexivity|]. split; [exact Hs|]. split; [exact Hf|].
    exists item'. split; [exact Ht|]. split; [now apply Hst|].
    split; [exact Hrc|]. split; [exact Hres|].
    apply Hk. exact written_maxRetries.
Qed.

(** X17. Dispatch gives up after four rejected deliveries.  For an
    eligible record whose entry is stored and can be sent: if the
    provider rejects four deliveries in a row, the dispatcher throws
    the last error after exactly four provider calls; the stored entry
    ends with status [failed] and a retry counter that has grown by
    four, whatever its [maxRetries], which is left as it was. *)
Theorem processRecord_exhausts_retries :
  (forall i : nat, (i <= 3)%nat -> rejects w (length (sent w) + i) command) ->
  let run := StreamProcessor.processRecord record w in
  exists e : JsError,
    fst run = Throw e
    /\ provider w (length (sent w) + 3) command = Throw e
    /\ sent (snd run) = sent w ++ replicate 4 command
    /\ (forall id', id' <> id -> table (snd run) !! id' = table w !! id')
    /\ exists item' : Obj,
         table (snd run) !! id = Some item'
         /\ Js.get "status" item' = JStr "failed"
         /\ Js.get "retryCount" item' = JNum (n + 4)
         /\ Js.get "maxRetries" item' = Js.get "maxRetries" item.
Proof.
  intros Hrej. cbn zeta.
  rewrite (processRecord_eligible record w image Hel).
  unfold RetryHelper.exponentialBackoff.
  destruct (attempts_all_fail_recorded outboxEntry command id w item n Hlog
              (eligible_ready _ _ _ Hel) Hcmd Hid
              3 1000 (RetryHelper.maxDelay RetryHelper.defaults)
              (RetryHelper.factor RetryHelper.defaults)
              (RetryHelper.jitter RetryHelper.defaults)
              3%nat 0%nat 0%nat w eq_refl
              (after_start command id w item n Hcount Hitem))
    as (w' & Hrun & Haft).
  - intros i Hi. rewrite Nat.add_0_r. destruct (Hrej i Hi) as (e & He & Hmsg).
    unfold answers. now rewrite He.
  - rewrite Nat.add_0_r in Hrun.
    destruct (Hrej 3%nat ltac:(lia)) as (e & He & _).
    rewrite He in Hrun. cbn [surfaced] in Hrun.
    destruct Haft as (_ & _ & Hs & Hf & item' & Ht & Hrc & Hst & _ & Hk).
    exists e. rewrite Hrun. cbn [fst snd].
    split; [reflexivity|]. split; [exact He|]. split; [exact Hs|].
    split; [exact Hf|].
    exists item'. split; [exact Ht|]. split; [now apply Hst|].
    split; [exact Hrc|].
    apply Hk. exact written_maxRetries.
Qed.

End DispatchOutcomes.

Section EscalationOutcomes.
Context `{JsBuiltins}.

Variables (record : SqsRecord) (parsed : DlqMessage) (outboxEntry : Obj).
Variables (w : World) (command : ProviderCall) (id : string) (item : Obj) (n : Z).

Hypothesis Hbody : body record = Ok parsed.
Hypothesis Hextract : fst (DLQProcessor.extractOutboxEntry parsed w) = Ok outboxEntry.
Hypothesis Hbudget :
  Js.ge (Js.get "retryCount" outboxEntry)
        (Js.or (Js.get "maxRetries" outboxEntry) (JNum 3)) = false.
Hypothesis Hlog : loggable (Js.get "recipient" outboxEntry).
Hypothesis Hready : ready outboxEntry w.
Hypothesis Hcmd : providerCommand outboxEntry = Some command.
Hypothesis Hid : Js.get "id" outboxEntry = JStr id.
Hypothesis Hitem : table w !! id = Some item.
Hypothesis Hcount : Js.get "retryCount" item = JNum n.

(** With budget left, the processor hands the entry to the retried
    delivery. *)
Lemma processMessage_retries :
  DLQProcessor.processMessage record w
  = try_catch
      (DLQProcessor.retryNotification outboxEntry;;;
       ret {| status := "success"; retryable := None |})
      (fun error =>
         if RetryHelper.isRetryableError error
         then ret {| status := "failed"; retryable := Some true |}
         else ret {| status := "failed"; retryable := Some false |}) w.
Proof.
  unfold DLQProcessor.processMessage. rewrite Hbody.
  pose proof (extractOutboxEntry_reads parsed w) as Hw.
  destruct (DLQProcessor.extractOutboxEntry parsed w) as [r w1] eqn:Hrun.
  cbn in Hextract, Hw. subst r w1.
  apply try_catch_ext.
  erewrite bind_ok by reflexivity. erewrite bind_ok by exact Hrun.
  rewrite Hbudget. reflexivity.
Qed.

(** X18. A dead-letter retry that keeps being rejected costs four
    counts.  For a message whose entry has budget left, is stored and
    can be sent: if the provider rejects three deliveries in a row, the
    processor makes exactly three provider calls and answers [failed],
    retryable or not according to the last error; each rejected
    delivery has added one to the stored retry counter and the
    processor's own failure record adds one more, so the counter ends
    four higher, with status [failed] and the error
    [DLQ retry failed: <message of the last error>]. *)
Theorem processMessage_rejected_retry :
  (forall i : nat, (i <= 2)%nat -> rejects w (length (sent w) + i) command) ->
  let run := DLQProcessor.processMessage record w in
  exists e : JsError,
    provider w (length (sent w) + 2) command = Throw e
    /\ fst run = Ok {| status := "failed";
                       retryable := Some (RetryHelper.isRetryableError e) |}
    /\ sent (snd run) = sent w ++ replicate 3 command
    /\ (forall id', id' <> id -> table (snd run) !! id' = table w !! id')
    /\ exists item' : Obj,
         table (snd run) !! id = Some item'
         /\ Js.get "status" item' = JStr "failed"
         /\ Js.get "error" item' = JStr ("DLQ retry failed: " +:+ message e)
         /\ Js.get "retryCount" item' = JNum (n + 4)
         /\ Js.get "maxRetries" item' = Js.get "maxRetries" item.
Proof.
  intros Hrej. cbn zeta. rewrite processMessage_retries.
  destruct (attempts_all_fail_recorded outboxEntry command id w item n Hlog Hready
              Hcmd Hid 2 2000 10000 2 true 2%nat 0%nat 0%nat w eq_refl
              (after_start command id w item n Hcount Hitem))
    as (w1 & Hrun & Haft).
  { intros i Hi. rewrite Nat.add_0_r. destruct (Hrej i Hi) as (e & He & Hmsg).
    unfold answers. now rewrite He. }
  rewrite Nat.add_0_r in Hrun.
  destruct (Hrej 2%nat ltac:(lia)) as (e & He & _).
  rewrite He in Hrun. cbn [surfaced] in Hrun.
  destruct Haft as (_ & _ & Hs & Hf & item1 & Ht & Hrc & Hst & _ & Hk).
  destruct (updateOutboxEntryStatus_present w1 id item1 (JStr "failed")
              (JStr ("DLQ retry failed: " +:+ message e)) JNull eq_refl Ht)
    as (item' & Hupd & Hs' & _ & Hframe & Herr & _); [eauto|].
  rewrite append_cons in Herr. cbn [Js.truthy JsString.truthy] in Herr.
  destruct Herr as [Herr Hrc'].
  exists e. split; [exact He|].
  erewrite try_catch_throw.
  2:{ erewrite bind_throw; [reflexivity|].
      unfold DLQProcessor.retryNotification.
      erewrite try_catch_throw by exact Hrun.
      rewrite Hid. erewrite bind_ok.
      2:{ rewrite OutboxService_update_same. exact Hupd. }
      reflexivity. }
  destruct (RetryHelper.isRetryableError e); cbn [fst snd ret table sent with_table];
    (split; [reflexivity|]); (split; [exact Hs|]);
    (split; [intros id' Hne; rewrite lookup_insert_ne by congruence; now apply Hf|]);
    exists item'; rewrite lookup_insert_eq;
    (split; [reflexivity|]); (split; [exact Hs'|]);
    (split; [exact Herr|]);
    (split; [rewrite (Hrc' _ Hrc); f_equal; lia|]);
    rewrite Hframe by exact written_maxRetries; apply Hk; exact written_maxRetries.
Qed.

(** X19. A dead-letter retry never succeeds.  For a message whose
    entry has budget left, is stored and can be sent, whatever the
    provider answers to the three deliveries (acceptance, or an error
    with a message): the processor makes exactly three provider calls
    and answers [failed], retryable or not according to the error of
    the last delivery, which for an accepted delivery is the rejection
    of the update that names [result]; the stored entry ends with
    status [failed], the error [DLQ retry failed: <message>], a retry
    counter grown by four and no receipt.  So a message the provider
    accepts is sent three times and reported as failed. *)
Theorem processMessage_retry_never_succeeds :
  (forall i : nat, (i <= 2)%nat -> answers w (length (sent w) + i) command) ->
  let run := DLQProcessor.processMessage record w in
  let e := surfaced (provider w (length (sent w) + 2) command) in
  fst run = Ok {| status := "failed";
                  retryable := Some (RetryHelper.isRetryableError e) |}
  /\ sent (snd run) = sent w ++ replicate 3 command
  /\ (forall id', id' <> id -> table (snd run) !! id' = table w !! id')
  /\ exists item' : Obj,
       table (snd run) !! id = Some item'
       /\ Js.get "status" item' = JStr "failed"
       /\ Js.get "error" item' = JStr ("DLQ retry failed: " +:+ message e)
       /\ Js.get "retryCount" item' = JNum (n + 4)
       /\ Js.get "result" item' = Js.get "result" item
       /\ Js.get "maxRetries" item' = Js.get "maxRetries" item.
Proof.
  intros Hans. cbn zeta. rewrite processMessage_retries.
  destruct (attempts_all_fail_recorded outboxEntry command id w item n Hlog Hready
              Hcmd Hid 2 2000 10000 2 true 2%nat 0%nat 0%nat w eq_refl
              (after_start command id w item n Hcount Hitem))
    as (w1 & Hrun & Haft).
  { intros i Hi. rewrite Nat.add_0_r. now apply Hans. }
  rewrite Nat.add_0_r in Hrun.
  set (e := surfaced _) in *.
  destruct Haft as (_ & _ & Hs & Hf & item1 & Ht & Hrc & Hst & Hres & Hk).
  destruct (updateOutboxEntryStatus_present w1 id item1 (JStr "failed")
              (JStr ("DLQ retry failed: " +:+ message e)) JNull eq_refl Ht)
    as (item' & Hupd & Hs' & _ & Hframe & Herr & Hres'); [eauto|].
  rewrite append_cons in Herr. cbn [Js.truthy JsString.truthy] in Herr.
  destruct Herr as [Herr Hrc'].
  erewrite try_catch_throw.
  2:{ erewrite bind_throw; [reflexivity|].
      unfold DLQProcessor.retryNotification.
      erewrite try_catch_throw by exact Hrun.
      rewrite Hid. erewrite bind_ok.
      2:{ rewrite OutboxService_update_same. exact Hupd. }
      reflexivity. }
  destruct (RetryHelper.isRetryableError e); cbn [fst snd ret table sent with_table];
    (split; [reflexivity|]); (split; [exact Hs|]);
    (split; [intros id' Hne; rewrite lookup_insert_ne by congruence; now apply Hf|]);
    exists item'; rewrite lookup_insert_eq;
    (split; [reflexivity|]); (split; [exact Hs'|]);
    (split; [exact Herr|]);
    (split; [rewrite (Hrc' _ Hrc); f_equal; lia|]);
    (split; [congruence|]);
    rewrite Hframe by exact written_maxRetries; apply Hk; exact written_maxRetries.
Qed.

End EscalationOutcomes.

(** ** Maintenance of the outbox *)

Section Maintenance.
Context `{JsBuiltins} `{Scan.Scanner}.

Lemma evaluated_stored (Limit : option nat) (t : gmap string Obj) (item : Obj) :
  item ∈ Scan.evaluated Limit t ->
  exists id : string, id ∈ Scan.page t /\ t !! id = Some item.
Proof.
  unfold Scan.evaluated. intros Hin.
  assert (Hin' : item ∈ omap (fun id => t !! id) (Scan.page t)).
  { destruct Limit as [k|]; [|exact Hin].
    apply elem_of_take in Hin as (i & Hi & _).
    eapply list_elem_of_lookup_2, Hi. }
  apply list_elem_of_omap in Hin'. exact Hin'.
Qed.

Lemma evaluated_page (t : gmap string Obj) (id : string) (item : Obj) :
  id ∈ Scan.page t -> t !! id = Some item -> item ∈ Scan.evaluated None t.
Proof.
  intros Hid Hitem. unfold Scan.evaluated. apply list_elem_of_omap. eauto.
Qed.

Lemma scan_all (condition : Scan.Condition) (w : World) :
  Scan.scan condition None w
  = (Ok (List.filter (Scan.holds condition) (Scan.evaluated None (table w))), w).
Proof. reflexivity. Qed.

Lemma found_stored (condition : Scan.Condition) (Limit : option nat)
    (t : gmap string Obj) (item : Obj) :
  In item (List.filter (Scan.holds condition) (Scan.evaluated Limit t)) ->
  Scan.holds condition item = true
  /\ exists id : string, id ∈ Scan.page t /\ t !! id = Some item.
Proof.
  intros [Hin Hholds]%filter_In. split; [exact Hholds|].
  apply evaluated_stored with Limit. now apply list_elem_of_In.
Qed.

(** *** Cleanup *)

Lemma deleteEntries_run (oldEntries : list Obj) :
  forall (deletedCount : Z) (w : World),
    (forall entry, In entry oldEntries -> exists id, Js.get "id" entry = JStr id) ->
    fst (OutboxMaintenance.deleteEntries oldEntries deletedCount w)
    = Ok (deletedCount + Z.of_nat (length oldEntries))
    /\ sent (snd (OutboxMaintenance.deleteEntries oldEntries deletedCount w)) = sent w
    /\ forall id : string,
         table (snd (OutboxMaintenance.deleteEntries oldEntries deletedCount w)) !! id
         = if existsb (fun entry => Js.is_string id (Js.get "id" entry)) oldEntries
           then None else table w !! id.
Proof.
  induction oldEntries as [|entry rest IH]; intros count w Hids;
    cbn [OutboxMaintenance.deleteEntries].
  - cbn. repeat split. f_equal. lia.
  - destruct (Hids entry (or_introl eq_refl)) as [id0 Hid0].
    erewrite bind_ok.
    2:{ erewrite try_catch_ok; [reflexivity|].
        erewrite bind_ok; [reflexivity|]. rewrite Hid0. reflexivity. }
    destruct (IH (count + 1) (with_table (base.delete id0 (table w)) w))
      as (Hr & Hs & Ht).
    { intros e He. apply Hids. now right. }
    rewrite Hr, Hs. split; [f_equal; cbn [length]; lia|]. split; [reflexivity|].
    intros id. rewrite Ht. cbn [existsb table with_table]. rewrite Hid0.
    cbn [Js.is_string].
    destruct (String.eqb_spec id0 id) as [->|Hne]; cbn [orb].
    + rewrite lookup_delete_eq. now destruct (existsb _ rest).
    + rewrite lookup_delete_ne by congruence. reflexivity.
Qed.

(** X20. Cleanup removes old finished entries and nothing else.  On a
    table whose rows are stored under their own id, [cleanupOldEntries]
    resolves and reports as many deletions as entries found; a row is
    kept, unchanged, when its status is neither [sent] nor [failed] or
    when its [createdAt] is not a string below the cutoff; no row is
    created or changed; every row of the scanned page that is [sent]
    or [failed] and older than the cutoff is removed; no provider is
    called. *)
Theorem cleanupOldEntries_removes_old_finished (daysOld : Z) (w : World) :
  keyed (table w) ->
  let run := OutboxMaintenance.cleanupOldEntries daysOld w in
  let cutoff := toISOString (now w - daysOld * 86400000) in
  (exists found : nat,
      fst run = Ok {| OutboxMaintenance.totalFound := found;
                      OutboxMaintenance.deleted := Z.of_nat found |})
  /\ (forall (id : string) (item : Obj),
        table w !! id = Some item ->
        Js.get "status" item <> JStr "sent" ->
        Js.get "status" item <> JStr "failed" ->
        table (snd run) !! id = Some item)
  /\ (forall (id : string) (item : Obj),
        table w !! id = Some item ->
        (forall s : string, Js.get "createdAt" item = JStr s ->
                            String.ltb s cutoff = false) ->
        table (snd run) !! id = Some item)
  /\ (forall (id : string) (item : Obj),
        table (snd run) !! id = Some item -> table w !! id = Some item)
  /\ (forall (id : string) (item : Obj) (s : string),
        table w !! id = Some item ->
        id ∈ Scan.page (table w) ->
        Js.get "status" item = JStr "sent" \/ Js.get "status" item = JStr "failed" ->
        Js.get "createdAt" item = JStr s ->
        String.ltb s cutoff = true ->
        table (snd run) !! id = None)
  /\ sent (snd run) = sent w.
Proof.
  intros Hkeyed. cbn zeta.
  set (cutoff := toISOString (now w - daysOld * 86400000)).
  set (condition := Scan.And (Scan.Less "createdAt" cutoff)
                      (Scan.Or (Scan.Equals "status" "sent")
                               (Scan.Equals "status" "failed"))).
  set (found := List.filter (Scan.holds condition) (Scan.evaluated None (table w))).
  assert (Hfound : forall entry, In entry found ->
            Scan.holds condition entry = true
            /\ exists id, id ∈ Scan.page (table w) /\ table w !! id = Some entry
                          /\ Js.get "id" entry = JStr id).
  { intros entry [Hh (id & Hp & Hs)]%found_stored.
    split; [exact Hh|]. exists id. repeat split; auto. }
  destruct (deleteEntries_run found 0 w) as (Hr & Hs & Ht).
  { intros entry (_ & id & _ & _ & Hid)%Hfound. eauto. }
  assert (Hrun : OutboxMaintenance.cleanupOldEntries daysOld w
                 = (Ok {| OutboxMaintenance.totalFound := length found;
                          OutboxMaintenance.deleted := Z.of_nat (length found) |},
                    snd (OutboxMaintenance.deleteEntries found 0 w))).
  { unfold OutboxMaintenance.cleanupOldEntries.
    erewrite try_catch_ok; [reflexivity|].
    rewrite bind_clock. fold cutoff. fold condition.
    erewrite bind_ok by apply scan_all. fold found.
    destruct (OutboxMaintenance.deleteEntries found 0 w) as [r w1] eqn:Hdel.
    cbn in Hr. subst r. erewrite bind_ok by exact Hdel. reflexivity. }
  rewrite Hrun. cbn [fst snd].
  assert (Hkept : forall id item,
            table w !! id = Some item -> Scan.holds condition item = false ->
            table (snd (OutboxMaintenance.deleteEntries found 0 w)) !! id = Some item).
  { intros id item Hitem Hno. rewrite Ht.
    destruct (existsb _ found) eqn:Hex; [|exact Hitem].
    apply existsb_exists in Hex as (entry & Hin & Hid%is_string_true).
    destruct (Hfound entry Hin) as (Hh & id' & _ & Hst & Hid').
    assert (id' = id) by congruence. subst id'.
    assert (entry = item) by congruence. subst entry. congruence. }
  split; [eauto|]. split; [|split; [|split; [|split]]].
  - intros id item Hitem Hsent Hfailed. apply Hkept; [exact Hitem|].
    cbn. apply andb_false_intro2.
    destruct (Js.is_string "sent" _) eqn:E1; [apply is_string_true in E1; congruence|].
    destruct (Js.is_string "failed" _) eqn:E2; [apply is_string_true in E2; congruence|].
    reflexivity.
  - intros id item Hitem Hnew. apply Hkept; [exact Hitem|].
    cbn. apply andb_false_intro1.
    destruct (Js.get "createdAt" item); try reflexivity. now apply Hnew.
  - intros id item. rewrite Ht. destruct (existsb _ found); [discriminate|auto].
  - intros id item s Hitem Hpage Hstatus Hcreated Hold. rewrite Ht.
    replace (existsb _ found) with true; [reflexivity|].
    symmetry. apply existsb_exists. exists item.
    split; [|apply is_string_true; now apply Hkeyed].
    apply filter_In. split.
    + apply list_elem_of_In. now apply evaluated_page with id.
    + cbn. rewrite Hcreated, Hold. cbn.
      destruct Hstatus as [-> | ->]; reflexivity.
  - exact Hs.
Qed.

(** *** Scheduled notifications *)

Lemma processEntries_step (entry : Obj) (processResults : list OutboxMaintenance.ProcessResult)
    (w : World) :
  exists r : OutboxMaintenance.ProcessResult,
    try_catch
      (result <- NotificationService.processOutboxEntry entry;;
       ret (processResults
            ++ [ {| OutboxMaintenance.outboxId := Js.get "id" entry;
                    OutboxMaintenance.notificationId := Js.get "notificationId" entry;
                    OutboxMaintenance.result := Some result;
                    OutboxMaintenance.error := None |} ]))
      (fun e =>
         ret (processResults
              ++ [ {| OutboxMaintenance.outboxId := Js.get "id" entry;
                      OutboxMaintenance.notificationId := Js.get "notificationId" entry;
                      OutboxMaintenance.result := None;
                      OutboxMaintenance.error := Some (message e) |} ])) w
    = (Ok (processResults ++ [r]),
       snd (NotificationService.processOutboxEntry entry w)).
Proof.
  unfold try_catch, bind.
  destruct (NotificationService.processOutboxEntry entry w) as [[v|e] w1];
    cbn; eauto.
Qed.

Lemma processEntries_run (pendingEntries : list Obj) :
  forall (processResults : list OutboxMaintenance.ProcessResult) (w : World),
  exists (results : list OutboxMaintenance.ProcessResult) (calls : list ProviderCall),
    fst (OutboxMaintenance.processEntries pendingEntries processResults w) = Ok results
    /\ length results = (length processResults + length pendingEntries)%nat
    /\ sent (snd (OutboxMaintenance.processEntries pendingEntries processResults w))
       = sent w ++ calls
    /\ (length calls <= length pendingEntries)%nat
    /\ (keyed (table w) ->
        keyed (table (snd (OutboxMaintenance.processEntries
                             pendingEntries processResults w))))
    /\ forall id : string,
         existsb (fun entry => Js.is_string id (Js.get "id" entry)) pendingEntries = false ->
         table (snd (OutboxMaintenance.processEntries pendingEntries processResults w)) !! id
         = table w !! id.
Proof.
  induction pendingEntries as [|entry rest IH]; intros acc w;
    cbn [OutboxMaintenance.processEntries].
  - exists acc, []. cbn. rewrite app_nil_r. repeat split; auto.
  - destruct (processEntries_step entry acc w) as [r Hstep].
    rewrite (bind_ok _ _ _ _ _ Hstep).
    destruct (IH (acc ++ [r]) (snd (NotificationService.processOutboxEntry entry w)))
      as (results & calls2 & Hr & Hl & Hs & Hn & Hk & Ht).
    destruct (one_processOutboxEntry entry w) as (calls1 & Hs1 & Hn1).
    exists results, (calls1 ++ calls2).
    rewrite Hr, Hs, Hs1, <- app_assoc, Hl, !length_app. cbn [length].
    split; [reflexivity|]. split; [lia|]. split; [reflexivity|]. split; [lia|].
    split.
    + intros Hkeyed. apply Hk. now apply (processOutboxEntry_keeps_keyed entry w).
    + intros id Hex. cbn [existsb] in Hex. apply orb_false_elim in Hex as [Hid Hex].
      rewrite (Ht id Hex).
      apply (processOutboxEntry_same_elsewhere entry w).
      intros Heq. apply is_string_true in Heq. congruence.
Qed.

(** X21. The scheduled run works on pending entries only.  On a table
    whose rows are stored under their own id,
    [processScheduledNotifications] resolves; it reports one result
    per entry found and calls a provider at most once per entry found;
    a row that is not [pending], and a pending row whose [scheduledAt]
    is a string above the current timestamp, is left exactly as it
    was, and no row appears under an id that had none. *)
Theorem processScheduledNotifications_pending_only (w : World) :
  keyed (table w) ->
  let run := OutboxMaintenance.processScheduledNotifications w in
  exists (r : OutboxMaintenance.ScheduledResult) (calls : list ProviderCall),
    fst run = Ok r
    /\ length (OutboxMaintenance.results r) = OutboxMaintenance.totalProcessed r
    /\ sent (snd run) = sent w ++ calls
    /\ (length calls <= OutboxMaintenance.totalProcessed r)%nat
    /\ keyed (table (snd run))
    /\ (forall id : string,
          table w !! id = None -> table (snd run) !! id = None)
    /\ (forall (id : string) (item : Obj),
          table w !! id = Some item ->
          Js.get "status" item <> JStr "pending" ->
          table (snd run) !! id = Some item)
    /\ (forall (id : string) (item : Obj) (s : string),
          table w !! id = Some item ->
          Js.get "scheduledAt" item = JStr s ->
          String.leb s (toISOString (now w)) = false ->
          table (snd run) !! id = Some item).
Proof.
  intros Hkeyed. cbn zeta.
  set (condition := Scan.And (Scan.Equals "status" "pending")
                      (Scan.Or (Scan.NotExists "scheduledAt")
                               (Scan.LessEq "scheduledAt" (toISOString (now w))))).
  set (found := List.filter (Scan.holds condition) (Scan.evaluated None (table w))).
  destruct (processEntries_run found [] w)
    as (results & calls & Hr & Hl & Hs & Hn & Hk & Ht).
  assert (Hrun : OutboxMaintenance.processScheduledNotifications w
                 = (Ok {| OutboxMaintenance.totalProcessed := length found;
                          OutboxMaintenance.results := results |},
                    snd (OutboxMaintenance.processEntries found [] w))).
  { unfold OutboxMaintenance.processScheduledNotifications.
    erewrite try_catch_ok; [reflexivity|].
    rewrite bind_clock. fold condition.
    erewrite bind_ok by apply scan_all. fold found.
    destruct (OutboxMaintenance.processEntries found [] w) as [r w1] eqn:Hloop.
    cbn in Hr. subst r. erewrite bind_ok by exact Hloop. reflexivity. }
  assert (Hsame : forall id,
            (forall item, table w !! id = Some item ->
                          Scan.holds condition item = false) ->
            table (snd (OutboxMaintenance.processEntries found [] w)) !! id
            = table w !! id).
  { intros id Hno. apply Ht.
    destruct (existsb _ found) eqn:Hex; [|reflexivity].
    apply existsb_exists in Hex as (entry & Hin & Hid%is_string_true).
    apply found_stored in Hin as (Hh & id' & _ & Hst).
    assert (id' = id) by (apply Hkeyed in Hst; congruence). subst id'.
    rewrite (Hno entry Hst) in Hh. discriminate. }
  exists {| OutboxMaintenance.totalProcessed := length found;
            OutboxMaintenance.results := results |}, calls.
  rewrite Hrun. cbn [fst snd OutboxMaintenance.results OutboxMaintenance.totalProcessed].
  split; [reflexivity|]. split; [exact Hl|]. split; [exact Hs|]. split; [exact Hn|].
  split; [now apply Hk|]. split; [|split].
  - intros id Hnone. rewrite Hsame; [exact Hnone|]. intros item. congruence.
  - intros id item Hitem Hstatus. rewrite Hsame; [exact Hitem|].
    intros item' Hitem'. assert (item' = item) by congruence. subst item'.
    cbn. apply andb_false_intro1.
    destruct (Js.is_string "pending" _) eqn:E; [|reflexivity].
    apply is_string_true in E. congruence.
  - intros id item s Hitem Hsched Hlater. rewrite Hsame; [exact Hitem|].
    intros item' Hitem'. assert (item' = item) by congruence. subst item'.
    cbn. rewrite Hsched, Hlater. apply andb_false_r.
Qed.

(** *** Failed notifications *)

(** X22. Listing failed notifications reads at most [limit] rows and
    never writes.  For a limit of at least one,
    [getFailedNotifications] resolves with at most [limit] entries,
    each of them a stored row with status [failed], and leaves the
    world as it was; the limit bounds the rows read, not the rows
    returned, so what is returned is what is [failed] among the first
    [limit] rows of the page.  A limit below one is rejected. *)
Theorem getFailedNotifications_reads (limit : Z) (w : World) :
  let run := OutboxMaintenance.getFailedNotifications limit w in
  snd run = w
  /\ (limit < 1 -> is_throw (fst run) = true)
  /\ (1 <= limit ->
      exists items : list Obj,
        fst run = Ok items
        /\ items = List.filter (fun item => Js.is_string "failed" (Js.get "status" item))
                     (Scan.evaluated (Some (Z.to_nat limit)) (table w))
        /\ Z.of_nat (length items) <= limit
        /\ forall item : Obj,
             In item items ->
             Js.get "status" item = JStr "failed"
             /\ exists id : string, table w !! id = Some item).
Proof.
  cbn zeta. unfold OutboxMaintenance.getFailedNotifications, try_catch, Scan.scan.
  destruct (Z.ltb_spec limit 1) as [Hlt|Hge]; cbn.
  - split; [reflexivity|]. split; [reflexivity|]. lia.
  - split; [reflexivity|]. split; [lia|]. intros _.
    eexists. split; [reflexivity|]. split; [reflexivity|]. split.
    + etransitivity.
      { apply Nat2Z.inj_le, filter_length_le. }
      unfold Scan.evaluated. rewrite length_take. lia.
    + intros item Hin.
      apply (found_stored (Scan.Equals "status" "failed") (Some (Z.to_nat limit)))
        in Hin as [Hst (id & _ & Hitem)].
      split; [now apply is_string_true|]. eauto.
Qed.

End Maintenance.

(** ** Enqueueing, and messages that cannot be used *)

Section Enqueue.
Context `{JsBuiltins}.

(** X23. What is enqueued can be read back.  [storeInOutbox] resolves
    with a new entry whose id is the next identifier issued; the entry
    is [pending], has used no retry of its three, and expires seven
    days after its creation; it is stored under its id, other rows
    stay, [getOutboxEntry] on the id returns it without changing
    anything, a requeue of it is refused, and no provider is called. *)
Theorem storeInOutbox_round_trip (notification : Obj) (renderedContent : JsVal)
    (w : World) :
  let run := NotificationService.storeInOutbox notification renderedContent w in
  let id := uuids w (issued w) in
  exists outboxEntry : Obj,
    fst run = Ok outboxEntry
    /\ Js.get "id" outboxEntry = JStr id
    /\ Js.get "status" outboxEntry = JStr "pending"
    /\ Js.get "retryCount" outboxEntry = JNum 0
    /\ Js.get "maxRetries" outboxEntry = JNum 3
    /\ Js.get "ttl" outboxEntry = JNum (now w / 1000 + 604800)
    /\ Js.get "content" outboxEntry = renderedContent
    /\ Js.get "notificationId" outboxEntry = Js.get "id" notification
    /\ table (snd run) = <[id := outboxEntry]> (table w)
    /\ sent (snd run) = sent w
    /\ issued (snd run) = S (issued w)
    /\ OutboxService.getOutboxEntry (JStr id) (snd run) = (Ok outboxEntry, snd run)
    /\ OutboxService.requeueFailedNotification (JStr id) (snd run)
       = (Throw (newError "Only failed notifications can be requeued"), snd run).
Proof.
  cbn zeta. eexists. split; [reflexivity|].
  repeat (split; [reflexivity|]).
  split.
  - unfold OutboxService.getOutboxEntry, try_catch, bind, DynamoDB.get. cbn.
    rewrite lookup_insert_eq. reflexivity.
  - unfold OutboxService.requeueFailedNotification, OutboxService.getOutboxEntry,
      try_catch, bind, DynamoDB.get. cbn.
    rewrite lookup_insert_eq. reflexivity.
Qed.

(** X24. Messages the dead-letter processor cannot use.  A message
    whose body cannot be parsed, a message in none of the three
    formats, and a message that refers to an outbox entry that is not
    stored all get the outcome [failed] and leave the world exactly as
    it was: nothing is written and no provider is called.  The first
    is reported retryable according to the parse error, the other two
    as not retryable. *)
Theorem processMessage_unusable (record : SqsRecord) (w : World) :
  (forall e : JsError,
      body record = Throw e ->
      DLQProcessor.processMessage record w
      = (Ok {| status := "failed";
               retryable := Some (RetryHelper.isRetryableError e) |}, w))
  /\ (forall parsed : DlqMessage,
        body record = Ok parsed ->
        recordImage parsed = None ->
        Js.truthy (Js.get "outboxId" (properties parsed)) = false ->
        Js.truthy (Js.get "id" (properties parsed)) = false ->
        DLQProcessor.processMessage record w
        = (Ok {| status := "failed"; retryable := Some false |}, w))
  /\ (forall (parsed : DlqMessage) (id : string),
        body record = Ok parsed ->
        recordImage parsed = None ->
        Js.get "outboxId" (properties parsed) = JStr id ->
        id <> EmptyString ->
        table w !! id = None ->
        DLQProcessor.processMessage record w
        = (Ok {| status := "failed"; retryable := Some false |}, w)).
Proof.
  split; [|split].
  - intros e Hbody. unfold DLQProcessor.processMessage, try_catch, bind, lift.
    rewrite Hbody. now destruct (RetryHelper.isRetryableError e).
  - intros parsed Hbody Himg Hout Hid.
    unfold DLQProcessor.processMessage, DLQProcessor.extractOutboxEntry,
      try_catch, bind, lift.
    rewrite Hbody, Himg, Hout, Hid. reflexivity.
  - intros parsed id Hbody Himg Hout Hne Hnone.
    unfold DLQProcessor.processMessage, DLQProcessor.extractOutboxEntry,
      OutboxService.getOutboxEntry, try_catch, bind, lift, DynamoDB.get.
    rewrite Hbody, Himg, Hout. cbn [Js.truthy].
    destruct id as [|c id]; [congruence|]. cbn [JsString.truthy].
    rewrite Hnone. reflexivity.
Qed.

End Enqueue.

(** ** Routes *)

Section Routes.

(** X25. Two routes are shadowed.  Whatever the method and the path,
    [routeRequest] never selects the bulk handler nor the
    retry-failed handler: every [POST] whose first path segment is
    [notifications] is given to the single-notification handler,
    whatever follows. *)
Theorem routeRequest_shadowed_routes (method path : string) :
  ApiHandler.routeRequest method path <> ApiHandler.handleBulkNotifications
  /\ ApiHandler.routeRequest method path <> ApiHandler.handleRetryFailedNotifications
  /\ (forall rest : string,
        ApiHandler.routeRequest "POST" ("/notifications/" +:+ rest)
        = ApiHandler.handleSendNotification).
Proof.
  unfold ApiHandler.routeRequest.
  set (segments := List.filter _ (JsString.split "/" path)).
  split; [|split].
  - destruct ((method =? "POST")%string && ApiHandler.segment_is "notifications"
                                             (nth_error segments 0)) eqn:E.
    + discriminate.
    + cbn [andb].
      repeat match goal with
             | |- (if ?b then _ else _) <> _ => destruct b; [discriminate|]
             end.
      discriminate.
  - destruct ((method =? "POST")%string && ApiHandler.segment_is "notifications"
                                             (nth_error segments 0)) eqn:E.
    + discriminate.
    + cbn [andb].
      repeat match goal with
             | |- (if ?b then _ else _) <> _ => destruct b; [discriminate|]
             end.
      discriminate.
  - intros rest. clear segments.
    rewrite !append_cons, append_empty. reflexivity.
Qed.

End Routes.
(** ** Worked scenarios

    From here on the builtins are those of the decimal runtime. *)

#[local] Existing Instance decimalBuiltins.


Lemma throttledDispatch_entry :
  exists item : Obj,
    table throttledDispatch !! "entry-0" = Some item
    /\ Js.get "retryCount" item = JNum 4
    /\ Js.get "maxRetries" item = JNum 3
    /\ Js.get "status" item = JStr "failed"
    /\ length (sent throttledDispatch) = 4%nat.
Proof.
  eexists. split; [vm_compute; reflexivity|]. repeat split.
Qed.

(** C1, as stated, fails: a single dispatch makes four attempts, each
    failure adds one to [retryCount], and the entry is left [failed]
    with [retryCount] 4 above [maxRetries] 3. *)
Lemma retryCount_exceeds_maxRetries :
  ~ (forall (ops : list Operation) (w : World),
        table w = ∅ ->
        forall (id : string) (item : Obj) (n m : Z),
          table (performAll ops w) !! id = Some item ->
          Js.get "retryCount" item = JNum n ->
          Js.get "maxRetries" item = JNum m ->
          n <= m \/ Js.get "status" item = JStr "permanently_failed").
Proof.
  intros Hbound.
  destruct throttledDispatch_entry as (item & Hitem & Hn & Hm & Hs & _).
  destruct (Hbound [Enqueue welcome welcomeContent; Dispatch welcomeInsert]
              (freshWorld 1000 throttled) eq_refl "entry-0" item 4 3 Hitem Hn Hm)
    as [Hle | Hpf].
  - lia.
  - rewrite Hs in Hpf. discriminate Hpf.
Qed.

Lemma retryCount_only_grows_witness :
  counts_ok (table throttledDispatch)
  /\ grows (table (freshWorld 1000 throttled))
           (table (perform (Enqueue welcome welcomeContent) (freshWorld 1000 throttled))).
Proof.
  destruct retryCount_only_grows as [Hinv Hstep]. split.
  - apply (Hinv [Enqueue welcome welcomeContent; Dispatch welcomeInsert]
             (freshWorld 1000 throttled)). reflexivity.
  - apply (Hstep (Enqueue welcome welcomeContent) (freshWorld 1000 throttled)).
    reflexivity.
Defined.


Lemma updateOutboxEntryStatus_ghost :
  let run := NotificationService.updateOutboxEntryStatus
               (JStr "ghost") (JStr "sent") JNull JNull (freshWorld 1000 accepts) in
  fst run = Ok tt
  /\ table (snd run) !! "ghost"
     = Some [("id", JStr "ghost"); ("status", JStr "sent"); ("updatedAt", JStr "1000")].
Proof. split; vm_compute; reflexivity. Qed.






Lemma processRecord_dispatch_guard_witness :
  StreamProcessor.processRecord laterInsert (worldWith (failedEntry 0))
  = (Ok tt, worldWith (failedEntry 0)).
Proof.
  destruct (processRecord_dispatch_guard laterInsert (worldWith (failedEntry 0)))
    as [_ Hlater].
  apply (Hlater laterImage); [reflexivity|].
  split; [reflexivity|]. exists 3605000. split; [reflexivity | reflexivity].
Defined.

(** Scenario 5: requeue of a failed entry with budget left. *)
Lemma requeueFailedNotification_frame_witness :
  let run := OutboxService.requeueFailedNotification (JStr "entry-0")
               (worldWith (failedEntry 1)) in
  is_throw (fst run) = false
  /\ exists item' : Obj,
       snd run = with_table (<["entry-0" := item']> (table (worldWith (failedEntry 1))))
                   (worldWith (failedEntry 1))
       /\ Js.get "status" item' = JStr "pending"
       /\ Js.get "updatedAt" item' = JStr "5000"
       /\ (forall k : string, k <> "status" -> k <> "updatedAt" ->
             Js.get k item' = Js.get k (failedEntry 1)).
Proof.
  destruct (requeueFailedNotification_frame (worldWith (failedEntry 1)) (JStr "entry-0"))
    as (_ & _ & Hok).
  apply (Hok "entry-0" (failedEntry 1) 1 3); try reflexivity.
Defined.

Lemma convertDynamoDBValue_falsy_payload_witness :
  convertDynamoDBValue (AV_N EmptyString) = JObj [("N", JStr EmptyString)]
  /\ convertDynamoDBValue (AV_N "3") = JNum 3.
Proof.
  destruct (@convertDynamoDBValue_falsy_payload decimalBuiltins)
    as (Hfalsy & _ & _ & Htruthy). split.
  - apply (Hfalsy (AV_N EmptyString)). reflexivity.
  - apply (Htruthy (AV_N "3")). reflexivity.
Defined.

(** *** Further runs of the scenarios *)

(** Scenario 1: the provider accepts every call; the update that should
    mark the entry [sent] is rejected each time, so the message is sent
    four times and the entry is left [failed] with four retries
    counted and no receipt. *)
Example dispatch_accepted :
  let w := performAll [Enqueue welcome welcomeContent; Dispatch welcomeInsert]
                      (freshWorld 1000 accepts) in
  exists item : Obj,
    table w !! "entry-0" = Some item
    /\ Js.get "status" item = JStr "failed"
    /\ Js.get "error" item = JStr (message reservedResult)
    /\ Js.get "result" item = JUndefined
    /\ Js.get "retryCount" item = JNum 4
    /\ length (sent w) = 4%nat.
Proof. eexists. split; [vm_compute; reflexivity|]. repeat split. Qed.

(** The entry left by the throttled dispatch is past its budget: the
    processor marks it without calling the provider again. *)
Example escalation_after_throttled_dispatch :
  let run := DLQProcessor.processMessage exhaustedMessage throttledDispatch in
  fst run = Ok {| status := "permanently_failed"; retryable := None |}
  /\ length (sent (snd run)) = length (sent throttledDispatch).
Proof. split; vm_compute; reflexivity. Qed.

(** An entry that carries [maxRetries] 0 is measured against the default
    budget of 3: with [retryCount] 1 the processor attempts delivery. *)
Example zero_budget_defaults_to_three :
  let entry := Js.set "maxRetries" (JNum 0) (failedEntry 1) in
  let run := DLQProcessor.processMessage exhaustedMessage (worldWith entry) in
  fst run = Ok {| status := "failed"; retryable := Some false |}
  /\ length (sent (snd run)) = 3%nat.
Proof. split; vm_compute; reflexivity. Qed.

(** An empty error message is falsy: the status is written, the counter
    is not touched. *)
Example empty_error_not_counted :
  let run := NotificationService.updateOutboxEntryStatus (JStr "entry-0")
               (JStr "failed") (JStr EmptyString) JNull (worldWith (failedEntry 1)) in
  exists item : Obj,
    table (snd run) !! "entry-0" = Some item
    /\ Js.get "retryCount" item = JNum 1.
Proof. eexists. split; [vm_compute; reflexivity|]. reflexivity. Qed.

(** A factor below one makes the delays shrink. *)
Example shrinking_factor :
  (RetryHelper.backoffDelay 1000 30000 (1 # 2) 1
   < RetryHelper.backoffDelay 1000 30000 (1 # 2) 0)%Q.
Proof. reflexivity. Qed.

(** The escalation layer passes 2 and makes three attempts. *)
Example escalation_makes_three_attempts :
  let run := DLQProcessor.processMessage exhaustedMessage
               (with_table {[ "entry-0" := failedEntry 0 ]} (freshWorld 5000 throttled)) in
  fst run = Ok {| status := "failed"; retryable := Some true |}
  /\ length (sent (snd run)) = 3%nat
  /\ (Js.get "retryCount" <$> table (snd run) !! "entry-0") = Some (JNum 4).
Proof. repeat split; vm_compute; reflexivity. Qed.

(** *** Runs for the further properties *)


Lemma exponentialBackoff_total_delay_witness :
  let run := RetryHelper.exponentialBackoff (RetryHelper.traced alwaysInvalid)
               3 1000 30000 2 true (0, RetryHelper.noTrace) in
  (totalDelay (RetryHelper.sleeps (snd (snd run))) <= inject_Z 3 * 30000)%Q.
Proof.
  destruct (exponentialBackoff_total_delay alwaysInvalid 3 1000 30000 2 true 0)
    as [_ Htotal].
  - vm_compute. discriminate.
  - intros _ s. split; vm_compute; [discriminate | reflexivity].
  - exact Htotal.
Defined.

Lemma isRetryableError_occurs_witness :
  RetryHelper.isRetryableError
    {| name := "Error"; ctor := "Error"; message := "socket: ECONNRESET" |} = true.
Proof.
  apply (proj2 (isRetryableError_occurs
                  {| name := "Error"; ctor := "Error"; message := "socket: ECONNRESET" |})).
  exists "ECONNRESET". split.
  - vm_compute. tauto.
  - right. exists "socket: ", EmptyString. reflexivity.
Defined.

Lemma convertDynamoDBRecord_lookup_witness :
  Js.get "id" (convertDynamoDBRecord welcomeImage) = JStr "entry-0"
  /\ Js.get "error" (convertDynamoDBRecord welcomeImage) = JUndefined.
Proof.
  assert (Hnd : NoDup (map fst welcomeImage)).
  { apply (bool_decide_unpack _). vm_compute. reflexivity. }
  destruct (convertDynamoDBRecord_lookup welcomeImage Hnd eq_refl) as [Hin Hout]. split.
  - apply (Hin "id" (AV_S "entry-0")). vm_compute. tauto.
  - apply (Hout "error"); vm_compute; intuition discriminate.
Defined.

Lemma processOutboxEntry_accepted_recorded_failed_witness :
  let run := NotificationService.processOutboxEntry pendingEntry
               (outboxWith pendingEntry accepts) in
  fst run = Throw reservedResult
  /\ sent (snd run) = [welcomeCommand]
  /\ exists item' : Obj,
       table (snd run) = <["entry-0" := item']> (table (outboxWith pendingEntry accepts))
       /\ Js.get "status" item' = JStr "failed"
       /\ Js.get "retryCount" item' = JNum (0 + 1)
       /\ Js.get "result" item' = JUndefined.
Proof.
  destruct (processOutboxEntry_accepted_recorded_failed pendingEntry welcomeCommand
              (outboxWith pendingEntry accepts) "entry-0" pendingEntry 0 (JStr "msg-0"))
    as (Hr & Hs & _ & item' & Ht & Hst & _ & Hrc & Hres & _); try reflexivity.
  split; [exact Hr|]. split; [exact Hs|].
  exists item'. repeat split; assumption.
Defined.

Lemma processOutboxEntry_rejected_witness :
  let run := NotificationService.processOutboxEntry pendingEntry
               (outboxWith pendingEntry throttled) in
  sent (snd run) = [welcomeCommand]
  /\ exists item' : Obj,
       table (snd run) = <["entry-0" := item']> (table (outboxWith pendingEntry throttled))
       /\ Js.get "status" item' = JStr "failed"
       /\ Js.get "error" item' = JStr "Rate exceeded"
       /\ Js.get "retryCount" item' = JNum (0 + 1).
Proof.
  destruct (processOutboxEntry_rejected pendingEntry welcomeCommand
              (outboxWith pendingEntry throttled) "entry-0" pendingEntry 0
              {| name := "ThrottlingException"; ctor := "ThrottlingException";
                 message := "Rate exceeded" |})
    as (_ & Hs & _ & item' & Ht & Hst & He & Hrc & _);
    try reflexivity; try discriminate.
  split; [exact Hs|]. exists item'. repeat split; assumption.
Defined.

Lemma processOutboxEntry_unsupported_type_witness :
  let run := NotificationService.processOutboxEntry pushEntry
               (outboxWith pushEntry accepts) in
  fst run = Throw (newError "Unsupported notification type: push")
  /\ sent (snd run) = [].
Proof.
  destruct (processOutboxEntry_unsupported_type pushEntry (outboxWith pushEntry accepts)
              "entry-0" pushEntry 0)
    as (Hr & Hs & _); try reflexivity.
  split; [exact Hr | exact Hs].
Defined.

Lemma processOutboxEntry_missing_entry_masks_error_witness :
  let run := NotificationService.processOutboxEntry pendingEntry
               (freshWorld 5000 throttled) in
  fst run = Throw (DynamoDB.ValidationException
                     "The provided expression refers to an attribute that does not exist in the item")
  /\ table (snd run) = ∅.
Proof.
  destruct (processOutboxEntry_missing_entry_masks_error pendingEntry welcomeCommand
              (freshWorld 5000 throttled) "entry-0"
              {| name := "ThrottlingException"; ctor := "ThrottlingException";
                 message := "Rate exceeded" |})
    as (Hr & _ & Ht & _); try reflexivity; try discriminate.
  split; [exact Hr | exact Ht].
Defined.

Lemma processing_frame_witness :
  table (snd (NotificationService.processOutboxEntry pendingEntry
                (outboxWith pendingEntry accepts))) !! "entry-1"
  = table (outboxWith pendingEntry accepts) !! "entry-1".
Proof.
  destruct (processing_frame "entry-1" (outboxWith pendingEntry accepts)) as [Hentry _].
  apply (Hentry pendingEntry). discriminate.
Defined.

Lemma performAll_keeps_keyed_witness :
  keyed (table throttledDispatch).
Proof.
  apply (performAll_keeps_keyed [Enqueue welcome welcomeContent; Dispatch welcomeInsert]
           (freshWorld 1000 throttled)).
  intros id item Hitem. cbn in Hitem. rewrite lookup_empty in Hitem. discriminate Hitem.
Defined.

Lemma eligible_welcomeInsert (replies : nat -> ProviderCall -> Result JsVal) :
  eligible welcomeInsert (outboxWith pendingEntry replies) welcomeImage.
Proof. repeat split. left. reflexivity. Qed.

Lemma processRecord_never_marks_sent_witness :
  let run := StreamProcessor.processRecord welcomeInsert
               (outboxWith pendingEntry (flaky 2)) in
  fst run = Throw reservedResult
  /\ sent (snd run) = replicate 4 welcomeCommand
  /\ exists item' : Obj,
       table (snd run) !! "entry-0" = Some item'
       /\ Js.get "status" item' = JStr "failed"
       /\ Js.get "retryCount" item' = JNum (0 + 4).
Proof.
  destruct (processRecord_never_marks_sent welcomeInsert welcomeImage
              (outboxWith pendingEntry (flaky 2)) welcomeCommand "entry-0" pendingEntry 0
              (eligible_welcomeInsert (flaky 2)) eq_refl eq_refl eq_refl eq_refl eq_refl)
    as (Hr & Hs & _ & item' & Ht & Hst & Hrc & _).
  - intros i Hi. unfold answers.
    destruct i as [|[|i]]; cbn; [discriminate | discriminate | exact I].
  - split; [exact Hr|]. split; [exact Hs|]. exists item'. repeat split; assumption.
Defined.

Lemma processRecord_exhausts_retries_witness :
  let run := StreamProcessor.processRecord welcomeInsert
               (outboxWith pendingEntry throttled) in
  is_throw (fst run) = true
  /\ sent (snd run) = replicate 4 welcomeCommand
  /\ exists item' : Obj,
       table (snd run) !! "entry-0" = Some item'
       /\ Js.get "retryCount" item' = JNum (0 + 4)
       /\ Js.get "maxRetries" item' = JNum 3.
Proof.
  destruct (processRecord_exhausts_retries welcomeInsert welcomeImage
              (outboxWith pendingEntry throttled) welcomeCommand "entry-0" pendingEntry 0
              (eligible_welcomeInsert throttled) eq_refl eq_refl eq_refl eq_refl eq_refl)
    as (e & Hr & _ & Hs & _ & item' & Ht & _ & Hrc & Hm).
  - intros i Hi. eexists. split; [reflexivity | discriminate].
  - split; [now rewrite Hr|]. split; [exact Hs|].
    exists item'. repeat split; assumption.
Defined.

Lemma processMessage_rejected_retry_witness :
  let run := DLQProcessor.processMessage imageMessage
               (outboxWith pendingEntry throttled) in
  fst run = Ok {| status := "failed"; retryable := Some true |}
  /\ sent (snd run) = replicate 3 welcomeCommand
  /\ exists item' : Obj,
       table (snd run) !! "entry-0" = Some item'
       /\ Js.get "error" item' = JStr "DLQ retry failed: Rate exceeded"
       /\ Js.get "retryCount" item' = JNum (0 + 4).
Proof.
  destruct (processMessage_rejected_retry imageMessage
              {| recordImage := Some welcomeImage; properties := [] |}
              (convertDynamoDBRecord welcomeImage)
              (outboxWith pendingEntry throttled) welcomeCommand "entry-0" pendingEntry 0)
    as (e & He & Hr & Hs & _ & item' & Ht & _ & Herr & Hrc & _);
    try (vm_compute; reflexivity).
  - intros i Hi. eexists. split; [reflexivity | discriminate].
  - injection He as <-.
    split; [exact Hr|]. split; [exact Hs|].
    exists item'. repeat split; assumption.
Defined.

Lemma processMessage_retry_never_succeeds_witness :
  let run := DLQProcessor.processMessage imageMessage
               (outboxWith pendingEntry accepts) in
  fst run = Ok {| status := "failed"; retryable := Some false |}
  /\ sent (snd run) = replicate 3 welcomeCommand
  /\ exists item' : Obj,
       table (snd run) !! "entry-0" = Some item'
       /\ Js.get "status" item' = JStr "failed"
       /\ Js.get "retryCount" item' = JNum (0 + 4).
Proof.
  destruct (processMessage_retry_never_succeeds imageMessage
              {| recordImage := Some welcomeImage; properties := [] |}
              (convertDynamoDBRecord welcomeImage)
              (outboxWith pendingEntry accepts) welcomeCommand "entry-0" pendingEntry 0
              ltac:(reflexivity) ltac:(reflexivity) ltac:(vm_compute; reflexivity)
              ltac:(reflexivity) ltac:(reflexivity) ltac:(reflexivity)
              ltac:(reflexivity) ltac:(reflexivity) ltac:(reflexivity))
    as (Hr & Hs & _ & item' & Ht & Hst & _ & Hrc & _).
  - intros i Hi. exact I.
  - split; [exact Hr|]. split; [exact Hs|]. exists item'. repeat split; assumption.
Defined.

Lemma keyed_archive : keyed (table archive).
Proof.
  intros id item Hitem. cbn in Hitem.
  apply lookup_insert_Some in Hitem as [[<- <-] | [_ Hitem]]; [reflexivity|].
  apply lookup_singleton_Some in Hitem as [<- <-]. reflexivity.
Qed.

Lemma cleanupOldEntries_removes_old_finished_witness :
  let run := @OutboxMaintenance.cleanupOldEntries decimalBuiltins fullScan 7 archive in
  table (snd run) !! "old" = None
  /\ table (snd run) !! "new" = table archive !! "new".
Proof.
  destruct (@cleanupOldEntries_removes_old_finished decimalBuiltins fullScan 7 archive
              keyed_archive)
    as (_ & Hkeep & _ & _ & Hremove & _).
  split.
  - apply (Hremove "old" [ ("id", JStr "old"); ("status", JStr "sent");
                            ("createdAt", JStr "1") ] "1");
      try reflexivity.
    + apply (bool_decide_unpack _). vm_compute. reflexivity.
    + left. reflexivity.
  - apply (Hkeep "new"); [reflexivity | discriminate | discriminate].
Defined.

Lemma processScheduledNotifications_pending_only_witness :
  let run := @OutboxMaintenance.processScheduledNotifications decimalBuiltins fullScan
               archive in
  table (snd run) !! "old" = table archive !! "old"
  /\ table (snd run) !! "new" = table archive !! "new".
Proof.
  destruct (@processScheduledNotifications_pending_only decimalBuiltins fullScan archive
              keyed_archive)
    as (r & calls & _ & _ & _ & _ & _ & _ & Hother & Hlater).
  split.
  - apply (Hother "old"); [reflexivity | discriminate].
  - apply (Hlater "new" _ "99"); reflexivity.
Defined.

Lemma getFailedNotifications_reads_witness :
  let run := @OutboxMaintenance.getFailedNotifications fullScan 50
               (outboxWith (failedEntry 1) accepts) in
  snd run = outboxWith (failedEntry 1) accepts
  /\ exists items : list Obj, fst run = Ok items /\ Z.of_nat (length items) <= 50.
Proof.
  destruct (@getFailedNotifications_reads fullScan 50 (outboxWith (failedEntry 1) accepts))
    as (Hw & _ & Hitems).
  split; [exact Hw|].
  destruct Hitems as (items & Hr & _ & Hl & _); [lia|].
  exists items. split; [exact Hr | exact Hl].
Defined.

Lemma processMessage_unusable_witness :
  DLQProcessor.processMessage brokenMessage (outboxWith pendingEntry accepts)
  = (Ok {| status := "failed"; retryable := Some false |},
     outboxWith pendingEntry accepts).
Proof.
  destruct (processMessage_unusable brokenMessage (outboxWith pendingEntry accepts))
    as (Hbroken & _ & _).
  apply (Hbroken {| name := "SyntaxError"; ctor := "SyntaxError";
                    message := "Unexpected token < in JSON at position 0" |}).
  reflexivity.
Defined.
